(** * The aggregation pipelines of the movie-ratings dashboard

    Source: [Week-03-EDA-and-Dashboards/exercise/hamzah_dashboard/app.py],
    function [main].  The four tabs of the dashboard each derive a table
    from the ratings frame [df] and hand it to a chart.  This file embeds
    the four derivations (lines 65-78, 101-107, 129-139 and 162-169) as
    functions over lists and states their properties.

    Numbers.  pandas computes shares and means in binary64.  The embedding
    computes them in exact rational arithmetic ([Q], compared with [==]):
    what is proved is the arithmetic the program performs, before rounding.
    The shares of the first tab are given a second time as the program
    rounds them ([round64], [genre_distribution64]), and what is said of
    their total is proved of the rounded numbers.  Counts and the integer
    widgets are Python integers, hence [Z]. *)

From Stdlib Require Import String Bool Arith ZArith QArith Qfield Lia Lqa List.
From Stdlib Require Import Permutation Sorted Setoid DecimalString.
From Stdlib Require Import Qround Qabs Qpower.
From Stdlib Require OrderedTypeEx.
From Stdlib Require Floats.SpecFloat.
Import ListNotations.

Local Open Scope string_scope.
Local Open Scope list_scope.
Local Open Scope Z_scope.

(* ===================================================================== *)
(** ** The ratings frame *)
(* ===================================================================== *)

(** Modelled from the spec: the schema of [movie_ratings.csv], which
    [load_data] reads and which is not part of the sources.  One record per
    line of the file; every cell is present (the data model of the spec:
    no missing [genres], [rating] or [year]). *)
Record Rating : Type := mkRating {
  movie_id : Z;
  title    : string;
  genres   : string;
  rating   : Q;
  year     : Z
}.

(** A frame is its header and its lines.  A column that the header does not
    list does not exist: every pipeline looks its columns up in the header
    before it reads a field, so the fields of an absent column are never
    read. *)
Record DataFrame : Type := mkDataFrame {
  columns : list string;
  records : list Rating
}.

(** What a pandas call raises on a column label that the frame lacks. *)
Inductive exn : Type :=
| KeyError (label : string).

Inductive result (A : Type) : Type :=
| Ok  (a : A)
| Err (e : exn).
Arguments Ok {A} a.
Arguments Err {A} e.

Definition bind {A B : Type} (m : result A) (k : A -> result B) : result B :=
  match m with
  | Ok a  => k a
  | Err e => Err e
  end.

Notation "x <- m ;; k" := (bind m (fun x => k))
  (at level 61, m at next level, right associativity).

Definition has_column (df : DataFrame) (label : string) : bool :=
  existsb (String.eqb label) (columns df).

(** [df[label]], [df.groupby(label)] and a named aggregation over [label]
    all start with this lookup. *)
Definition column (df : DataFrame) (label : string) : result unit :=
  if has_column df label then Ok tt else Err (KeyError label).

(* ===================================================================== *)
(** ** Rational helpers *)
(* ===================================================================== *)

Definition Qlt_bool (x y : Q) : bool :=
  (Qnum x * QDen y <? Qnum y * QDen x)%Z.

Definition Qsum (l : list Q) : Q := fold_right Qplus 0%Q l.

Definition Zsum (l : list Z) : Z := fold_right Z.add 0 l.

Definition Zlen {A : Type} (l : list A) : Z := Z.of_nat (length l).

(** [Series.mean()] of a series with at least one value and no missing
    value: the ratings of a group, the means under a full window. *)
Definition mean (l : list Q) : Q := (Qsum l / inject_Z (Zlen l))%Q.

(* ===================================================================== *)
(** ** Group keys and [groupby] *)
(* ===================================================================== *)

(** The keys of a [groupby] are compared to put the groups in key order
    ([sort=True], the default): strings by code point, integers by value,
    a pair of keys lexicographically. *)
Class Compare (K : Type) : Type := compare_key : K -> K -> comparison.

#[export] Instance string_compare : Compare string := String.compare.

#[export] Instance Z_compare : Compare Z := Z.compare.

#[export] Instance pair_compare {A B : Type} `{Compare A} `{Compare B}
  : Compare (A * B) :=
  fun x y =>
    match compare_key (fst x) (fst y) with
    | Eq => compare_key (snd x) (snd y)
    | c => c
    end.

(** The laws of a key order. *)
Class KeyOrd (K : Type) `{Compare K} : Prop := {
  cmp_eq : forall a b : K, compare_key a b = Eq <-> a = b;
  cmp_antisym : forall a b : K, compare_key a b = CompOpp (compare_key b a);
  cmp_lt_trans : forall a b c : K,
      compare_key a b = Lt -> compare_key b c = Lt -> compare_key a c = Lt
}.

Definition key_eqb {K : Type} `{Compare K} (a b : K) : bool :=
  match compare_key a b with Eq => true | _ => false end.

(** One step of grouping: the row [r] with key [k] joins its group, or opens
    a new group at the key's place. *)
Fixpoint insert_group {K R : Type} `{Compare K} (k : K) (r : R)
    (gs : list (K * list R)) : list (K * list R) :=
  match gs with
  | [] => [(k, [r])]
  | (k', rs) :: gs' =>
      match compare_key k k' with
      | Eq => (k', rs ++ [r]) :: gs'
      | Lt => (k, [r]) :: gs
      | Gt => (k', rs) :: insert_group k r gs'
      end
  end.

(** [df.groupby(by)]: the groups in ascending key order, each with its rows
    in frame order. *)
Definition groupby {K R : Type} `{Compare K} (by_ : R -> K) (rows : list R)
    : list (K * list R) :=
  fold_left (fun gs r => insert_group (by_ r) r gs) rows [].

Definition group_sizes {K R : Type} (gs : list (K * list R)) : list Z :=
  map (fun g => Zlen (snd g)) gs.

(** The rows filed under the key [k]: those of the first group with that
    key, none when there is no such group. *)
Fixpoint rows_of {K R : Type} `{Compare K} (k : K) (gs : list (K * list R))
    : list R :=
  match gs with
  | [] => []
  | (k', rs) :: gs' => if key_eqb k' k then rs else rows_of k gs'
  end.

(** Keys in strictly ascending order. *)
Definition keys_ascend {K R : Type} `{Compare K} (gs : list (K * list R)) : Prop :=
  StronglySorted (fun a b => compare_key a b = Lt) (map fst gs).

Definition is_empty {A : Type} (l : list A) : bool :=
  match l with [] => true | _ => false end.

(* ===================================================================== *)
(** ** Q1: genre distribution (lines 65-78) *)
(* ===================================================================== *)

(** A row of [genre_counts] and of [display_df]: columns [genres], [count]
    and [pct]. *)
Record GenreShare : Type := mkGenreShare {
  share_genres : string;
  share_count  : Z;
  share_pct    : Q
}.

(** [df.groupby("genres").size().reset_index(name="count")] *)
Definition genre_sizes (rows : list Rating) : list (string * Z) :=
  map (fun g => (fst g, Zlen (snd g))) (groupby genres rows).

(** [genre_counts] once its [pct] column is set:
    [100 * genre_counts["count"] / genre_counts["count"].sum()]. *)
Definition genre_counts (rows : list Rating) : list GenreShare :=
  let sizes := genre_sizes rows in
  let total := Zsum (map snd sizes) in
  map (fun g => mkGenreShare (fst g) (snd g)
                  (inject_Z (100 * snd g) / inject_Z total)%Q) sizes.

(** [genre_counts[genre_counts["pct"] >= min_pct]] *)
Definition major (min_pct : Q) (gc : list GenreShare) : list GenreShare :=
  filter (fun g => Qle_bool min_pct (share_pct g)) gc.

(** [genre_counts[genre_counts["pct"] < min_pct]] *)
Definition minor (min_pct : Q) (gc : list GenreShare) : list GenreShare :=
  filter (fun g => Qlt_bool (share_pct g) min_pct) gc.

Definition other_row (mn : list GenreShare) : GenreShare :=
  mkGenreShare "Other" (Zsum (map share_count mn)) (Qsum (map share_pct mn)).

Definition display_df (min_pct : Q) (rows : list Rating) : list GenreShare :=
  let gc := genre_counts rows in
  let mj := major min_pct gc in
  let mn := minor min_pct gc in
  if negb (is_empty mn) then mj ++ [other_row mn] else mj.

(** The first tab, from the frame to the table given to [px.pie]. *)
Definition genre_distribution (df : DataFrame) (min_pct : Q)
    : result (list GenreShare) :=
  _ <- column df "genres" ;;
  Ok (display_df min_pct (records df)).

(* ===================================================================== *)
(** ** Q1 as the program rounds it (lines 66 and 74) *)
(* ===================================================================== *)

(** The nearest integer, the even one of the two when they are as near. *)
Definition round_half_even (y : Q) : Z :=
  let f := Qfloor y in
  match (y - inject_Z f ?= 1 # 2)%Q with
  | Lt => f
  | Gt => f + 1
  | Eq => if Z.even f then f else f + 1
  end.

(** The binade of a positive number: the [e] with [2^e <= x < 2^(e+1)].
    The difference of the two logarithms is [e] or [e + 1]. *)
Definition exponent (x : Q) : Z :=
  let e := Z.log2 (Qnum x) - Z.log2 (QDen x) in
  if Qle_bool (2 ^ e) x then e else e - 1.

Definition round64_pos (x : Q) : Q :=
  let e := exponent x in
  (inject_Z (round_half_even (x * 2 ^ (52 - e))) * 2 ^ (e - 52))%Q.

(** The binary64 number an operation returns when its exact result is [x]:
    the nearest number with 53 significant bits, ties to even, in lowest
    terms.  The exponent is not bounded; the numbers of the first tab lie
    between [100 / 2^63] and [2^63], far from both ends of the format. *)
Definition round64 (x : Q) : Q :=
  Qred match Qnum x with
       | 0 => 0%Q
       | Z.pos _ => round64_pos x
       | Z.neg _ => (- round64_pos (- x))%Q
       end.

(** Half the gap between 1 and the next binary64 number. *)
Definition u64 : Q := 1 # 9007199254740992.

(** [(1 + u64)^n]: what [n] roundings in a row can do to a value. *)
Fixpoint compound (n : nat) : Q :=
  match n with
  | O => 1
  | S k => compound k * (1 + u64)
  end.

(** The rational a finite number of the IEEE 754 specification of the
    standard library stands for, and the binary64 number of an integer
    there; they serve to check [round64] against that specification. *)
Definition binary64_value (f : SpecFloat.spec_float) : Q :=
  match f with
  | SpecFloat.S754_finite s m e =>
      ((if s then - 1 else 1) * inject_Z (Z.pos m) * 2 ^ e)%Q
  | _ => 0%Q
  end.

Definition binary64_of_Z (n : Z) : SpecFloat.spec_float :=
  SpecFloat.binary_normalize 53 1024 n 0 false.

(** An [int64] result: the counts, their sum and their product by 100 wrap
    around beyond [2^63]. *)
Definition int64 (n : Z) : Z := (n + 2 ^ 63) mod 2 ^ 64 - 2 ^ 63.

(** [100 * count / total] on [int64] columns: the product is an [int64],
    the true division converts both operands to binary64 and divides
    there. *)
Definition share64 (count total : Z) : Q :=
  round64 (round64 (inject_Z (int64 (100 * count))) / round64 (inject_Z total)).

(** [genre_counts] with its [pct] column as line 66 computes it. *)
Definition genre_counts64 (rows : list Rating) : list GenreShare :=
  let sizes := genre_sizes rows in
  let total := int64 (Zsum (map snd sizes)) in
  map (fun g => mkGenreShare (fst g) (snd g) (share64 (snd g) total)) sizes.

(** [minor["pct"].sum()] (line 74) is a sum of binary64 numbers, which
    pandas hands to numpy or to bottleneck: the routine is the parameter
    [fsum].  [minor["count"].sum()] is a sum of integers. *)
Definition other_row64 (fsum : list Q -> Q) (mn : list GenreShare) : GenreShare :=
  mkGenreShare "Other" (Zsum (map share_count mn)) (fsum (map share_pct mn)).

Definition display_df64 (fsum : list Q -> Q) (min_pct : Q) (rows : list Rating)
    : list GenreShare :=
  let gc := genre_counts64 rows in
  let mj := major min_pct gc in
  let mn := minor min_pct gc in
  if negb (is_empty mn) then mj ++ [other_row64 fsum mn] else mj.

(** The first tab with the numbers of the program. *)
Definition genre_distribution64 (fsum : list Q -> Q) (df : DataFrame)
    (min_pct : Q) : result (list GenreShare) :=
  _ <- column df "genres" ;;
  Ok (display_df64 fsum min_pct (records df)).

(** What a routine that sums binary64 numbers promises, whatever the order
    of its additions: on numbers that are not negative, an error of at
    most one rounding per addition, relative to the sum. *)
Definition sum64_accurate (fsum : list Q -> Q) : Prop :=
  forall l, Forall (fun x => (0 <= x)%Q) l ->
    (Qabs (fsum l - Qsum l) <= (compound (length l) - 1) * Qsum l)%Q.

(** The sum from left to right, each addition rounded. *)
Definition sum64_left (l : list Q) : Q :=
  fold_left (fun acc x => round64 (acc + x)) l 0%Q.

(** numpy's sum of at most 128 numbers: eight running sums over the
    blocks of eight, added in pairs, then the numbers left over, one by
    one; fewer than eight numbers are added from left to right. *)
Fixpoint add_lanes (lanes block : list Q) : list Q :=
  match lanes, block with
  | r :: lanes', x :: block' => round64 (r + x) :: add_lanes lanes' block'
  | _, _ => lanes
  end.

Fixpoint sum_blocks (blocks : nat) (lanes l : list Q) : list Q * list Q :=
  match blocks with
  | O => (lanes, l)
  | S k => sum_blocks k (add_lanes lanes (firstn 8 l)) (skipn 8 l)
  end.

Definition sum64_pairwise (l : list Q) : Q :=
  if (length l <? 8)%nat then sum64_left l
  else
    let (lanes, rest) :=
      sum_blocks (length l / 8 - 1) (firstn 8 l) (skipn 8 l) in
    let r := fun i => nth i lanes 0%Q in
    let res :=
      round64 (round64 (round64 (r 0%nat + r 1%nat) + round64 (r 2%nat + r 3%nat))
               + round64 (round64 (r 4%nat + r 5%nat) + round64 (r 6%nat + r 7%nat))) in
    fold_left (fun acc x => round64 (acc + x)) rest res.

(** [a] stands for the exact [s] after at most [k] roundings in a row. *)
Definition approx (k : nat) (a s : Q) : Prop :=
  (0 <= s /\ 0 <= a /\ Qabs (a - s) <= (compound k - 1) * s)%Q.

(** The tolerance on a total of 100 after the shares of [groups] genres
    have been rounded and summed: [2 * (groups + 1)] times [u64], of 100. *)
Definition pct_tolerance (groups : nat) : Q :=
  (200 * inject_Z (Z.of_nat (S groups)) * u64)%Q.

(* ===================================================================== *)
(** ** Sorting a frame *)
(* ===================================================================== *)

(** [values[indexer]]: the rows of [l] at the positions [indexer] lists. *)
Definition take {A : Type} (indexer : list nat) (l : list A) : list A :=
  match l with
  | [] => []
  | d :: _ => map (fun i => nth i l d) indexer
  end.

(** [sort_values] on one column goes through pandas' [nargsort], which asks
    numpy for the positions that put the values in ascending order
    ([items.argsort(kind="quicksort")], the default kind) and, for a
    descending sort, reverses the values before and the positions after.
    The numpy routine is the parameter [argsort]. *)
Definition nargsort (argsort : list Q -> list nat) (items : list Q)
    (ascending : bool) : list nat :=
  let idx := seq 0 (length items) in
  if ascending
  then map (fun i => nth i idx 0%nat) (argsort items)
  else rev (map (fun i => nth i (rev idx) 0%nat) (argsort (rev items))).

(** [frame.sort_values(by, ascending=ascending)] for a numeric column. *)
Definition sort_values {A : Type} (argsort : list Q -> list nat)
    (by_ : A -> Q) (ascending : bool) (l : list A) : list A :=
  take (nargsort argsort (map by_ l) ascending) l.

(** What [argsort] promises: a rearrangement of the positions
    [0 .. len-1] that reads the values in ascending order.  Nothing is
    promised on the order of equal values. *)
Definition argsort_permutes (argsort : list Q -> list nat) : Prop :=
  forall items, Permutation (argsort items) (seq 0 (length items)).

Definition argsort_ascends (argsort : list Q -> list nat) : Prop :=
  forall items,
    StronglySorted Qle (map (fun i => nth i items 0%Q) (argsort items)).

(** Sorting on several columns goes through [numpy.lexsort], a stable sort
    on the compound key: an insertion sort that keeps earlier rows first
    among equals. *)
Fixpoint insert_by {A : Type} (le : A -> A -> bool) (x : A) (l : list A)
    : list A :=
  match l with
  | [] => [x]
  | y :: l' => if le x y then x :: l else y :: insert_by le x l'
  end.

Definition lexsort {A : Type} (le : A -> A -> bool) (l : list A) : list A :=
  fold_right (insert_by le) [] l.

(** One [argsort] that keeps the promise, to run the pipelines with: the
    positions, sorted by their values with the insertion sort above. *)
Definition insertion_argsort (items : list Q) : list nat :=
  map fst (lexsort (fun a b => Qle_bool (snd a) (snd b))
             (combine (seq 0 (length items)) items)).

(** Another [argsort] that keeps the same promise: among equal values it
    lists the later position first. *)
Definition backward_argsort (items : list Q) : list nat :=
  map fst (lexsort (fun a b => Qlt_bool (snd a) (snd b))
             (combine (seq 0 (length items)) items)).

(** A stable [argsort] lists the positions of equal values in ascending
    order; [kind="stable"] asks numpy for one, the default kind does not. *)
Definition argsort_stable (argsort : list Q -> list nat) : Prop :=
  forall items v,
    filter (fun i => Qeq_bool (nth i items 0%Q) v) (argsort items)
    = filter (fun i => Qeq_bool (nth i items 0%Q) v) (seq 0 (length items)).

(** The rows of [out] with equal values of [by_] stand in the order they
    have in [l]. *)
Definition keeps_ties {A : Type} (by_ : A -> Q) (l out : list A) : Prop :=
  forall v,
    filter (fun x => Qeq_bool (by_ x) v) out
    = filter (fun x => Qeq_bool (by_ x) v) l.

(** [frame.head(n)] *)
Definition head {A : Type} (n : Z) (l : list A) : list A :=
  if n <? 0
  then firstn (length l - Z.to_nat (- n)) l
  else firstn (Z.to_nat n) l.

(* ===================================================================== *)
(** ** Q2: average rating by genre (lines 101-107) *)
(* ===================================================================== *)

(** A row of [genre_stats]: columns [genres], [avg_rating], [num_ratings]. *)
Record GenreStat : Type := mkGenreStat {
  stat_genres      : string;
  stat_avg_rating  : Q;
  stat_num_ratings : Z
}.

(** The two options of the radio button. *)
Inductive SortOrder : Type :=
| HighToLow
| LowToHigh.

Definition ascending (sort_order : SortOrder) : bool :=
  match sort_order with
  | LowToHigh => true
  | HighToLow => false
  end.

Definition genre_stats (rows : list Rating) : list GenreStat :=
  map (fun g => mkGenreStat (fst g) (mean (map rating (snd g))) (Zlen (snd g)))
      (groupby genres rows).

(** [genre_stats[genre_stats["num_ratings"] >= min_ratings]] *)
Definition filtered (min_ratings : Z) (rows : list Rating) : list GenreStat :=
  filter (fun s => min_ratings <=? stat_num_ratings s) (genre_stats rows).

(** The second tab, from the frame to the table given to [px.bar]. *)
Definition genre_rating (argsort : list Q -> list nat) (df : DataFrame)
    (min_ratings : Z) (sort_order : SortOrder) : result (list GenreStat) :=
  _ <- column df "genres" ;;
  _ <- column df "rating" ;;
  Ok (sort_values argsort stat_avg_rating (ascending sort_order)
        (filtered min_ratings (records df))).

(* ===================================================================== *)
(** ** Q3: rating trend by year (lines 129-139) *)
(* ===================================================================== *)

(** A row of [year_stats]: columns [year], [avg_rating], [n_ratings]. *)
Record YearStat : Type := mkYearStat {
  ystat_year      : Z;
  ystat_avg_rating : Q;
  ystat_n_ratings : Z
}.

(** A row of [year_filtered] once [avg_smoothed] is set; [None] is the
    missing value (NaN) that [rolling] leaves where the window is short. *)
Record YearPoint : Type := mkYearPoint {
  point_year       : Z;
  point_avg_rating : Q;
  point_n_ratings  : Z;
  avg_smoothed     : option Q
}.

Definition year_stats (rows : list Rating) : list YearStat :=
  map (fun g => mkYearStat (fst g) (mean (map rating (snd g))) (Zlen (snd g)))
      (groupby year rows).

(** [year_stats[mask & (year_stats["n_ratings"] >= min_count_year)]] *)
Definition year_filtered (year_range : Z * Z) (min_count_year : Z)
    (rows : list Rating) : list YearStat :=
  filter (fun s =>
            ((fst year_range <=? ystat_year s) && (ystat_year s <=? snd year_range))
            && (min_count_year <=? ystat_n_ratings s))
         (year_stats rows).

(** [numpy.clip] *)
Definition clip (x lo hi : Z) : Z := Z.min hi (Z.max x lo).

(** The bounds of the window at position [i] of [n] values, as pandas'
    fixed-width indexer computes them with [center=True]. *)
Definition window_bounds (window n i : Z) : Z * Z :=
  let offset := (window - 1) / 2 in
  let end_ := i + 1 + offset in
  let start := end_ - window in
  (clip start 0 n, clip end_ 0 n).

(** [values[start:end]] for bounds already within the values. *)
Definition slice {A : Type} (start end_ : Z) (l : list A) : list A :=
  firstn (Z.to_nat (end_ - start)) (skipn (Z.to_nat start) l).

(** [series.rolling(window=window, center=True).mean()]: a position holds a
    value when its window holds [window] observations
    ([min_periods] defaults to the window width). *)
Definition rolling_mean (window : Z) (xs : list Q) : list (option Q) :=
  let n := Zlen xs in
  map (fun i =>
         let b := window_bounds window n (Z.of_nat i) in
         let w := slice (fst b) (snd b) xs in
         if Zlen w <? window then None else Some (mean w))
      (seq 0 (length xs)).

Definition with_smoothed (s : YearStat) (v : option Q) : YearPoint :=
  mkYearPoint (ystat_year s) (ystat_avg_rating s) (ystat_n_ratings s) v.

Definition smoothed (smooth_window : Z) (yf : list YearStat) : list YearPoint :=
  let raw := map ystat_avg_rating yf in
  if (1 <? smooth_window) && negb (is_empty yf)
  then map (fun p => with_smoothed (fst p) (snd p))
           (combine yf (rolling_mean smooth_window raw))
  else map (fun s => with_smoothed s (Some (ystat_avg_rating s))) yf.

(** The third tab, from the frame to the table given to [px.line]. *)
Definition year_trend (df : DataFrame) (year_range : Z * Z)
    (min_count_year smooth_window : Z) : result (list YearPoint) :=
  _ <- column df "year" ;;
  _ <- column df "rating" ;;
  Ok (smoothed smooth_window
        (year_filtered year_range min_count_year (records df))).

(** The reading of the boundary of a smoothed sequence: the smoothed value
    is missing at exactly the first [front] and the last [back] positions. *)
Definition smoothed_missing_exactly (front back : Z) (out : list YearPoint)
    : Prop :=
  forall (i : nat) (p : YearPoint),
    nth_error out i = Some p ->
    (avg_smoothed p = None
     <-> (Z.of_nat i < front \/ Zlen out - back <= Z.of_nat i)).

(** Whether a smoothed value is there to plot. *)
Definition is_plotted (p : YearPoint) : bool :=
  match avg_smoothed p with
  | Some _ => true
  | None => false
  end.

(** A row of [year_filtered] without its [avg_smoothed] column. *)
Definition drop_smoothed (p : YearPoint) : YearStat :=
  mkYearStat (point_year p) (point_avg_rating p) (point_n_ratings p).

(* ===================================================================== *)
(** ** Q4: top movies (lines 162-169) *)
(* ===================================================================== *)

(** A row of [movie_stats]: columns [movie_id], [title], [avg_rating],
    [n_ratings]. *)
Record MovieStat : Type := mkMovieStat {
  mstat_movie_id   : Z;
  mstat_title      : string;
  mstat_avg_rating : Q;
  mstat_n_ratings  : Z
}.

Definition movie_stats (rows : list Rating) : list MovieStat :=
  map (fun g => mkMovieStat (fst (fst g)) (snd (fst g))
                  (mean (map rating (snd g))) (Zlen (snd g)))
      (groupby (fun r => (movie_id r, title r)) rows).

(** [movie_stats[movie_stats["n_ratings"] >= min_movie_ratings]] *)
Definition filtered_movies (min_movie_ratings : Z) (rows : list Rating)
    : list MovieStat :=
  filter (fun s => min_movie_ratings <=? mstat_n_ratings s) (movie_stats rows).

(** The compound key of [sort_values(["avg_rating", "n_ratings"],
    ascending=[False, False])]: [a] may stand before [b] when its mean is
    higher, or the means are equal and its count is not lower. *)
Definition by_rating_then_count (a b : MovieStat) : bool :=
  Qlt_bool (mstat_avg_rating b) (mstat_avg_rating a)
  || (Qeq_bool (mstat_avg_rating a) (mstat_avg_rating b)
      && (mstat_n_ratings b <=? mstat_n_ratings a)).

(** The same order as a relation: mean rating descending, then count
    descending. *)
Definition rating_then_count_desc (a b : MovieStat) : Prop :=
  (mstat_avg_rating b < mstat_avg_rating a)%Q
  \/ ((mstat_avg_rating a == mstat_avg_rating b)%Q
      /\ mstat_n_ratings b <= mstat_n_ratings a).

(** The key of a row of [movie_stats], and the test that a row has the
    mean [v] and the count [c]: rows that pass it are equal for the sort. *)
Definition movie_key (s : MovieStat) : Z * string :=
  (mstat_movie_id s, mstat_title s).

Definition tied_at (v : Q) (c : Z) (s : MovieStat) : bool :=
  Qeq_bool (mstat_avg_rating s) v && (mstat_n_ratings s =? c).

(** Follows the claim's words, from the rows of the frame and not from
    the grouped table: the keys of a list, each once; the ratings of one
    (movie_id, title) pair; and the pairs of the frame that have at least
    [min_movie_ratings] ratings. *)
Fixpoint each_once {K : Type} `{Compare K} (ks : list K) : list K :=
  match ks with
  | [] => []
  | k :: ks' =>
      if existsb (key_eqb k) ks' then each_once ks' else k :: each_once ks'
  end.

Definition ratings_of (k : Z * string) (rows : list Rating) : list Rating :=
  filter (fun r => key_eqb (movie_id r, title r) k) rows.

Definition movies_meeting (min_movie_ratings : Z) (rows : list Rating)
    : list (Z * string) :=
  filter (fun k => min_movie_ratings <=? Zlen (ratings_of k rows))
    (each_once (map (fun r => (movie_id r, title r)) rows)).

Definition top_movies (min_movie_ratings top_n : Z) (rows : list Rating)
    : list MovieStat :=
  head top_n (lexsort by_rating_then_count (filtered_movies min_movie_ratings rows)).

(** The fourth tab, from the frame to the table given to [px.bar]. *)
Definition top_rated (df : DataFrame) (min_movie_ratings top_n : Z)
    : result (list MovieStat) :=
  _ <- column df "movie_id" ;;
  _ <- column df "title" ;;
  _ <- column df "rating" ;;
  Ok (top_movies min_movie_ratings top_n (records df)).

(* ===================================================================== *)
(** ** The page: [load_data], [show_header], [sidebar_controls], [main] *)
(* ===================================================================== *)

(** What Python raises while the page runs: the [KeyError] of a pandas
    call, the [ValueError] of [int] on a missing value, the [IndexError] of
    [Path.parents], the [FileNotFoundError] of [read_csv], or whatever a
    widget raises. *)
Inductive py_error : Type :=
| Pandas (e : exn)
| ValueError
| IndexError
| FileNotFoundError
| WidgetError (label : string).

Inductive outcome (A : Type) : Type :=
| Value (a : A)
| Raise (e : py_error).
Arguments Value {A} a.
Arguments Raise {A} e.

(** What the page draws, in the order of the calls.  A chart is recorded
    with its title and the table it is drawn from; the styling calls on the
    figure are left out. *)
Inductive element : Type :=
| Title (text : string)
| Caption (text : string)
| Header (text : string)
| Subheader (text : string)
| ErrorMessage (text : string)
| Input (label : string)
| Expander (label : string)
| Columns (n : Z)
| Tabs (labels : list string)
| RawData (preview : DataFrame)
| Pie (title_ : string) (table : list GenreShare)
| Bars (title_ : string) (table : list GenreStat)
| Line (title_ : string) (table : list YearPoint)
| Ranking (title_ : string) (table : list MovieStat).

(** A run of page code: what it has drawn so far, and its value or the
    exception that stopped it. *)
Definition Page (A : Type) : Type := list element * outcome A.

Definition ret {A : Type} (a : A) : Page A := ([], Value a).

Definition raise {A : Type} (e : py_error) : Page A := ([], Raise e).

Definition emit (e : element) : Page unit := ([e], Value tt).

Definition and_then {A B : Type} (m : Page A) (k : A -> Page B) : Page B :=
  match m with
  | (drawn, Value a) => (drawn ++ fst (k a), snd (k a))
  | (drawn, Raise e) => (drawn, Raise e)
  end.

Notation "x <~ m ;; k" := (and_then m (fun x => k))
  (at level 61, m at next level, right associativity).

(** A pandas pipeline run inside the page. *)
Definition pandas {A : Type} (r : result A) : Page A :=
  match r with
  | Ok a => ret a
  | Err e => raise (Pandas e)
  end.

Definition eval {A : Type} (r : outcome A) : Page A := ([], r).

(** The values the widgets return on this run.  Every widget but one is
    called with constant bounds; the year slider is called with the bounds
    read from the frame, so its answer depends on them. *)
Record Widgets : Type := mkWidgets {
  show_raw            : bool;
  w_min_pct           : Q;
  w_min_ratings       : Z;
  w_sort_order        : SortOrder;
  w_year_range        : Z -> Z -> outcome (Z * Z);
  w_min_count_year    : Z;
  w_smooth_window     : Z;
  w_min_movie_ratings : Z;
  w_top_n             : Z
}.

(** [Path.parents] of a resolved path, given by its components below the
    root: [parents[0]] is the folder of the file, the last one is the
    root. *)
Definition parents (path : list string) : list (list string) :=
  map (fun i => firstn (length path - S i) path) (seq 0 (length path)).

(** [Path(__file__).resolve().parents[2] / "data" / "movie_ratings.csv"] *)
Definition data_path (file : list string) : outcome (list string) :=
  match nth_error (parents file) 2 with
  | Some folder => Value (folder ++ ["data"; "movie_ratings.csv"])
  | None => Raise IndexError
  end.

(** The body of [load_data], on a file system that gives the frame pandas
    reads at a path, if there is a file.  The decorator of line 11 is
    [cached_load_data] below. *)
Definition load_data (fs : list string -> option DataFrame) (file : list string)
    : outcome DataFrame :=
  match data_path file with
  | Value path =>
      match fs path with
      | Some df => Value df
      | None => Raise FileNotFoundError
      end
  | Raise e => Raise e
  end.

Definition show_header : Page unit :=
  _ <~ emit (Title "Hamzah's MovieLens Dashboard") ;;
  emit (Caption "Week 3 — EDA and Interactive Charts").

Definition sidebar_controls (w : Widgets) : Page (list (string * bool)) :=
  _ <~ emit (Header "Options") ;;
  _ <~ emit (Input "Preview Raw Data") ;;
  ret [("show_raw", show_raw w)].

(** [controls.get(key)], read as a condition: a missing key is false. *)
Fixpoint dict_get (d : list (string * bool)) (key : string) : bool :=
  match d with
  | [] => false
  | (k, v) :: d' => if String.eqb k key then v else dict_get d' key
  end.

(** [str(n)] inside an f-string. *)
Definition str_int (n : Z) : string := NilZero.string_of_int (Z.to_int n).

(** [int(df["year"].min()), int(df["year"].max())] (line 124): the minimum
    of no year is a missing value, which [int] refuses. *)
Definition year_bounds (df : DataFrame) : Page (Z * Z) :=
  _ <~ pandas (column df "year") ;;
  match map year (records df) with
  | [] => raise ValueError
  | y :: ys => ret (fold_left Z.min ys y, fold_left Z.max ys y)
  end.

Definition tab_genre_pie (df : DataFrame) (w : Widgets) : Page unit :=
  _ <~ emit (Subheader "Q1: How popular are the different genres?") ;;
  _ <~ emit (Caption "Pie chart showing count of ratings per genre.") ;;
  _ <~ emit (Input "Combine small genres into 'Other' if below (%)") ;;
  table <~ pandas (genre_distribution df (w_min_pct w)) ;;
  emit (Pie "Genre Distribution of Movie Ratings" table).

Definition tab_genre_bars (argsort : list Q -> list nat) (df : DataFrame)
    (w : Widgets) : Page unit :=
  _ <~ emit (Subheader "Q2: Which genres get the highest ratings?") ;;
  _ <~ emit (Caption "Bar chart of mean ratings per genre.") ;;
  _ <~ emit (Columns 2) ;;
  _ <~ emit (Input "Min ratings per genre") ;;
  _ <~ emit (Input "Sort ratings") ;;
  table <~ pandas (genre_rating argsort df (w_min_ratings w) (w_sort_order w)) ;;
  emit (Bars "Average Ratings by Genre" table).

Definition tab_year_line (df : DataFrame) (w : Widgets) : Page unit :=
  _ <~ emit (Subheader "Q3: How do ratings change over years?") ;;
  _ <~ emit (Caption "Line chart of average rating per release year.") ;;
  bounds <~ year_bounds df ;;
  year_range <~ eval (w_year_range w (fst bounds) (snd bounds)) ;;
  _ <~ emit (Input "Select Year Range") ;;
  _ <~ emit (Input "Min ratings per year") ;;
  _ <~ emit (Input "Smoothing window (years)") ;;
  table <~ pandas (year_trend df year_range (w_min_count_year w) (w_smooth_window w)) ;;
  emit (Line "Average Rating Trend by Year" table).

Definition tab_top_movies (df : DataFrame) (w : Widgets) : Page unit :=
  _ <~ emit (Subheader "Q4: Highest Rated Movies") ;;
  _ <~ emit (Caption "Top N movies with minimum number of ratings.") ;;
  _ <~ emit (Columns 2) ;;
  _ <~ emit (Input "Min ratings per movie") ;;
  _ <~ emit (Input "Show Top N Movies") ;;
  table <~ pandas (top_rated df (w_min_movie_ratings w) (w_top_n w)) ;;
  emit (Ranking ("Top " ++ str_int (w_top_n w) ++ " Movies (Min "
                 ++ str_int (w_min_movie_ratings w) ++ " Ratings)")%string
                table).

Definition main (argsort : list Q -> list nat)
    (fs : list string -> option DataFrame) (file : list string) (w : Widgets)
    : Page unit :=
  _ <~ show_header ;;
  match load_data fs file with
  | Raise FileNotFoundError =>
      emit (ErrorMessage
              "Cannot find the data file. Check that movie_ratings.csv exists in the data folder.")
  | Raise e => raise e
  | Value df =>
      controls <~ sidebar_controls w ;;
      _ <~ (if dict_get controls "show_raw"
            then _ <~ emit (Expander "Raw Data Preview (first 50 rows)") ;;
                 emit (RawData (mkDataFrame (columns df) (head 50 (records df))))
            else ret tt) ;;
      _ <~ emit (Tabs ["Q1: Genre Pie Chart"; "Q2: Average Rating by Genre";
                       "Q3: Rating Trend by Year"; "Q4: Top Rated Movies"]) ;;
      _ <~ tab_genre_pie df w ;;
      _ <~ tab_genre_bars argsort df w ;;
      _ <~ tab_year_line df w ;;
      tab_top_movies df w
  end.

(** [@st.cache_data(ttl=3600)] around [load_data] (line 11).  The function
    takes no argument, so the decorator keeps one entry for it: the frame
    of the last call whose body returned, for an hour.  [cache] is what
    the decorator holds when the call is made, [None] when it holds
    nothing or what it held is older than the hour.  A call that finds an
    entry returns it without running the body, so without reading the
    disk; a call that finds none runs the body and keeps the frame it
    returns; an exception of the body is kept nowhere.  The result comes
    with what the decorator holds after the call. *)
Definition cached_load_data (cache : option DataFrame)
    (fs : list string -> option DataFrame) (file : list string)
    : outcome DataFrame * option DataFrame :=
  match cache with
  | Some df => (Value df, Some df)
  | None =>
      match load_data fs file with
      | Value df => (Value df, Some df)
      | Raise e => (Raise e, None)
      end
  end.

(** [main] in a session whose decorator holds [cache] when the script is
    run again: the same page, with the decorated [load_data].  [main]
    above is the run that finds the cache cold. *)
Definition rerun (cache : option DataFrame) (argsort : list Q -> list nat)
    (fs : list string -> option DataFrame) (file : list string) (w : Widgets)
    : Page unit :=
  _ <~ show_header ;;
  match fst (cached_load_data cache fs file) with
  | Raise FileNotFoundError =>
      emit (ErrorMessage
              "Cannot find the data file. Check that movie_ratings.csv exists in the data folder.")
  | Raise e => raise e
  | Value df =>
      controls <~ sidebar_controls w ;;
      _ <~ (if dict_get controls "show_raw"
            then _ <~ emit (Expander "Raw Data Preview (first 50 rows)") ;;
                 emit (RawData (mkDataFrame (columns df) (head 50 (records df))))
            else ret tt) ;;
      _ <~ emit (Tabs ["Q1: Genre Pie Chart"; "Q2: Average Rating by Genre";
                       "Q3: Rating Trend by Year"; "Q4: Top Rated Movies"]) ;;
      _ <~ tab_genre_pie df w ;;
      _ <~ tab_genre_bars argsort df w ;;
      _ <~ tab_year_line df w ;;
      tab_top_movies df w
  end.

Definition is_error_message (e : element) : bool :=
  match e with
  | ErrorMessage _ => true
  | _ => false
  end.

(** What the third tab plots, or what stops it: the bounds of the years,
    the answer of the year slider, then the pipeline. *)
Definition line_table (df : DataFrame) (w : Widgets) : outcome (list YearPoint) :=
  match column df "year" with
  | Err e => Raise (Pandas e)
  | Ok _ =>
      match map year (records df) with
      | [] => Raise ValueError
      | y :: ys =>
          match w_year_range w (fold_left Z.min ys y) (fold_left Z.max ys y) with
          | Raise e => Raise e
          | Value r =>
              match year_trend df r (w_min_count_year w) (w_smooth_window w) with
              | Ok t => Value t
              | Err e => Raise (Pandas e)
              end
          end
      end
  end.

Definition is_raw_data (e : element) : bool :=
  match e with
  | RawData _ => true
  | _ => false
  end.

(** The name of a chart, to tell the four apart. *)
Definition chart_name (e : element) : string :=
  match e with
  | Pie _ _ => "pie"
  | Bars _ _ => "bars"
  | Line _ _ => "line"
  | Ranking _ _ => "ranking"
  | _ => EmptyString
  end.

(** The charts among what was drawn. *)
Definition is_chart (e : element) : bool :=
  match e with
  | Pie _ _ | Bars _ _ | Line _ _ | Ranking _ _ => true
  | _ => false
  end.

Definition charts (p : Page unit) : list element := filter is_chart (fst p).

(* ===================================================================== *)
(** ** Frames to run the pipelines on *)
(* ===================================================================== *)

Definition all_columns : list string :=
  ["movie_id"; "title"; "genres"; "rating"; "year"].

(** The table of the spec's examples: ten ratings of a comedy, two of a
    drama. *)
Definition comedy_drama : DataFrame :=
  mkDataFrame all_columns
    (repeat (mkRating 1 "A" "Comedy" 4 2000) 10
     ++ repeat (mkRating 2 "B" "Drama" 2 2000) 2).

(** Eleven genres with one rating each: every share is 100/11. *)
Definition eleven_genres : DataFrame :=
  mkDataFrame all_columns
    (map (fun g => mkRating 1 "A" g 3 2000)
       ["Action"; "Adventure"; "Animation"; "Comedy"; "Crime"; "Drama";
        "Fantasy"; "Horror"; "Romance"; "Thriller"; "Western"]).

(** Five movies over five years. *)
Definition five_years : DataFrame :=
  mkDataFrame all_columns
    [ mkRating 1 "A" "Comedy" 4 2000; mkRating 1 "A" "Comedy" 5 2000;
      mkRating 2 "B" "Drama"  2 2001; mkRating 2 "B" "Drama"  3 2001;
      mkRating 3 "C" "Action" 4 2002; mkRating 3 "C" "Action" 5 2002;
      mkRating 4 "D" "Comedy" 3 2003; mkRating 4 "D" "Comedy" 1 2003;
      mkRating 5 "E" "Horror" 5 2004; mkRating 5 "E" "Horror" 4 2004;
      mkRating 5 "E" "Horror" 3 2004 ].

(** Two genres with the same mean rating. *)
Definition tied_genres : DataFrame :=
  mkDataFrame all_columns
    [ mkRating 1 "A" "Comedy" 4 2000; mkRating 2 "B" "Drama" 4 2001 ].

(** A file with its header and no line. *)
Definition no_ratings : DataFrame := mkDataFrame all_columns [].

(** Three genres, one of them called "Other". *)
Definition other_genre : DataFrame :=
  mkDataFrame all_columns
    (repeat (mkRating 1 "A" "Other" 4 2000) 6
     ++ repeat (mkRating 2 "B" "Drama" 3 2001) 3
     ++ [mkRating 3 "C" "Western" 5 2002]).

(** Where the script is, the disk that holds one frame at the place the
    script reads, and the widgets as they are before the user touches
    them. *)
Definition app_file : list string :=
  ["home"; "Week-03-EDA-and-Dashboards"; "exercise"; "hamzah_dashboard"; "app.py"].

Definition disk_with (df : DataFrame) (path : list string) : option DataFrame :=
  if list_eq_dec string_dec path
       ["home"; "Week-03-EDA-and-Dashboards"; "data"; "movie_ratings.csv"]
  then Some df
  else None.

Definition empty_disk (path : list string) : option DataFrame := None.

(** The year slider before the user moves it: it answers with the default
    it was given, which is the pair of its bounds (line 125); streamlit
    refuses to draw a slider whose least value is not below its greatest
    and raises instead. *)
Definition default_year_range (lo hi : Z) : outcome (Z * Z) :=
  if lo <? hi then Value (lo, hi) else Raise (WidgetError "Select Year Range").

Definition untouched : Widgets :=
  mkWidgets false 2 50 HighToLow default_year_range 50 1 50 5.

Definition preview_on : Widgets :=
  mkWidgets true 2 1 LowToHigh default_year_range 1 3 1 3.

(** A frame whose file has lost the years. *)
Definition no_year : DataFrame :=
  mkDataFrame ["movie_id"; "title"; "genres"; "rating"] (records five_years).

(** A frame whose file has lost every column but the ratings. *)
Definition ratings_only : DataFrame :=
  mkDataFrame ["rating"] (records five_years).

(** A frame whose file has lost the titles. *)
Definition no_title : DataFrame :=
  mkDataFrame ["movie_id"; "genres"; "rating"; "year"] (records five_years).

(* ===================================================================== *)
(** * Properties *)
(* ===================================================================== *)

(** ** Sums and comparisons *)

Lemma Qlt_bool_iff (x y : Q) : Qlt_bool x y = true <-> (x < y)%Q.
Proof. unfold Qlt_bool, Qlt. apply Z.ltb_lt. Qed.

Lemma Qlt_bool_negb (x y : Q) : Qlt_bool x y = negb (Qle_bool y x).
Proof.
  unfold Qlt_bool, Qle_bool.
  rewrite Z.ltb_antisym. reflexivity.
Qed.

Lemma Zsum_app (l1 l2 : list Z) : Zsum (l1 ++ l2) = Zsum l1 + Zsum l2.
Proof. induction l1 as [|x l1 IH]; simpl; lia. Qed.

Lemma Qsum_app (l1 l2 : list Q) : (Qsum (l1 ++ l2) == Qsum l1 + Qsum l2)%Q.
Proof.
  induction l1 as [|x l1 IH]; simpl.
  - ring.
  - rewrite IH. ring.
Qed.

Lemma Zlen_app {A : Type} (l1 l2 : list A) : Zlen (l1 ++ l2) = Zlen l1 + Zlen l2.
Proof. unfold Zlen. rewrite length_app. lia. Qed.

Lemma Zlen_nonneg {A : Type} (l : list A) : 0 <= Zlen l.
Proof. unfold Zlen. lia. Qed.

Lemma is_empty_false {A : Type} (l : list A) : is_empty l = false <-> l <> [].
Proof. destruct l; simpl; split; congruence. Qed.

(** A filter and its complement split every sum taken over the list. *)
Lemma Zsum_filter_split {A : Type} (f : A -> Z) (p q : A -> bool) (l : list A) :
  (forall x, q x = negb (p x)) ->
  Zsum (map f (filter p l)) + Zsum (map f (filter q l)) = Zsum (map f l).
Proof.
  intros Hq. induction l as [|x l IH]; simpl; [reflexivity|].
  rewrite Hq. destruct (p x); simpl; lia.
Qed.

Lemma Qsum_filter_split {A : Type} (f : A -> Q) (p q : A -> bool) (l : list A) :
  (forall x, q x = negb (p x)) ->
  (Qsum (map f (filter p l)) + Qsum (map f (filter q l)) == Qsum (map f l))%Q.
Proof.
  intros Hq. induction l as [|x l IH]; simpl; [ring|].
  rewrite Hq. destruct (p x); simpl; rewrite <- IH; ring.
Qed.

(** ** What [groupby] returns *)

Section Groupby.
Context {K R : Type} `{Compare K}.

Lemma insert_group_sizes (k : K) (r : R) (gs : list (K * list R)) :
  Zsum (group_sizes (insert_group k r gs)) = Zsum (group_sizes gs) + 1.
Proof.
  unfold group_sizes, Zlen, Zsum.
  induction gs as [|[k' rs] gs IH]; cbn [insert_group].
  - reflexivity.
  - destruct (compare_key k k'); cbn [map fold_right snd].
    + rewrite length_app. cbn [length]. lia.
    + cbn [length]. lia.
    + rewrite IH. lia.
Qed.

Lemma fold_insert_sizes (by_ : R -> K) (rows : list R) (gs : list (K * list R)) :
  Zsum (group_sizes (fold_left (fun gs r => insert_group (by_ r) r gs) rows gs))
  = Zsum (group_sizes gs) + Zlen rows.
Proof.
  revert gs. induction rows as [|r rows IH]; intros gs; simpl.
  - unfold Zlen. simpl. lia.
  - rewrite IH, insert_group_sizes. unfold Zlen. simpl length. lia.
Qed.

(** Every row lands in exactly one group. *)
Lemma groupby_sizes (by_ : R -> K) (rows : list R) :
  Zsum (group_sizes (groupby by_ rows)) = Zlen rows.
Proof. unfold groupby. rewrite fold_insert_sizes. reflexivity. Qed.

Lemma insert_group_nonempty (k : K) (r : R) (gs : list (K * list R)) :
  Forall (fun g => snd g <> []) gs ->
  Forall (fun g => snd g <> []) (insert_group k r gs).
Proof.
  induction 1 as [|[k' rs] gs Hg Hgs IH]; simpl.
  - constructor; [discriminate | constructor].
  - destruct (compare_key k k').
    + constructor; [|assumption]. simpl. destruct rs; discriminate.
    + constructor; [discriminate|]. constructor; assumption.
    + constructor; assumption.
Qed.

(** No group is empty. *)
Lemma groupby_nonempty_groups (by_ : R -> K) (rows : list R) :
  Forall (fun g => snd g <> []) (groupby by_ rows).
Proof.
  unfold groupby.
  assert (G : forall gs, Forall (fun g : K * list R => snd g <> []) gs ->
            Forall (fun g => snd g <> [])
              (fold_left (fun gs r => insert_group (by_ r) r gs) rows gs)).
  { induction rows as [|r rows IH]; intros gs Hgs; simpl; [assumption|].
    apply IH, insert_group_nonempty, Hgs. }
  apply G. constructor.
Qed.

Lemma insert_group_not_nil (k : K) (r : R) (gs : list (K * list R)) :
  insert_group k r gs <> [].
Proof.
  destruct gs as [|[k' rs] gs]; simpl; [discriminate|].
  destruct (compare_key k k'); discriminate.
Qed.

(** A frame with a row has a group. *)
Lemma groupby_not_nil (by_ : R -> K) (rows : list R) :
  rows <> [] -> groupby by_ rows <> [].
Proof.
  intros Hrows Hnil.
  pose proof (groupby_sizes by_ rows) as Hs.
  rewrite Hnil in Hs. simpl in Hs.
  destruct rows; [congruence|]. unfold Zlen in Hs. simpl in Hs. lia.
Qed.

Lemma insert_group_keys (k : K) (r : R) (gs : list (K * list R)) (k0 : K) :
  In k0 (map fst (insert_group k r gs)) -> k0 = k \/ In k0 (map fst gs).
Proof.
  induction gs as [|[k' rs] gs IH]; simpl.
  - intros [E|[]]; auto.
  - destruct (compare_key k k'); simpl; intros Hin.
    + right. exact Hin.
    + destruct Hin as [E|Hin]; auto.
    + destruct Hin as [E|Hin]; auto.
      destruct (IH Hin); auto.
Qed.

(** Every group key is the key of some row. *)
Lemma groupby_keys (by_ : R -> K) (rows : list R) (k : K) :
  In k (map fst (groupby by_ rows)) -> In k (map by_ rows).
Proof.
  unfold groupby.
  assert (G : forall gs,
            In k (map fst (fold_left (fun gs r => insert_group (by_ r) r gs) rows gs)) ->
            In k (map fst gs) \/ In k (map by_ rows)).
  { induction rows as [|r rows IH]; intros gs Hin; simpl in *; [auto|].
    destruct (IH _ Hin) as [Hk|Hk]; [|auto].
    destruct (insert_group_keys _ _ _ _ Hk) as [E|Hk']; auto. }
  intros Hin. destruct (G [] Hin) as [[]|Hk]. exact Hk.
Qed.
End Groupby.

(** ** The key orders are orders *)

#[export] Instance Z_KeyOrd : KeyOrd Z.
Proof.
  split; unfold compare_key, Z_compare.
  - intros a b. apply Z.compare_eq_iff.
  - intros a b. apply Z.compare_antisym.
  - intros a b c. rewrite !Z.compare_lt_iff. lia.
Qed.

#[export] Instance string_KeyOrd : KeyOrd string.
Proof.
  split; unfold compare_key, string_compare.
  - intros a b. apply OrderedTypeEx.String_as_OT.cmp_eq.
  - intros a b. apply OrderedTypeEx.String_as_OT.cmp_antisym.
  - intros a b c Hab Hbc.
    apply OrderedTypeEx.String_as_OT.cmp_lt in Hab, Hbc.
    apply OrderedTypeEx.String_as_OT.cmp_lt.
    eapply OrderedTypeEx.String_as_OT.lt_trans; eassumption.
Qed.

#[export] Instance pair_KeyOrd {A B : Type} `{KeyOrd A} `{KeyOrd B} : KeyOrd (A * B).
Proof.
  split; unfold compare_key, pair_compare.
  - intros [a1 b1] [a2 b2]. cbn [fst snd]. split.
    + destruct (compare_key a1 a2) eqn:Ea; try discriminate.
      intros Eb. apply cmp_eq in Ea, Eb. congruence.
    + intros E. injection E as -> ->.
      rewrite (proj2 (cmp_eq a2 a2) eq_refl). apply cmp_eq. reflexivity.
  - intros [a1 b1] [a2 b2]. cbn [fst snd].
    rewrite (cmp_antisym a1 a2).
    destruct (compare_key a2 a1); cbn [CompOpp]; try reflexivity.
    apply cmp_antisym.
  - intros [a1 b1] [a2 b2] [a3 b3]. cbn [fst snd].
    destruct (compare_key a1 a2) eqn:E12; try discriminate.
    + apply cmp_eq in E12. subst a2.
      destruct (compare_key a1 a3) eqn:E13; try discriminate; try reflexivity.
      apply cmp_lt_trans.
    + intros _.
      destruct (compare_key a2 a3) eqn:E23; try discriminate.
      * apply cmp_eq in E23. subst a3. rewrite E12. reflexivity.
      * intros _. rewrite (cmp_lt_trans _ _ _ E12 E23). reflexivity.
Qed.

(** ** The groups are the rows, sorted out by key *)

Section GroupbySpec.
Context {K R : Type} `{KeyOrd K}.

Lemma key_eqb_eq (a b : K) : key_eqb a b = true <-> a = b.
Proof.
  unfold key_eqb. rewrite <- cmp_eq.
  destruct (compare_key a b); split; congruence.
Qed.

Lemma key_eqb_refl (a : K) : key_eqb a a = true.
Proof. apply key_eqb_eq. reflexivity. Qed.

Lemma cmp_lt_neq (a b : K) : compare_key a b = Lt -> key_eqb b a = false.
Proof.
  intros Hlt. destruct (key_eqb b a) eqn:E; [|reflexivity].
  apply key_eqb_eq in E. subst b.
  rewrite (proj2 (cmp_eq a a) eq_refl) in Hlt. discriminate Hlt.
Qed.

Lemma cmp_gt_lt (a b : K) : compare_key a b = Gt -> compare_key b a = Lt.
Proof. intros Hgt. rewrite cmp_antisym, Hgt. reflexivity. Qed.

(** A key below all the keys has no rows yet. *)
Lemma rows_of_below (k : K) (gs : list (K * list R)) :
  Forall (fun k' => compare_key k k' = Lt) (map fst gs) ->
  rows_of k gs = [].
Proof.
  induction gs as [|[k' rs] gs IH]; cbn [map fst rows_of]; [reflexivity|].
  intros Hall. inversion Hall as [|? ? Hk Hrest]; subst.
  rewrite (cmp_lt_neq _ _ Hk). apply IH, Hrest.
Qed.

Lemma insert_group_ascend (k : K) (r : R) (gs : list (K * list R)) :
  keys_ascend gs -> keys_ascend (insert_group k r gs).
Proof.
  unfold keys_ascend.
  induction gs as [|[k' rs] gs IH]; cbn [insert_group map fst]; intros Hs.
  - constructor; constructor.
  - inversion Hs as [|? ? Hgs Hk']; subst.
    destruct (compare_key k k') eqn:E; cbn [map fst].
    + exact Hs.
    + constructor; [exact Hs|]. constructor; [exact E|].
      eapply Forall_impl; [|exact Hk']. intros k''. apply cmp_lt_trans, E.
    + constructor; [apply IH, Hgs|].
      apply Forall_forall. intros k'' Hin.
      destruct (insert_group_keys _ _ _ _ Hin) as [->|Hin'].
      * apply cmp_gt_lt, E.
      * rewrite Forall_forall in Hk'. apply Hk', Hin'.
Qed.

(** Filing a row adds it to the rows of its key and to no others. *)
Lemma insert_group_rows_of (k k0 : K) (r : R) (gs : list (K * list R)) :
  keys_ascend gs ->
  rows_of k0 (insert_group k r gs)
  = if key_eqb k k0 then rows_of k0 gs ++ [r] else rows_of k0 gs.
Proof.
  unfold keys_ascend.
  induction gs as [|[k' rs] gs IH]; cbn [insert_group map fst]; intros Hs.
  - cbn [rows_of]. destruct (key_eqb k k0); reflexivity.
  - inversion Hs as [|? ? Hgs Hk']; subst.
    destruct (compare_key k k') eqn:E.
    + apply cmp_eq in E. subst k'. cbn [rows_of].
      destruct (key_eqb k k0); reflexivity.
    + cbn [rows_of]. destruct (key_eqb k k0) eqn:Ek; [|reflexivity].
      apply key_eqb_eq in Ek. subst k0.
      rewrite (cmp_lt_neq _ _ E).
      rewrite rows_of_below; [reflexivity|].
      eapply Forall_impl; [|exact Hk']. intros k''. apply cmp_lt_trans, E.
    + cbn [rows_of]. destruct (key_eqb k' k0) eqn:Ek'.
      * apply key_eqb_eq in Ek'. subst k0.
        rewrite (cmp_lt_neq _ _ (cmp_gt_lt _ _ E)). reflexivity.
      * apply IH, Hgs.
Qed.

Lemma fold_insert_ascend (by_ : R -> K) (rows : list R) (gs : list (K * list R)) :
  keys_ascend gs ->
  keys_ascend (fold_left (fun gs r => insert_group (by_ r) r gs) rows gs).
Proof.
  revert gs. induction rows as [|r rows IH]; intros gs Hs; cbn [fold_left];
    [exact Hs|].
  apply IH, insert_group_ascend, Hs.
Qed.

Lemma fold_insert_rows_of (by_ : R -> K) (k0 : K) (rows : list R)
    (gs : list (K * list R)) :
  keys_ascend gs ->
  rows_of k0 (fold_left (fun gs r => insert_group (by_ r) r gs) rows gs)
  = rows_of k0 gs ++ filter (fun r => key_eqb (by_ r) k0) rows.
Proof.
  revert gs. induction rows as [|r rows IH]; intros gs Hs; cbn [fold_left filter].
  - rewrite app_nil_r. reflexivity.
  - rewrite IH by (apply insert_group_ascend, Hs).
    rewrite insert_group_rows_of by exact Hs.
    destruct (key_eqb (by_ r) k0); [|reflexivity].
    rewrite <- app_assoc. reflexivity.
Qed.

(** The groups come in strictly ascending key order: no key twice. *)
Lemma groupby_ascend (by_ : R -> K) (rows : list R) :
  keys_ascend (groupby by_ rows).
Proof. apply fold_insert_ascend. constructor. Qed.

(** The rows filed under a key are the rows of the frame with that key,
    in frame order. *)
Lemma groupby_rows_of (by_ : R -> K) (rows : list R) (k : K) :
  rows_of k (groupby by_ rows) = filter (fun r => key_eqb (by_ r) k) rows.
Proof. unfold groupby. rewrite fold_insert_rows_of by constructor. reflexivity. Qed.

Lemma rows_of_In (k : K) (rs : list R) (gs : list (K * list R)) :
  keys_ascend gs -> In (k, rs) gs -> rows_of k gs = rs.
Proof.
  unfold keys_ascend.
  induction gs as [|[k' rs'] gs IH]; cbn [map fst rows_of]; intros Hs Hin;
    [destruct Hin|].
  inversion Hs as [|? ? Hgs Hk']; subst.
  destruct Hin as [E|Hin].
  - injection E as -> ->. rewrite key_eqb_refl. reflexivity.
  - rewrite Forall_forall in Hk'.
    pose proof (Hk' k (in_map fst _ _ Hin)) as Hlt. cbn [fst] in Hlt.
    unfold key_eqb. rewrite Hlt. apply IH; assumption.
Qed.

(** A group holds exactly the rows of the frame with its key, in frame
    order, and at least one. *)
Lemma groupby_In (by_ : R -> K) (rows : list R) (k : K) (rs : list R) :
  In (k, rs) (groupby by_ rows) ->
  rs = filter (fun r => key_eqb (by_ r) k) rows /\ rs <> [].
Proof.
  intros Hin. split.
  - rewrite <- groupby_rows_of. symmetry.
    apply rows_of_In; [apply groupby_ascend | exact Hin].
  - pose proof (groupby_nonempty_groups by_ rows) as Hne.
    rewrite Forall_forall in Hne. apply (Hne _ Hin).
Qed.

Lemma rows_of_key (k : K) (gs : list (K * list R)) :
  rows_of k gs <> [] -> In k (map fst gs).
Proof.
  induction gs as [|[k' rs] gs IH]; cbn [rows_of map fst]; [congruence|].
  destruct (key_eqb k' k) eqn:E.
  - intros _. left. apply key_eqb_eq, E.
  - intros Hne. right. apply IH, Hne.
Qed.

(** Every row of the frame is in the group of its key. *)
Lemma groupby_complete (by_ : R -> K) (rows : list R) (r : R) :
  In r rows -> In (by_ r) (map fst (groupby by_ rows)).
Proof.
  intros Hin. apply rows_of_key. rewrite groupby_rows_of.
  intros Hnil.
  assert (Hf : In r (filter (fun r' => key_eqb (by_ r') (by_ r)) rows)).
  { apply filter_In. split; [exact Hin | apply key_eqb_refl]. }
  rewrite Hnil in Hf. destruct Hf.
Qed.
End GroupbySpec.

(** ** Q1: genre distribution *)

Lemma column_present (df : DataFrame) (label : string) :
  has_column df label = true -> column df label = Ok tt.
Proof. unfold column. intros ->. reflexivity. Qed.

Lemma column_absent (df : DataFrame) (label : string) :
  has_column df label = false -> column df label = Err (KeyError label).
Proof. unfold column. intros ->. reflexivity. Qed.

Lemma has_column_In (df : DataFrame) (label : string) :
  has_column df label = true <-> In label (columns df).
Proof.
  unfold has_column. rewrite existsb_exists. split.
  - intros [c [Hin Heq]]. apply String.eqb_eq in Heq. subst c. exact Hin.
  - intros Hin. exists label. split; [exact Hin | apply String.eqb_refl].
Qed.

Lemma genre_sizes_total (rows : list Rating) :
  Zsum (map snd (genre_sizes rows)) = Zlen rows.
Proof.
  unfold genre_sizes. rewrite map_map. cbn [snd].
  apply (groupby_sizes genres rows).
Qed.

Lemma genre_counts_count (rows : list Rating) :
  map share_count (genre_counts rows) = map snd (genre_sizes rows).
Proof. unfold genre_counts. rewrite map_map. reflexivity. Qed.

Lemma genre_counts_count_total (rows : list Rating) :
  Zsum (map share_count (genre_counts rows)) = Zlen rows.
Proof. rewrite genre_counts_count. apply genre_sizes_total. Qed.

Lemma Qsum_shares (total : Z) (sizes : list (string * Z)) :
  (Qsum (map (fun g => inject_Z (100 * snd g) / inject_Z total) sizes)
   == inject_Z (100 * Zsum (map snd sizes)) / inject_Z total)%Q.
Proof.
  induction sizes as [|g sizes IH]; cbn [map Qsum Zsum fold_right].
  - rewrite Z.mul_0_r. change (inject_Z 0) with 0%Q. unfold Qdiv. ring.
  - fold (Qsum (map (fun g => inject_Z (100 * snd g) / inject_Z total) sizes))%Q.
    fold (Zsum (map snd sizes)).
    rewrite IH. rewrite Z.mul_add_distr_l, inject_Z_plus.
    unfold Qdiv. ring.
Qed.

(** The shares of the groups of a frame with a row add up to 100. *)
Lemma genre_counts_pct_total (rows : list Rating) :
  rows <> [] -> (Qsum (map share_pct (genre_counts rows)) == 100)%Q.
Proof.
  intros Hrows. unfold genre_counts. rewrite map_map. cbn [share_pct].
  rewrite Qsum_shares, genre_sizes_total.
  assert (Hpos : 0 < Zlen rows).
  { destruct rows; [congruence|]. unfold Zlen. cbn [length]. lia. }
  rewrite inject_Z_mult. field.
  intros Hz. change 0%Q with (inject_Z 0) in Hz.
  apply (proj1 (inject_Z_injective _ _)) in Hz. lia.
Qed.

Lemma minor_complements_major (min_pct : Q) (g : GenreShare) :
  Qlt_bool (share_pct g) min_pct = negb (Qle_bool min_pct (share_pct g)).
Proof. apply Qlt_bool_negb. Qed.

Lemma display_df_cases (min_pct : Q) (rows : list Rating) :
  let gc := genre_counts rows in
  (minor min_pct gc <> [] /\
   display_df min_pct rows = major min_pct gc ++ [other_row (minor min_pct gc)])
  \/ (minor min_pct gc = [] /\ display_df min_pct rows = major min_pct gc).
Proof.
  intros gc. unfold display_df. fold gc.
  destruct (minor min_pct gc) as [|m mn] eqn:E; cbn [is_empty negb].
  - right. split; reflexivity.
  - left. split; [discriminate | reflexivity].
Qed.

Lemma display_df_count_total (min_pct : Q) (rows : list Rating) :
  Zsum (map share_count (display_df min_pct rows))
  = Zsum (map share_count (genre_counts rows)).
Proof.
  pose proof (Zsum_filter_split share_count _ _ (genre_counts rows)
                (minor_complements_major min_pct)) as Hsplit.
  fold (major min_pct (genre_counts rows)) in Hsplit.
  fold (minor min_pct (genre_counts rows)) in Hsplit.
  destruct (display_df_cases min_pct rows) as [[_ ->]|[Hnil ->]].
  - rewrite map_app, Zsum_app. cbn [map other_row share_count Zsum fold_right].
    fold (Zsum (map share_count (minor min_pct (genre_counts rows)))). lia.
  - rewrite Hnil in Hsplit. cbn [map Zsum fold_right] in Hsplit.
    fold (Zsum (map share_count (major min_pct (genre_counts rows)))) in Hsplit. lia.
Qed.

Lemma display_df_pct_total (min_pct : Q) (rows : list Rating) :
  (Qsum (map share_pct (display_df min_pct rows))
   == Qsum (map share_pct (genre_counts rows)))%Q.
Proof.
  pose proof (Qsum_filter_split share_pct _ _ (genre_counts rows)
                (minor_complements_major min_pct)) as Hsplit.
  fold (major min_pct (genre_counts rows)) in Hsplit.
  fold (minor min_pct (genre_counts rows)) in Hsplit.
  destruct (display_df_cases min_pct rows) as [[_ ->]|[Hnil ->]].
  - rewrite map_app, Qsum_app. cbn [map other_row share_pct].
    rewrite <- Hsplit. unfold Qsum at 2. cbn [fold_right]. ring.
  - rewrite Hnil in Hsplit. cbn [map Qsum fold_right] in Hsplit.
    rewrite <- Hsplit. unfold Qsum. ring.
Qed.

Lemma genre_distribution_runs (df : DataFrame) (min_pct : Q) :
  has_column df "genres" = true ->
  genre_distribution df min_pct = Ok (display_df min_pct (records df)).
Proof.
  intros Hcol. unfold genre_distribution.
  rewrite (column_present _ _ Hcol). reflexivity.
Qed.

Lemma genre_counts_not_nil (rows : list Rating) :
  rows <> [] -> genre_counts rows <> [].
Proof.
  intros Hrows Hnil.
  pose proof (genre_counts_count_total rows) as Ht.
  rewrite Hnil in Ht. cbn in Ht.
  destruct rows; [congruence|]. unfold Zlen in Ht. cbn [length] in Ht. lia.
Qed.

Lemma genre_counts_positive (rows : list Rating) :
  Forall (fun g => 0 < share_count g) (genre_counts rows).
Proof.
  unfold genre_counts, genre_sizes. rewrite map_map.
  apply Forall_map. cbn [share_count snd].
  eapply Forall_impl; [|apply (groupby_nonempty_groups genres rows)].
  intros [k rs] Hne. cbn [snd] in *.
  destruct rs; [congruence|]. unfold Zlen. cbn [length]. lia.
Qed.

Lemma genre_counts_labels (rows : list Rating) :
  Forall (fun g => In (share_genres g) (map genres rows)) (genre_counts rows).
Proof.
  apply Forall_forall. intros g Hg.
  apply (groupby_keys genres rows).
  unfold genre_counts, genre_sizes in Hg. rewrite map_map in Hg.
  apply in_map_iff in Hg. destruct Hg as [[k rs] [<- Hin]]. cbn [share_genres fst].
  apply in_map_iff. exists (k, rs). split; [reflexivity | exact Hin].
Qed.

Lemma filter_all {A : Type} (p : A -> bool) (l : list A) :
  Forall (fun x => p x = true) l -> filter p l = l.
Proof.
  induction 1 as [|x l Hx Hl IH]; cbn [filter]; [reflexivity|].
  rewrite Hx, IH. reflexivity.
Qed.

Lemma filter_none {A : Type} (p : A -> bool) (l : list A) :
  Forall (fun x => p x = false) l -> filter p l = [].
Proof.
  induction 1 as [|x l Hx Hl IH]; cbn [filter]; [reflexivity|].
  rewrite Hx, IH. reflexivity.
Qed.

(** C10.  On a frame with a [genres] column the first tab returns a table
    whose counts add up to the number of rows of the frame; when a group
    falls below the threshold the table is the major groups followed by the
    "Other" row, whose count is the number of rows minus the counts of the
    major groups. *)
Theorem genre_distribution_counts_conserved (df : DataFrame) (min_pct : Q) :
  has_column df "genres" = true ->
  exists out,
    genre_distribution df min_pct = Ok out
    /\ Zsum (map share_count out) = Zlen (records df)
    /\ (minor min_pct (genre_counts (records df)) <> [] ->
        exists other,
          out = major min_pct (genre_counts (records df)) ++ [other]
          /\ share_genres other = "Other"
          /\ share_count other
             = Zlen (records df)
               - Zsum (map share_count (major min_pct (genre_counts (records df))))).
Proof.
  intros Hcol. exists (display_df min_pct (records df)).
  split; [apply genre_distribution_runs, Hcol|].
  pose proof (display_df_count_total min_pct (records df)) as Htot.
  rewrite genre_counts_count_total in Htot.
  split; [exact Htot|].
  intros Hminor.
  destruct (display_df_cases min_pct (records df)) as [[_ Hd]|[Hnil _]];
    [|contradiction].
  exists (other_row (minor min_pct (genre_counts (records df)))).
  split; [exact Hd|]. split; [reflexivity|].
  rewrite Hd, map_app, Zsum_app in Htot.
  cbn [map Zsum fold_right] in Htot. lia.
Qed.

Lemma genre_distribution_counts_conserved_witness :
  exists out,
    genre_distribution comedy_drama 20 = Ok out
    /\ Zsum (map share_count out) = Zlen (records comedy_drama)
    /\ (minor 20 (genre_counts (records comedy_drama)) <> [] ->
        exists other,
          out = major 20 (genre_counts (records comedy_drama)) ++ [other]
          /\ share_genres other = "Other"
          /\ share_count other
             = Zlen (records comedy_drama)
               - Zsum (map share_count (major 20 (genre_counts (records comedy_drama))))).
Proof.
  apply (genre_distribution_counts_conserved comedy_drama 20).
  reflexivity.
Defined.

(** In exact arithmetic the percentages of the returned table, the "Other"
    row included when there is one, add up to 100. *)
Lemma exact_shares_add_up (df : DataFrame) (min_pct : Q) :
  has_column df "genres" = true ->
  records df <> [] ->
  exists out,
    genre_distribution df min_pct = Ok out
    /\ (Qsum (map share_pct out) == 100)%Q.
Proof.
  intros Hcol Hrows. exists (display_df min_pct (records df)).
  split; [apply genre_distribution_runs, Hcol|].
  rewrite display_df_pct_total. apply genre_counts_pct_total, Hrows.
Qed.

(** The spec's example: with a threshold of 5 both genres are major. *)
Example comedy_drama_5 :
  genre_distribution comedy_drama 5
  = Ok [ mkGenreShare "Comedy" 10 (1000 # 12); mkGenreShare "Drama" 2 (200 # 12) ].
Proof. reflexivity. Qed.

(** With a threshold of 20 the drama (16.7 percent) is merged into "Other". *)
Example comedy_drama_20 :
  genre_distribution comedy_drama 20
  = Ok [ mkGenreShare "Comedy" 10 (1000 # 12);
         mkGenreShare "Other" 2 (Qsum [200 # 12]) ].
Proof. reflexivity. Qed.

(** ** Lists, positions and sortedness *)

Lemma map_nth_seq {A : Type} (l : list A) (d : A) :
  map (fun i => nth i l d) (seq 0 (length l)) = l.
Proof.
  induction l as [|a l IH]; cbn [length seq map nth]; [reflexivity|].
  rewrite <- seq_shift, map_map. cbn [nth]. rewrite IH. reflexivity.
Qed.

Lemma StronglySorted_app {A : Type} (R : A -> A -> Prop) (l1 l2 : list A) :
  StronglySorted R l1 -> StronglySorted R l2 ->
  (forall x y, In x l1 -> In y l2 -> R x y) ->
  StronglySorted R (l1 ++ l2).
Proof.
  intros H1 H2 H12. induction H1 as [|a l1 Hl1 IH Ha]; cbn [app]; [exact H2|].
  constructor.
  - apply IH. intros x y Hx Hy. apply H12; [right|]; assumption.
  - apply Forall_app. split; [exact Ha|].
    apply Forall_forall. intros y Hy. apply H12; [left; reflexivity | exact Hy].
Qed.

(** Read backwards, a sorted list is sorted for the converse relation. *)
Lemma StronglySorted_rev {A : Type} (R : A -> A -> Prop) (l : list A) :
  StronglySorted R l -> StronglySorted (fun x y => R y x) (rev l).
Proof.
  induction 1 as [|a l Hl IH Ha]; cbn [rev]; [constructor|].
  apply StronglySorted_app.
  - exact IH.
  - constructor; constructor.
  - intros x y Hx [<-|[]]. rewrite Forall_forall in Ha.
    apply Ha, in_rev, Hx.
Qed.

Lemma StronglySorted_firstn {A : Type} (R : A -> A -> Prop) (n : nat) (l : list A) :
  StronglySorted R l -> StronglySorted R (firstn n l).
Proof.
  intros Hl. revert n.
  induction Hl as [|a l Hl IH Ha]; intros [|n]; cbn [firstn]; try constructor.
  - apply IH.
  - rewrite Forall_forall in *. intros x Hx. apply Ha.
    rewrite <- (firstn_skipn n l). apply in_or_app. left. exact Hx.
Qed.

Lemma StronglySorted_map {A B : Type} (f : A -> B) (R : B -> B -> Prop) (l : list A) :
  StronglySorted (fun x y => R (f x) (f y)) l <-> StronglySorted R (map f l).
Proof.
  induction l as [|a l IH]; cbn [map].
  - split; constructor.
  - split; intros H; inversion H as [|? ? Hl Ha]; subst; constructor.
    + apply IH, Hl.
    + apply Forall_map. exact Ha.
    + apply IH, Hl.
    + apply (proj1 (Forall_map f (R (f a)) l)). exact Ha.
Qed.

(** ** The insertion sort behind [lexsort] *)

Section Lexsort.
Context {A : Type} (le : A -> A -> bool).

Lemma insert_by_perm (x : A) (l : list A) :
  Permutation (insert_by le x l) (x :: l).
Proof.
  induction l as [|y l IH]; cbn [insert_by]; [reflexivity|].
  destruct (le x y); [reflexivity|].
  rewrite IH. apply perm_swap.
Qed.

Lemma lexsort_perm (l : list A) : Permutation (lexsort le l) l.
Proof.
  induction l as [|x l IH]; cbn [lexsort fold_right]; [reflexivity|].
  fold (lexsort le l). rewrite insert_by_perm, IH. reflexivity.
Qed.

Lemma lexsort_length (l : list A) : length (lexsort le l) = length l.
Proof. apply Permutation_length, lexsort_perm. Qed.

(** The sort orders the rows by any transitive relation that the test
    [le] decides: [le a b] holds only when [a] may stand before [b], and
    fails only when [b] may stand before [a]. *)
Variable before : A -> A -> Prop.
Hypothesis le_true : forall a b, le a b = true -> before a b.
Hypothesis le_false : forall a b, le a b = false -> before b a.
Hypothesis before_trans : forall a b c, before a b -> before b c -> before a c.

Lemma insert_by_sorted (x : A) (l : list A) :
  StronglySorted before l -> StronglySorted before (insert_by le x l).
Proof.
  induction 1 as [|y l Hl IH Hy]; cbn [insert_by].
  - constructor; constructor.
  - destruct (le x y) eqn:E.
    + constructor; [constructor; assumption|].
      constructor; [apply le_true, E|].
      eapply Forall_impl; [|exact Hy]. intros z Hz.
      eapply before_trans; [apply le_true, E | exact Hz].
    + constructor; [exact IH|].
      eapply Permutation_Forall; [symmetry; apply insert_by_perm|].
      constructor; [apply le_false, E | exact Hy].
Qed.

Lemma lexsort_sorted (l : list A) : StronglySorted before (lexsort le l).
Proof.
  induction l as [|x l IH]; cbn [lexsort fold_right]; [constructor|].
  apply insert_by_sorted, IH.
Qed.
End Lexsort.

(** ** [sort_values] on one column *)

Lemma take_map {A B : Type} (f : A -> B) (indexer : list nat) (l : list A) :
  map f (take indexer l) = take indexer (map f l).
Proof.
  destruct l as [|d l]; cbn [take map]; [reflexivity|].
  rewrite map_map. apply map_ext. intros i.
  symmetry. apply (map_nth f (d :: l) d i).
Qed.

(** With positions inside the list, [take] reads them with [nth]. *)
Lemma take_nth {A : Type} (d : A) (indexer : list nat) (l : list A) :
  (forall i, In i indexer -> (i < length l)%nat) ->
  take indexer l = map (fun i => nth i l d) indexer.
Proof.
  intros Hin. destruct l as [|d0 l]; cbn [take].
  - destruct indexer as [|i indexer]; [reflexivity|].
    specialize (Hin i (or_introl eq_refl)). cbn [length] in Hin. lia.
  - apply map_ext_in. intros i Hi. apply nth_indep, Hin, Hi.
Qed.

Lemma take_perm {A : Type} (indexer : list nat) (l : list A) :
  Permutation indexer (seq 0 (length l)) -> Permutation (take indexer l) l.
Proof.
  intros Hp. destruct l as [|d l]; [reflexivity|].
  unfold take. eapply Permutation_trans.
  - apply Permutation_map, Hp.
  - rewrite map_nth_seq. reflexivity.
Qed.

Section SortValues.
Variable argsort : list Q -> list nat.
Hypothesis argsort_perm : argsort_permutes argsort.

Lemma argsort_in_range (items : list Q) (i : nat) :
  In i (argsort items) -> (i < length items)%nat.
Proof.
  intros Hin. apply (Permutation_in _ (argsort_perm items)) in Hin.
  apply in_seq in Hin. lia.
Qed.

Lemma nargsort_ascending (items : list Q) :
  nargsort argsort items true = argsort items.
Proof.
  unfold nargsort. rewrite <- (map_id (argsort items)) at 2.
  apply map_ext_in. intros i Hi. apply argsort_in_range in Hi.
  rewrite seq_nth by exact Hi. reflexivity.
Qed.

Lemma nargsort_descending (items : list Q) :
  nargsort argsort items false
  = rev (map (fun j => (length items - S j)%nat) (argsort (rev items))).
Proof.
  unfold nargsort. f_equal. apply map_ext_in. intros j Hj.
  apply argsort_in_range in Hj. rewrite length_rev in Hj.
  rewrite rev_nth by (rewrite length_seq; exact Hj).
  rewrite length_seq, seq_nth by lia. reflexivity.
Qed.

Lemma nargsort_perm (items : list Q) (asc : bool) :
  Permutation (nargsort argsort items asc) (seq 0 (length items)).
Proof.
  destruct asc.
  - rewrite nargsort_ascending. apply argsort_perm.
  - unfold nargsort. rewrite <- Permutation_rev.
    rewrite (Permutation_map _ (argsort_perm (rev items))).
    rewrite length_rev.
    rewrite <- (length_seq (length items) 0) at 1.
    rewrite <- (length_rev (seq 0 (length items))).
    rewrite map_nth_seq. symmetry. apply Permutation_rev.
Qed.

(** Sorting rearranges the rows: none is lost, none is made up. *)
Lemma sort_values_perm {A : Type} (by_ : A -> Q) (asc : bool) (l : list A) :
  Permutation (sort_values argsort by_ asc l) l.
Proof.
  unfold sort_values. apply take_perm.
  rewrite <- (length_map by_ l). apply nargsort_perm.
Qed.

Lemma sort_values_length {A : Type} (by_ : A -> Q) (asc : bool) (l : list A) :
  length (sort_values argsort by_ asc l) = length l.
Proof. apply Permutation_length, sort_values_perm. Qed.

Hypothesis argsort_asc : argsort_ascends argsort.

Lemma take_argsort_ascends (items : list Q) :
  StronglySorted Qle (take (argsort items) items).
Proof.
  rewrite (take_nth 0%Q) by apply argsort_in_range.
  apply argsort_asc.
Qed.

Lemma sort_values_ascending {A : Type} (by_ : A -> Q) (l : list A) :
  StronglySorted Qle (map by_ (sort_values argsort by_ true l)).
Proof.
  unfold sort_values. rewrite take_map, nargsort_ascending.
  apply take_argsort_ascends.
Qed.

(** The positions of a descending sort read the values as the ascending
    sort of the reversed values does, backwards. *)
Lemma take_nargsort_descending {A : Type} (d : A) (items : list Q) (l : list A) :
  length l = length items ->
  take (nargsort argsort items false) l
  = rev (take (argsort (rev items)) (rev l)).
Proof.
  intros Hlen. rewrite nargsort_descending.
  rewrite (take_nth d _ (rev l)).
  - rewrite (take_nth d _ l).
    + rewrite map_rev, map_map. f_equal.
      apply map_ext_in. intros j Hj. apply argsort_in_range in Hj.
      rewrite length_rev in Hj. rewrite <- Hlen in *. symmetry. apply rev_nth, Hj.
    + intros i Hi. apply in_rev, in_map_iff in Hi.
      destruct Hi as [j [<- Hj]]. apply argsort_in_range in Hj.
      rewrite length_rev in Hj. lia.
  - intros i Hi. apply argsort_in_range in Hi.
    rewrite length_rev in *. lia.
Qed.

Lemma sort_values_descending {A : Type} (by_ : A -> Q) (l : list A) :
  StronglySorted (fun x y => (y <= x)%Q) (map by_ (sort_values argsort by_ false l)).
Proof.
  unfold sort_values. rewrite take_map.
  rewrite (take_nargsort_descending 0%Q) by reflexivity.
  apply StronglySorted_rev, take_argsort_ascends.
Qed.
End SortValues.

(** ** The insertion [argsort] keeps the promise *)

Lemma map_fst_combine_seq (start : nat) (l : list Q) :
  map fst (combine (seq start (length l)) l) = seq start (length l).
Proof.
  revert start. induction l as [|x l IH]; intros start; cbn [length seq combine map];
    [reflexivity|].
  rewrite IH. reflexivity.
Qed.

Lemma in_combine_seq (start : nat) (l : list Q) (i : nat) (v : Q) :
  In (i, v) (combine (seq start (length l)) l) ->
  (start <= i)%nat /\ nth (i - start) l 0%Q = v.
Proof.
  revert start. induction l as [|x l IH]; intros start; cbn [length seq combine].
  - intros [].
  - intros [E|Hin].
    + injection E as <- <-. rewrite Nat.sub_diag. split; [lia | reflexivity].
    + destruct (IH _ Hin) as [Hle Hn]. split; [lia|].
      replace (i - start)%nat with (S (i - S start)) by lia. exact Hn.
Qed.

Lemma insertion_argsort_permutes : argsort_permutes insertion_argsort.
Proof.
  intros items. unfold insertion_argsort.
  rewrite (Permutation_map fst (lexsort_perm _ _)).
  rewrite map_fst_combine_seq. reflexivity.
Qed.

Lemma insertion_argsort_ascends : argsort_ascends insertion_argsort.
Proof.
  intros items. unfold insertion_argsort. rewrite map_map.
  set (le := fun a b : nat * Q => Qle_bool (snd a) (snd b)).
  rewrite (map_ext_in _ snd).
  - apply (proj1 (StronglySorted_map snd Qle _)).
    apply (lexsort_sorted le).
    + intros a b Hab. apply Qle_bool_iff, Hab.
    + intros a b Hab. unfold le in Hab.
      destruct (Qlt_le_dec (snd a) (snd b)) as [Hlt|Hle]; [|exact Hle].
      apply Qlt_le_weak, Qle_bool_iff in Hlt. congruence.
    + intros a b c. apply Qle_trans.
  - intros [i v] Hin.
    apply (Permutation_in _ (lexsort_perm le _)) in Hin.
    apply in_combine_seq in Hin. destruct Hin as [_ Hn].
    cbn [fst snd]. rewrite Nat.sub_0_r in Hn. exact Hn.
Qed.

(** ** Q2: average rating by genre *)

Lemma genre_rating_runs (argsort : list Q -> list nat) (df : DataFrame)
    (min_ratings : Z) (sort_order : SortOrder) :
  has_column df "genres" = true ->
  has_column df "rating" = true ->
  genre_rating argsort df min_ratings sort_order
  = Ok (sort_values argsort stat_avg_rating (ascending sort_order)
          (filtered min_ratings (records df))).
Proof.
  intros Hg Hr. unfold genre_rating.
  rewrite (column_present _ _ Hg), (column_present _ _ Hr). reflexivity.
Qed.

Lemma filter_length_le {A : Type} (p q : A -> bool) (l : list A) :
  (forall x, p x = true -> q x = true) ->
  (length (filter p l) <= length (filter q l))%nat.
Proof.
  intros Hpq. induction l as [|x l IH]; cbn [filter]; [lia|].
  destruct (p x) eqn:Ep.
  - rewrite (Hpq x Ep). cbn [length]. lia.
  - destruct (q x); cbn [length]; lia.
Qed.

(** C4.  On a frame with the [genres] and [rating] columns, whatever the
    count floor: with the order "High → Low" the mean ratings of the
    returned sequence never increase, with "Low → High" they never
    decrease.  The sort is any routine that returns the positions in
    ascending order of their values. *)
Theorem genre_rating_sorted (argsort : list Q -> list nat)
    (df : DataFrame) (min_ratings : Z) :
  argsort_permutes argsort ->
  argsort_ascends argsort ->
  has_column df "genres" = true ->
  has_column df "rating" = true ->
  (exists out,
     genre_rating argsort df min_ratings HighToLow = Ok out
     /\ StronglySorted (fun x y => (y <= x)%Q) (map stat_avg_rating out))
  /\ (exists out,
        genre_rating argsort df min_ratings LowToHigh = Ok out
        /\ StronglySorted Qle (map stat_avg_rating out)).
Proof.
  intros Hperm Hasc Hg Hr. split; eexists; (split; [apply genre_rating_runs; assumption|]).
  - apply sort_values_descending; assumption.
  - apply sort_values_ascending; assumption.
Qed.

Lemma genre_rating_sorted_witness :
  (exists out,
     genre_rating insertion_argsort five_years 2 HighToLow = Ok out
     /\ StronglySorted (fun x y => (y <= x)%Q) (map stat_avg_rating out))
  /\ (exists out,
        genre_rating insertion_argsort five_years 2 LowToHigh = Ok out
        /\ StronglySorted Qle (map stat_avg_rating out)).
Proof.
  apply (genre_rating_sorted insertion_argsort five_years 2).
  - apply insertion_argsort_permutes.
  - apply insertion_argsort_ascends.
  - reflexivity.
  - reflexivity.
Defined.

(** C5.  On a frame with the [genres] and [rating] columns, for count
    floors [a <= b], the sequence returned with floor [b] is not longer
    than the one returned with floor [a], in either sort order. *)
Theorem genre_rating_filter_monotone (argsort : list Q -> list nat)
    (df : DataFrame) (a b : Z) (order_a order_b : SortOrder) :
  argsort_permutes argsort ->
  has_column df "genres" = true ->
  has_column df "rating" = true ->
  a <= b ->
  exists out_a out_b,
    genre_rating argsort df a order_a = Ok out_a
    /\ genre_rating argsort df b order_b = Ok out_b
    /\ (length out_b <= length out_a)%nat.
Proof.
  intros Hperm Hg Hr Hab. do 2 eexists.
  split; [apply genre_rating_runs; assumption|].
  split; [apply genre_rating_runs; assumption|].
  rewrite !sort_values_length by exact Hperm.
  unfold filtered. apply filter_length_le.
  intros s Hs. apply Z.leb_le in Hs. apply Z.leb_le. lia.
Qed.

Lemma genre_rating_filter_monotone_witness :
  exists out_a out_b,
    genre_rating insertion_argsort comedy_drama 0 HighToLow = Ok out_a
    /\ genre_rating insertion_argsort comedy_drama 5 HighToLow = Ok out_b
    /\ (length out_b <= length out_a)%nat.
Proof.
  apply (genre_rating_filter_monotone insertion_argsort comedy_drama 0 5).
  - apply insertion_argsort_permutes.
  - reflexivity.
  - reflexivity.
  - lia.
Defined.

(** The order of the bars on the frame [five_years]. *)
Example five_years_high_to_low :
  exists out,
    genre_rating insertion_argsort five_years 0 HighToLow = Ok out
    /\ map stat_genres out = ["Action"; "Horror"; "Comedy"; "Drama"]
    /\ map stat_num_ratings out = [2; 3; 4; 2].
Proof. eexists. split; [reflexivity|]. split; vm_compute; reflexivity. Qed.

Example five_years_low_to_high :
  exists out,
    genre_rating insertion_argsort five_years 3 LowToHigh = Ok out
    /\ map stat_genres out = ["Comedy"; "Horror"].
Proof. eexists. split; [reflexivity|]. vm_compute. reflexivity. Qed.

(** The spec's example: a floor of 5 keeps the comedy (10 ratings) and
    drops the drama (2 ratings). *)
Example comedy_drama_floor_5 :
  exists out,
    genre_rating insertion_argsort comedy_drama 5 HighToLow = Ok out
    /\ map stat_genres out = ["Comedy"].
Proof. eexists. split; [reflexivity|]. vm_compute. reflexivity. Qed.

(** ** Q3: rating trend by year *)

Lemma year_trend_runs (df : DataFrame) (year_range : Z * Z)
    (min_count_year smooth_window : Z) :
  has_column df "year" = true ->
  has_column df "rating" = true ->
  year_trend df year_range min_count_year smooth_window
  = Ok (smoothed smooth_window
          (year_filtered year_range min_count_year (records df))).
Proof.
  intros Hy Hr. unfold year_trend.
  rewrite (column_present _ _ Hy), (column_present _ _ Hr). reflexivity.
Qed.

(** C6.  On a frame with the [year] and [rating] columns, with a smoothing
    window of 1, whatever the year range and the count floor, the returned
    rows are the filtered years and the smoothed mean of each is its raw
    mean. *)
Theorem year_trend_window_1 (df : DataFrame) (year_range : Z * Z)
    (min_count_year : Z) :
  has_column df "year" = true ->
  has_column df "rating" = true ->
  exists out,
    year_trend df year_range min_count_year 1 = Ok out
    /\ map point_year out
       = map ystat_year (year_filtered year_range min_count_year (records df))
    /\ map point_avg_rating out
       = map ystat_avg_rating (year_filtered year_range min_count_year (records df))
    /\ Forall (fun p => avg_smoothed p = Some (point_avg_rating p)) out.
Proof.
  intros Hy Hr. eexists. split; [apply year_trend_runs; assumption|].
  unfold smoothed. change (1 <? 1) with false. cbn [andb].
  split; [|split].
  - rewrite map_map. reflexivity.
  - rewrite map_map. reflexivity.
  - apply Forall_map, Forall_forall. intros s _. reflexivity.
Qed.

Lemma year_trend_window_1_witness :
  exists out,
    year_trend five_years (2000, 2003) 2 1 = Ok out
    /\ map point_year out
       = map ystat_year (year_filtered (2000, 2003) 2 (records five_years))
    /\ map point_avg_rating out
       = map ystat_avg_rating (year_filtered (2000, 2003) 2 (records five_years))
    /\ Forall (fun p => avg_smoothed p = Some (point_avg_rating p)) out.
Proof.
  apply (year_trend_window_1 five_years (2000, 2003) 2); reflexivity.
Defined.

Lemma Zlen_slice {A : Type} (start end_ : Z) (l : list A) :
  0 <= start <= end_ -> end_ <= Zlen l ->
  Zlen (slice start end_ l) = end_ - start.
Proof.
  unfold slice, Zlen. intros Hs He.
  rewrite length_firstn, length_skipn. lia.
Qed.

Lemma rolling_mean_length (window : Z) (xs : list Q) :
  length (rolling_mean window xs) = length xs.
Proof. unfold rolling_mean. rewrite length_map, length_seq. reflexivity. Qed.

(** The halves of a width: the window reaches [window / 2] positions back
    and [(window - 1) / 2] positions forward. *)
Lemma window_halves (window : Z) :
  window / 2 + (window - 1) / 2 = window - 1.
Proof. Z.div_mod_to_equations. lia. Qed.

(** What [rolling] leaves at position [i]: nothing within [window / 2] of
    the start or [(window - 1) / 2] of the end, and elsewhere the mean of
    the [window] values from [i - window / 2] to [i + (window - 1) / 2]. *)
Lemma rolling_mean_at (window : Z) (xs : list Q) (i : nat) :
  1 < window -> (i < length xs)%nat ->
  nth_error (rolling_mean window xs) i
  = Some (if (Z.of_nat i <? window / 2)
             || (Zlen xs - (window - 1) / 2 <=? Z.of_nat i)
          then None
          else Some (mean (slice (Z.of_nat i - window / 2)
                                 (Z.of_nat i + (window - 1) / 2 + 1) xs))).
Proof.
  intros Hw Hi. unfold rolling_mean.
  rewrite nth_error_map, nth_error_seq.
  destruct (Nat.ltb_spec i (length xs)) as [_|Hge]; [|lia].
  cbn [option_map Nat.add]. f_equal.
  unfold window_bounds, clip. cbn [fst snd].
  pose proof (window_halves window) as Hh.
  assert (Hn : Z.of_nat i < Zlen xs) by (unfold Zlen; lia).
  set (n := Zlen xs) in *. set (back := window / 2) in *.
  set (fwd := (window - 1) / 2) in *.
  assert (Hback : 0 <= back) by (subst back; apply Z.div_pos; lia).
  assert (Hfwd : 0 <= fwd) by (subst fwd; apply Z.div_pos; lia).
  rewrite Zlen_slice by (fold n; lia).
  destruct (Z.ltb_spec (Z.of_nat i) back) as [Hlo|Hlo]; cbn [orb].
  - destruct (Z.ltb_spec (Z.min n (Z.max (Z.of_nat i + 1 + fwd) 0)
                          - Z.min n (Z.max (Z.of_nat i + 1 + fwd - window) 0))
                         window); [reflexivity | lia].
  - destruct (Z.leb_spec (n - fwd) (Z.of_nat i)) as [Hhi|Hhi].
    + destruct (Z.ltb_spec (Z.min n (Z.max (Z.of_nat i + 1 + fwd) 0)
                            - Z.min n (Z.max (Z.of_nat i + 1 + fwd - window) 0))
                           window); [reflexivity | lia].
    + destruct (Z.ltb_spec (Z.min n (Z.max (Z.of_nat i + 1 + fwd) 0)
                            - Z.min n (Z.max (Z.of_nat i + 1 + fwd - window) 0))
                           window); [lia|].
      do 3 f_equal; lia.
Qed.

Lemma nth_error_combine {A B : Type} (l1 : list A) (l2 : list B) (i : nat) :
  nth_error (combine l1 l2) i
  = match nth_error l1 i, nth_error l2 i with
    | Some a, Some b => Some (a, b)
    | _, _ => None
    end.
Proof.
  revert l2 i. induction l1 as [|a l1 IH]; intros [|b l2] [|i];
    cbn [combine nth_error]; try reflexivity.
  - destruct (nth_error l1 i); reflexivity.
  - apply IH.
Qed.

Lemma map_fst_combine {A B : Type} (l1 : list A) (l2 : list B) :
  length l1 = length l2 -> map fst (combine l1 l2) = l1.
Proof.
  revert l2. induction l1 as [|a l1 IH]; intros [|b l2] Hlen;
    cbn [combine map fst]; try reflexivity; try discriminate Hlen.
  rewrite IH; [reflexivity|]. cbn [length] in Hlen. lia.
Qed.

(** Smoothing keeps the rows and their raw means. *)
Lemma smoothed_raw (smooth_window : Z) (yf : list YearStat) :
  map point_avg_rating (smoothed smooth_window yf) = map ystat_avg_rating yf.
Proof.
  unfold smoothed.
  destruct ((1 <? smooth_window) && negb (is_empty yf)).
  - rewrite map_map. cbn [with_smoothed point_avg_rating].
    rewrite <- (map_map fst ystat_avg_rating).
    rewrite map_fst_combine; [reflexivity|].
    rewrite rolling_mean_length, length_map. reflexivity.
  - rewrite map_map. reflexivity.
Qed.

Lemma smoothed_Zlen (smooth_window : Z) (yf : list YearStat) :
  Zlen (smoothed smooth_window yf) = Zlen yf.
Proof.
  unfold Zlen. rewrite <- (length_map point_avg_rating), smoothed_raw, length_map.
  reflexivity.
Qed.

Lemma smoothed_at (smooth_window : Z) (yf : list YearStat) (i : nat) (p : YearPoint) :
  1 < smooth_window ->
  nth_error (smoothed smooth_window yf) i = Some p ->
  avg_smoothed p
  = if (Z.of_nat i <? smooth_window / 2)
       || (Zlen yf - (smooth_window - 1) / 2 <=? Z.of_nat i)
    then None
    else Some (mean (slice (Z.of_nat i - smooth_window / 2)
                           (Z.of_nat i + (smooth_window - 1) / 2 + 1)
                           (map ystat_avg_rating yf))).
Proof.
  intros Hw Hp. unfold smoothed in Hp.
  apply Z.ltb_lt in Hw. rewrite Hw in Hp. apply Z.ltb_lt in Hw.
  destruct yf as [|s0 yf'] eqn:E.
  - destruct i; discriminate Hp.
  - cbn [is_empty negb andb] in Hp. rewrite <- E in *.
    rewrite nth_error_map, nth_error_combine in Hp.
    destruct (nth_error yf i) as [s|] eqn:Es; [|discriminate Hp].
    assert (Hi : (i < length (map ystat_avg_rating yf))%nat).
    { rewrite length_map. apply nth_error_Some. congruence. }
    rewrite (rolling_mean_at _ _ _ Hw Hi) in Hp.
    cbn [option_map] in Hp. injection Hp as <-.
    cbn [with_smoothed avg_smoothed fst snd].
    unfold Zlen. rewrite length_map. reflexivity.
Qed.

(** C7, as the program has it.  On a frame with the [year] and [rating]
    columns, for a window [w > 1]: the returned rows keep the raw means of
    the filtered years; the smoothed value is missing at exactly the first
    [w / 2] and the last [(w - 1) / 2] positions (integer division) and is
    elsewhere the mean of the [w] raw means from position [i - w / 2] to
    position [i + (w - 1) / 2]; for an odd [w] the two margins are both
    [(w - 1) / 2], the centered window. *)
Theorem year_trend_boundary (df : DataFrame) (year_range : Z * Z)
    (min_count_year w : Z) :
  has_column df "year" = true ->
  has_column df "rating" = true ->
  1 < w ->
  exists out,
    year_trend df year_range min_count_year w = Ok out
    /\ map point_avg_rating out
       = map ystat_avg_rating (year_filtered year_range min_count_year (records df))
    /\ smoothed_missing_exactly (w / 2) ((w - 1) / 2) out
    /\ (forall (i : nat) (p : YearPoint),
          nth_error out i = Some p ->
          w / 2 <= Z.of_nat i < Zlen out - (w - 1) / 2 ->
          avg_smoothed p
          = Some (mean (slice (Z.of_nat i - w / 2) (Z.of_nat i + (w - 1) / 2 + 1)
                          (map point_avg_rating out)))
          /\ Zlen (slice (Z.of_nat i - w / 2) (Z.of_nat i + (w - 1) / 2 + 1)
                     (map point_avg_rating out)) = w)
    /\ (Z.odd w = true ->
        smoothed_missing_exactly ((w - 1) / 2) ((w - 1) / 2) out).
Proof.
  intros Hy Hr Hw. eexists. split; [apply year_trend_runs; assumption|].
  set (yf := year_filtered year_range min_count_year (records df)).
  pose proof (window_halves w) as Hh.
  assert (Hback : 0 <= w / 2) by (apply Z.div_pos; lia).
  assert (Hfwd : 0 <= (w - 1) / 2) by (apply Z.div_pos; lia).
  assert (Hmiss : smoothed_missing_exactly (w / 2) ((w - 1) / 2) (smoothed w yf)).
  { intros i p Hp. rewrite (smoothed_at _ _ _ _ Hw Hp), smoothed_Zlen.
    destruct (Z.ltb_spec (Z.of_nat i) (w / 2));
      destruct (Z.leb_spec (Zlen yf - (w - 1) / 2) (Z.of_nat i)); cbn [orb];
      split; try reflexivity; try discriminate; intros; lia. }
  split; [apply smoothed_raw|]. split; [exact Hmiss|]. split.
  - intros i p Hp Hin. rewrite smoothed_Zlen in Hin.
    rewrite (smoothed_at _ _ _ _ Hw Hp), smoothed_raw.
    destruct (Z.ltb_spec (Z.of_nat i) (w / 2)); [lia|].
    destruct (Z.leb_spec (Zlen yf - (w - 1) / 2) (Z.of_nat i)); [lia|].
    split; [reflexivity|].
    rewrite Zlen_slice; [lia | lia |].
    unfold Zlen. rewrite length_map. fold (Zlen yf). lia.
  - intros Hodd.
    assert (E : w / 2 = (w - 1) / 2).
    { apply Z.odd_spec in Hodd. destruct Hodd as [m Hm].
      Z.div_mod_to_equations. lia. }
    rewrite <- E at 1. exact Hmiss.
Qed.

Lemma year_trend_boundary_witness :
  exists out,
    year_trend five_years (2000, 2004) 2 3 = Ok out
    /\ map point_avg_rating out
       = map ystat_avg_rating (year_filtered (2000, 2004) 2 (records five_years))
    /\ smoothed_missing_exactly (3 / 2) ((3 - 1) / 2) out
    /\ (forall (i : nat) (p : YearPoint),
          nth_error out i = Some p ->
          3 / 2 <= Z.of_nat i < Zlen out - (3 - 1) / 2 ->
          avg_smoothed p
          = Some (mean (slice (Z.of_nat i - 3 / 2) (Z.of_nat i + (3 - 1) / 2 + 1)
                          (map point_avg_rating out)))
          /\ Zlen (slice (Z.of_nat i - 3 / 2) (Z.of_nat i + (3 - 1) / 2 + 1)
                     (map point_avg_rating out)) = 3)
    /\ (Z.odd 3 = true ->
        smoothed_missing_exactly ((3 - 1) / 2) ((3 - 1) / 2) out).
Proof.
  apply (year_trend_boundary five_years (2000, 2004) 2 3).
  - reflexivity.
  - reflexivity.
  - lia.
Defined.

(** Five years smoothed over three: the two end years have no value. *)
Example five_years_window_3 :
  exists out,
    year_trend five_years (2000, 2004) 0 3 = Ok out
    /\ map point_year out = [2000; 2001; 2002; 2003; 2004]
    /\ map (fun p => is_empty (match avg_smoothed p with Some v => [v] | None => [] end)) out
       = [true; false; false; false; true].
Proof. eexists. split; [reflexivity|]. split; vm_compute; reflexivity. Qed.

(** Five years smoothed over two: the first year has no value, the last
    year has one. *)
Example five_years_window_2 :
  exists out,
    year_trend five_years (2000, 2004) 0 2 = Ok out
    /\ map (fun p => is_empty (match avg_smoothed p with Some v => [v] | None => [] end)) out
       = [true; false; false; false; false].
Proof. eexists. split; [reflexivity|]. vm_compute. reflexivity. Qed.

(** The boundary as C7 states it fails for an even window: with [w = 2] no
    margin, whatever its width and in particular [(w - 1) / 2], describes
    the missing values at both ends, since the first year has none and the
    last year has one. *)
Lemma year_trend_boundary_even_window :
  exists out,
    year_trend five_years (2000, 2004) 0 2 = Ok out
    /\ ~ smoothed_missing_exactly ((2 - 1) / 2) ((2 - 1) / 2) out
    /\ forall h, ~ smoothed_missing_exactly h h out.
Proof.
  eexists. split; [reflexivity|].
  assert (G : forall h,
             ~ smoothed_missing_exactly h h
                 (smoothed 2 (year_filtered (2000, 2004) 0 (records five_years)))).
  { intros h Hc.
    pose proof (Hc 0%nat _ eq_refl) as H0.
    pose proof (Hc 4%nat _ eq_refl) as H4.
    rewrite smoothed_Zlen in H0, H4.
    change (Zlen (year_filtered (2000, 2004) 0 (records five_years))) with 5 in H0, H4.
    cbn [Z.of_nat] in H0, H4.
    destruct H0 as [H0 _]. destruct H4 as [_ H4].
    specialize (H0 eq_refl).
    assert (Hh : 5 - h <= Z.pos (Pos.of_succ_nat 3)) by lia.
    specialize (H4 (or_intror Hh)). vm_compute in H4. discriminate H4. }
  split; [apply G | exact G].
Qed.

(** ** Q4: top movies *)

Lemma by_rating_then_count_iff (a b : MovieStat) :
  by_rating_then_count a b = true <-> rating_then_count_desc a b.
Proof.
  unfold by_rating_then_count, rating_then_count_desc.
  rewrite orb_true_iff, andb_true_iff, Qlt_bool_iff, Qeq_bool_iff, Z.leb_le.
  reflexivity.
Qed.

Lemma by_rating_then_count_total (a b : MovieStat) :
  by_rating_then_count a b = true \/ by_rating_then_count b a = true.
Proof.
  rewrite !by_rating_then_count_iff. unfold rating_then_count_desc.
  destruct (Q_dec (mstat_avg_rating a) (mstat_avg_rating b)) as [[Hlt|Hgt]|Heq].
  - right. left. exact Hlt.
  - left. left. exact Hgt.
  - destruct (Z.le_ge_cases (mstat_n_ratings a) (mstat_n_ratings b)).
    + right. right. split; [symmetry; exact Heq | assumption].
    + left. right. split; assumption.
Qed.

Lemma by_rating_then_count_trans (a b c : MovieStat) :
  by_rating_then_count a b = true -> by_rating_then_count b c = true ->
  by_rating_then_count a c = true.
Proof.
  rewrite !by_rating_then_count_iff. unfold rating_then_count_desc.
  intros [Hab|[Hab Hnab]] [Hbc|[Hbc Hnbc]].
  - left. lra.
  - left. lra.
  - left. lra.
  - right. split; [lra | lia].
Qed.

Lemma head_length {A : Type} (n : Z) (l : list A) :
  0 <= n -> Zlen (head n l) = Z.min n (Zlen l).
Proof.
  intros Hn. unfold head, Zlen.
  destruct (Z.ltb_spec n 0); [lia|].
  rewrite length_firstn. lia.
Qed.

Lemma top_rated_runs (df : DataFrame) (min_movie_ratings top_n : Z) :
  has_column df "movie_id" = true ->
  has_column df "title" = true ->
  has_column df "rating" = true ->
  top_rated df min_movie_ratings top_n
  = Ok (top_movies min_movie_ratings top_n (records df)).
Proof.
  intros Hm Ht Hr. unfold top_rated.
  rewrite (column_present _ _ Hm), (column_present _ _ Ht), (column_present _ _ Hr).
  reflexivity.
Qed.

(** The three best movies of [five_years]: C and A have the same mean 4.5
    and the same count, E follows with mean 4. *)
Example five_years_top_3 :
  exists out,
    top_rated five_years 2 3 = Ok out
    /\ map mstat_title out = ["A"; "C"; "E"]
    /\ map mstat_n_ratings out = [2; 2; 3].
Proof. eexists. split; [reflexivity|]. split; vm_compute; reflexivity. Qed.

(** Fewer movies pass the floor than [top_n] asks for. *)
Example five_years_top_25 :
  exists out,
    top_rated five_years 3 25 = Ok out /\ map mstat_title out = ["E"].
Proof. eexists. split; [reflexivity|]. vm_compute. reflexivity. Qed.

(** ** A frame without the grouping column *)

Lemma has_column_not_In (df : DataFrame) (label : string) :
  ~ In label (columns df) -> has_column df label = false.
Proof.
  intros Hn. destruct (has_column df label) eqn:E; [|reflexivity].
  exfalso. apply Hn, has_column_In, E.
Qed.

(** C9.  On a frame whose header lacks the grouping column of a tab,
    [genres] for the first two, [year] for the third, [movie_id] or [title]
    for the fourth, the tab's pipeline raises [KeyError] on that column
    whatever its parameters: it returns no table, empty or otherwise. *)
Theorem missing_group_column_raises (argsort : list Q -> list nat)
    (df : DataFrame) :
  (~ In "genres" (columns df) ->
   (forall min_pct, genre_distribution df min_pct = Err (KeyError "genres"))
   /\ (forall min_ratings sort_order,
         genre_rating argsort df min_ratings sort_order = Err (KeyError "genres")))
  /\ (~ In "year" (columns df) ->
      forall year_range min_count_year smooth_window,
        year_trend df year_range min_count_year smooth_window
        = Err (KeyError "year"))
  /\ (~ In "movie_id" (columns df) ->
      forall min_movie_ratings top_n,
        top_rated df min_movie_ratings top_n = Err (KeyError "movie_id"))
  /\ (In "movie_id" (columns df) -> ~ In "title" (columns df) ->
      forall min_movie_ratings top_n,
        top_rated df min_movie_ratings top_n = Err (KeyError "title")).
Proof.
  repeat split.
  - intros min_pct. unfold genre_distribution.
    rewrite column_absent by (apply has_column_not_In; assumption). reflexivity.
  - intros min_ratings sort_order. unfold genre_rating.
    rewrite column_absent by (apply has_column_not_In; assumption). reflexivity.
  - intros Hn year_range min_count_year smooth_window. unfold year_trend.
    rewrite column_absent by (apply has_column_not_In; assumption). reflexivity.
  - intros Hn min_movie_ratings top_n. unfold top_rated.
    rewrite column_absent by (apply has_column_not_In; assumption). reflexivity.
  - intros Hm Hn min_movie_ratings top_n. unfold top_rated.
    rewrite (column_present df "movie_id") by (apply has_column_In; assumption).
    cbn [bind].
    rewrite column_absent by (apply has_column_not_In; assumption). reflexivity.
Qed.

Lemma missing_group_column_raises_witness :
  genre_distribution ratings_only 2 = Err (KeyError "genres")
  /\ genre_rating insertion_argsort ratings_only 50 HighToLow = Err (KeyError "genres")
  /\ year_trend ratings_only (2000, 2004) 50 1 = Err (KeyError "year")
  /\ top_rated ratings_only 50 5 = Err (KeyError "movie_id")
  /\ top_rated no_title 50 5 = Err (KeyError "title").
Proof.
  destruct (missing_group_column_raises insertion_argsort ratings_only)
    as (Hg & Hy & Hm & _).
  destruct (missing_group_column_raises insertion_argsort no_title)
    as (_ & _ & _ & Ht).
  assert (Ng : ~ In "genres" (columns ratings_only))
    by (intros [H|[]]; discriminate H).
  assert (Ny : ~ In "year" (columns ratings_only))
    by (intros [H|[]]; discriminate H).
  assert (Nm : ~ In "movie_id" (columns ratings_only))
    by (intros [H|[]]; discriminate H).
  assert (Im : In "movie_id" (columns no_title)) by (left; reflexivity).
  assert (Nt : ~ In "title" (columns no_title))
    by (intros [H|[H|[H|[H|[]]]]]; discriminate H).
  split; [apply (proj1 (Hg Ng))|].
  split; [apply (proj2 (Hg Ng))|].
  split; [apply (Hy Ny)|].
  split; [apply (Hm Nm) | apply (Ht Im Nt)].
Defined.

(** ** Q2: equal mean ratings

    [sort_values] is called without [kind], so the order of groups with
    equal means is what numpy's default routine leaves.  The promise of
    [argsort] does not settle it: a stable routine keeps the grouped order
    in both directions, and another routine that keeps the same promise
    does not. *)

Lemma insert_by_filter {A : Type} (key : A -> Q) (v : Q) (x : A) (l : list A) :
  filter (fun a => Qeq_bool (key a) v)
    (insert_by (fun a b => Qle_bool (key a) (key b)) x l)
  = filter (fun a => Qeq_bool (key a) v) (x :: l).
Proof.
  induction l as [|y l IH]; cbn [insert_by]; [reflexivity|].
  destruct (Qle_bool (key x) (key y)) eqn:E; [reflexivity|].
  cbn [filter] in *. rewrite IH.
  destruct (Qeq_bool (key x) v) eqn:Ex; [|reflexivity].
  destruct (Qeq_bool (key y) v) eqn:Ey; [|reflexivity].
  exfalso. apply Qeq_bool_iff in Ex, Ey.
  assert (Hle : (key x <= key y)%Q) by lra.
  apply Qle_bool_iff in Hle. congruence.
Qed.

(** The insertion sort keeps rows with equal keys in their order. *)
Lemma lexsort_keeps_ties {A : Type} (key : A -> Q) (l : list A) :
  keeps_ties key l (lexsort (fun a b => Qle_bool (key a) (key b)) l).
Proof.
  intros v. induction l as [|x l IH]; cbn [lexsort fold_right]; [reflexivity|].
  rewrite insert_by_filter. cbn [filter].
  fold (lexsort (fun a b => Qle_bool (key a) (key b)) l). rewrite IH.
  reflexivity.
Qed.

Lemma insertion_argsort_stable : argsort_stable insertion_argsort.
Proof.
  intros items v. unfold insertion_argsort.
  set (le := fun a b : nat * Q => Qle_bool (snd a) (snd b)).
  set (pairs := combine (seq 0 (length items)) items).
  assert (Hsnd : forall l, (forall p, In p l -> In p pairs) ->
            filter (fun i => Qeq_bool (nth i items 0%Q) v) (map fst l)
            = map fst (filter (fun p => Qeq_bool (snd p) v) l)).
  { intros l Hl. rewrite filter_map_swap. f_equal.
    apply filter_ext_in. intros [i x] Hin. cbn [fst snd].
    apply Hl, in_combine_seq in Hin. destruct Hin as [_ Hn].
    rewrite Nat.sub_0_r in Hn. rewrite Hn. reflexivity. }
  rewrite Hsnd.
  - subst le. rewrite (lexsort_keeps_ties snd pairs v).
    rewrite <- Hsnd by auto.
    unfold pairs. rewrite map_fst_combine_seq. reflexivity.
  - intros p. apply Permutation_in, lexsort_perm.
Qed.

Lemma backward_argsort_permutes : argsort_permutes backward_argsort.
Proof.
  intros items. unfold backward_argsort.
  rewrite (Permutation_map fst (lexsort_perm _ _)).
  rewrite map_fst_combine_seq. reflexivity.
Qed.

Lemma backward_argsort_ascends : argsort_ascends backward_argsort.
Proof.
  intros items. unfold backward_argsort. rewrite map_map.
  set (lt := fun a b : nat * Q => Qlt_bool (snd a) (snd b)).
  rewrite (map_ext_in _ snd).
  - apply (proj1 (StronglySorted_map snd Qle _)).
    apply (lexsort_sorted lt).
    + intros a b Hab. apply Qlt_le_weak, Qlt_bool_iff, Hab.
    + intros a b Hab. unfold lt in Hab.
      destruct (Qlt_le_dec (snd a) (snd b)) as [Hlt|Hle]; [|exact Hle].
      apply Qlt_bool_iff in Hlt. congruence.
    + intros a b c. apply Qle_trans.
  - intros [i v] Hin.
    apply (Permutation_in _ (lexsort_perm lt _)) in Hin.
    apply in_combine_seq in Hin. destruct Hin as [_ Hn].
    cbn [fst snd]. rewrite Nat.sub_0_r in Hn. exact Hn.
Qed.

Section Ties.
Variable argsort : list Q -> list nat.
Hypothesis argsort_perm : argsort_permutes argsort.
Hypothesis argsort_keeps : argsort_stable argsort.

Lemma take_argsort_keeps_ties {A : Type} (by_ : A -> Q) (l : list A) :
  keeps_ties by_ l (take (argsort (map by_ l)) l).
Proof.
  intros v. destruct l as [|d l'] eqn:El; [reflexivity|]. rewrite <- El.
  assert (Hkey : forall i, (i < length l)%nat ->
            Qeq_bool (by_ (nth i l d)) v
            = Qeq_bool (nth i (map by_ l) 0%Q) v).
  { intros i Hi. rewrite (nth_indep _ 0%Q (by_ d)) by (rewrite length_map; exact Hi).
    rewrite map_nth. reflexivity. }
  rewrite (take_nth d).
  - rewrite filter_map_swap.
    rewrite (filter_ext_in _ (fun i => Qeq_bool (nth i (map by_ l) 0%Q) v)).
    + rewrite argsort_keeps, length_map.
      rewrite <- (filter_ext_in (fun i => Qeq_bool (by_ (nth i l d)) v)).
      * rewrite <- (filter_map_swap (fun x => Qeq_bool (by_ x) v) (fun i => nth i l d)).
        rewrite map_nth_seq. reflexivity.
      * intros i Hi. apply in_seq in Hi. apply Hkey. lia.
    + intros i Hi. apply (argsort_in_range _ argsort_perm) in Hi.
      rewrite length_map in Hi. apply Hkey, Hi.
  - intros i Hi. apply (argsort_in_range _ argsort_perm) in Hi.
    rewrite length_map in Hi. exact Hi.
Qed.

(** With a stable routine, [sort_values] keeps rows with equal values in
    their order, ascending and descending. *)
Lemma sort_values_keeps_ties {A : Type} (by_ : A -> Q) (asc : bool) (l : list A) :
  keeps_ties by_ l (sort_values argsort by_ asc l).
Proof.
  unfold sort_values. destruct asc.
  - rewrite (nargsort_ascending _ argsort_perm). apply take_argsort_keeps_ties.
  - intros v. destruct l as [|d l'] eqn:El; [reflexivity|]. rewrite <- El.
    rewrite (take_nargsort_descending _ argsort_perm d)
      by (rewrite length_map; reflexivity).
    rewrite filter_rev, <- map_rev.
    rewrite (take_argsort_keeps_ties by_ (rev l) v).
    rewrite filter_rev, rev_involutive. reflexivity.
Qed.
End Ties.

(** The tied genres come out in grouped order with the stable routine, in
    both directions. *)
Example tied_genres_stable :
  exists up down,
    genre_rating insertion_argsort tied_genres 0 LowToHigh = Ok up
    /\ genre_rating insertion_argsort tied_genres 0 HighToLow = Ok down
    /\ map stat_genres (filtered 0 (records tied_genres)) = ["Comedy"; "Drama"]
    /\ map stat_genres up = ["Comedy"; "Drama"]
    /\ map stat_genres down = ["Comedy"; "Drama"].
Proof.
  do 2 eexists. split; [reflexivity|]. split; [reflexivity|].
  repeat split; vm_compute; reflexivity.
Qed.

(** They come out in the opposite order with the other routine, which
    keeps the promise of [argsort] as well. *)
Example tied_genres_backward :
  exists up down,
    genre_rating backward_argsort tied_genres 0 LowToHigh = Ok up
    /\ genre_rating backward_argsort tied_genres 0 HighToLow = Ok down
    /\ map stat_genres up = ["Drama"; "Comedy"]
    /\ map stat_genres down = ["Drama"; "Comedy"].
Proof.
  do 2 eexists. split; [reflexivity|]. split; [reflexivity|].
  repeat split; vm_compute; reflexivity.
Qed.

(** ** The statistics of a group are those of its rows *)

(** A row of [genre_stats] stands for the ratings of one genre of the
    frame: their number and their mean. *)
Lemma genre_stats_In (rows : list Rating) (s : GenreStat) :
  In s (genre_stats rows) ->
  let rs := filter (fun r => key_eqb (genres r) (stat_genres s)) rows in
  rs <> []
  /\ stat_num_ratings s = Zlen rs
  /\ stat_avg_rating s = mean (map rating rs).
Proof.
  unfold genre_stats. intros Hin. apply in_map_iff in Hin.
  destruct Hin as [[k rs] [<- Hin]]. cbn [stat_genres stat_num_ratings stat_avg_rating fst snd].
  destruct (groupby_In genres rows k rs Hin) as [E Hne].
  rewrite <- E. repeat split. exact Hne.
Qed.

(** A row of [movie_stats] stands for the ratings of one (movie_id, title)
    pair of the frame. *)
Lemma movie_stats_In (rows : list Rating) (s : MovieStat) :
  In s (movie_stats rows) ->
  let rs := filter (fun r => key_eqb (movie_id r, title r)
                               (mstat_movie_id s, mstat_title s)) rows in
  rs <> []
  /\ mstat_n_ratings s = Zlen rs
  /\ mstat_avg_rating s = mean (map rating rs).
Proof.
  unfold movie_stats. intros Hin. apply in_map_iff in Hin.
  destruct Hin as [[[m t] rs] [<- Hin]].
  cbn [mstat_movie_id mstat_title mstat_n_ratings mstat_avg_rating fst snd].
  destruct (groupby_In (fun r => (movie_id r, title r)) rows (m, t) rs Hin) as [E Hne].
  rewrite <- E. repeat split. exact Hne.
Qed.

(** No (movie_id, title) pair has two rows in [movie_stats]. *)
Lemma movie_stats_keys (rows : list Rating) :
  StronglySorted (fun a b => compare_key a b = Lt)
    (map (fun s => (mstat_movie_id s, mstat_title s)) (movie_stats rows)).
Proof.
  unfold movie_stats. rewrite map_map.
  rewrite (map_ext _ fst) by (intros [[m t] rs]; reflexivity).
  apply (groupby_ascend (fun r => (movie_id r, title r)) rows).
Qed.

(** The years of [year_stats] ascend, so the filtered sequence that is
    smoothed is in year order. *)
Lemma year_stats_ascend (rows : list Rating) :
  StronglySorted Z.lt (map ystat_year (year_stats rows)).
Proof.
  unfold year_stats. rewrite map_map.
  rewrite (map_ext _ fst) by (intros [y rs]; reflexivity).
  pose proof (groupby_ascend year rows) as Hs. unfold keys_ascend in Hs.
  induction Hs as [|y ys Hys IH Hy]; constructor; [exact IH|].
  eapply Forall_impl; [|exact Hy]. intros y'. apply Z.compare_lt_iff.
Qed.

(* ===================================================================== *)
(** * Further properties of the four tabs *)
(* ===================================================================== *)

(** ** Q1: what the pie shows *)

Lemma genre_counts_In (rows : list Rating) (g : GenreShare) :
  In g (genre_counts rows) ->
  let rs := filter (fun r => key_eqb (genres r) (share_genres g)) rows in
  rs <> []
  /\ share_count g = Zlen rs
  /\ share_pct g = (inject_Z (100 * Zlen rs) / inject_Z (Zlen rows))%Q.
Proof.
  unfold genre_counts. rewrite genre_sizes_total. unfold genre_sizes.
  rewrite map_map. intros Hin. apply in_map_iff in Hin.
  destruct Hin as [[k rs] [<- Hin]]. cbn [share_genres share_count share_pct fst snd].
  destruct (groupby_In genres rows k rs Hin) as [E Hne].
  rewrite <- E. repeat split. exact Hne.
Qed.

Lemma genre_counts_pct_positive (rows : list Rating) :
  Forall (fun g => (0 < share_pct g)%Q) (genre_counts rows).
Proof.
  apply Forall_forall. intros g Hg.
  destruct (genre_counts_In rows g Hg) as (Hne & _ & ->).
  set (rs := filter (fun r => key_eqb (genres r) (share_genres g)) rows) in *.
  assert (Hrs : 0 < Zlen rs).
  { destruct rs; [congruence|]. unfold Zlen. cbn [length]. lia. }
  assert (Hrows : 0 < Zlen rows).
  { pose proof (filter_length_le (fun r => key_eqb (genres r) (share_genres g))
                  (fun _ => true) rows (fun _ _ => eq_refl)) as Hle.
    rewrite filter_true in Hle. fold rs in Hle. unfold Zlen in *. lia. }
  unfold Qdiv. apply Qmult_lt_0_compat.
  - change 0%Q with (inject_Z 0). rewrite <- Zlt_Qlt. lia.
  - apply Qinv_lt_0_compat. change 0%Q with (inject_Z 0). rewrite <- Zlt_Qlt. lia.
Qed.

Lemma display_df_no_minor (min_pct : Q) (rows : list Rating) :
  Forall (fun g => (min_pct <= share_pct g)%Q) (genre_counts rows) ->
  display_df min_pct rows = genre_counts rows.
Proof.
  intros Hall. unfold display_df, minor, major. cbv zeta.
  rewrite (filter_none _ (genre_counts rows)).
  - cbn [is_empty negb]. apply filter_all.
    eapply Forall_impl; [|exact Hall]. intros g Hg. apply Qle_bool_iff, Hg.
  - eapply Forall_impl; [|exact Hall]. intros g Hg.
    rewrite Qlt_bool_negb. apply negb_false_iff, Qle_bool_iff, Hg.
Qed.

(** X1.  With the threshold at 0, the lowest position of the slider, or
    below, no genre is merged: the table is the table of the groups, and no
    "Other" row is appended, whatever the frame. *)
Theorem zero_threshold_merges_nothing (df : DataFrame) (min_pct : Q) :
  has_column df "genres" = true ->
  (min_pct <= 0)%Q ->
  genre_distribution df min_pct = Ok (genre_counts (records df)).
Proof.
  intros Hcol Hmin. rewrite (genre_distribution_runs _ _ Hcol). f_equal.
  apply display_df_no_minor.
  eapply Forall_impl; [|apply genre_counts_pct_positive].
  intros g Hg. cbn beta in Hg. lra.
Qed.

Lemma zero_threshold_merges_nothing_witness :
  genre_distribution eleven_genres 0 = Ok (genre_counts (records eleven_genres)).
Proof.
  apply (zero_threshold_merges_nothing eleven_genres 0).
  - reflexivity.
  - apply Qle_refl.
Defined.

(** X2.  Every genre of the frame whose share of the rows reaches the
    threshold has its own row in the table, with the number of its rows as
    count and 100 * count / (number of rows) as percentage. *)
Theorem major_genre_has_its_row (df : DataFrame) (min_pct : Q) (r : Rating) :
  has_column df "genres" = true ->
  In r (records df) ->
  let count := Zlen (filter (fun r' => key_eqb (genres r') (genres r)) (records df)) in
  let pct := (inject_Z (100 * count) / inject_Z (Zlen (records df)))%Q in
  (min_pct <= pct)%Q ->
  exists out,
    genre_distribution df min_pct = Ok out
    /\ In (mkGenreShare (genres r) count pct) out.
Proof.
  intros Hcol Hr count pct Hpct. eexists.
  split; [apply genre_distribution_runs, Hcol|].
  assert (Hg : In (mkGenreShare (genres r) count pct) (genre_counts (records df))).
  { pose proof (groupby_complete genres (records df) r Hr) as Hk.
    apply in_map_iff in Hk. destruct Hk as [[k rs] [Ek Hin]]. cbn [fst] in Ek. subst k.
    destruct (groupby_In genres (records df) _ rs Hin) as [E _].
    unfold genre_counts. rewrite genre_sizes_total. unfold genre_sizes.
    rewrite map_map. apply in_map_iff. exists (genres r, rs).
    split; [|exact Hin]. cbn [fst snd]. subst pct count. rewrite <- E. reflexivity. }
  assert (Hmj : In (mkGenreShare (genres r) count pct)
                  (major min_pct (genre_counts (records df)))).
  { apply filter_In. split; [exact Hg|]. apply Qle_bool_iff. exact Hpct. }
  destruct (display_df_cases min_pct (records df)) as [[_ ->]|[_ ->]].
  - apply in_or_app. left. exact Hmj.
  - exact Hmj.
Qed.

Lemma major_genre_has_its_row_witness :
  exists out,
    genre_distribution comedy_drama 20 = Ok out
    /\ In (mkGenreShare "Comedy" 10 (inject_Z (100 * 10) / inject_Z 12)%Q) out.
Proof.
  apply (major_genre_has_its_row comedy_drama 20 (mkRating 1 "A" "Comedy" 4 2000)).
  - reflexivity.
  - left. reflexivity.
  - vm_compute. discriminate.
Defined.

Lemma filter_length_split {A : Type} (p q : A -> bool) (l : list A) :
  (forall x, q x = negb (p x)) ->
  (length (filter p l) + length (filter q l) = length l)%nat.
Proof.
  intros Hq. induction l as [|x l IH]; cbn [filter length]; [reflexivity|].
  rewrite Hq. destruct (p x); cbn [negb length]; lia.
Qed.

Lemma display_df_length (min_pct : Q) (rows : list Rating) :
  length (display_df min_pct rows)
  = (length (major min_pct (genre_counts rows))
     + if is_empty (minor min_pct (genre_counts rows)) then 0 else 1)%nat.
Proof.
  destruct (display_df_cases min_pct rows) as [[Hne ->]|[Hnil ->]].
  - rewrite length_app. cbn [length].
    destruct (minor min_pct (genre_counts rows)); [congruence | reflexivity].
  - rewrite Hnil. cbn [is_empty]. lia.
Qed.

(** X3.  Raising the threshold never adds a slice to the pie: for
    thresholds [a <= b] the table returned with [b] has at most as many
    rows, the "Other" row included, as the table returned with [a]. *)
Theorem raising_threshold_adds_no_slice (df : DataFrame) (a b : Q) :
  has_column df "genres" = true ->
  (a <= b)%Q ->
  exists out_a out_b,
    genre_distribution df a = Ok out_a
    /\ genre_distribution df b = Ok out_b
    /\ (length out_b <= length out_a)%nat.
Proof.
  intros Hcol Hab. do 2 eexists.
  split; [apply genre_distribution_runs, Hcol|].
  split; [apply genre_distribution_runs, Hcol|].
  rewrite !display_df_length.
  set (gc := genre_counts (records df)).
  pose proof (filter_length_split _ _ gc (minor_complements_major a)) as Ha.
  pose proof (filter_length_split _ _ gc (minor_complements_major b)) as Hb.
  fold (major a gc) in Ha. fold (minor a gc) in Ha.
  fold (major b gc) in Hb. fold (minor b gc) in Hb.
  assert (Hmj : (length (major b gc) <= length (major a gc))%nat).
  { apply filter_length_le. intros g Hg.
    apply Qle_bool_iff in Hg. apply Qle_bool_iff. lra. }
  destruct (minor a gc); destruct (minor b gc); cbn [is_empty length] in *; lia.
Qed.

Lemma raising_threshold_adds_no_slice_witness :
  exists out_a out_b,
    genre_distribution five_years 2 = Ok out_a
    /\ genre_distribution five_years 30 = Ok out_b
    /\ (length out_b <= length out_a)%nat.
Proof.
  apply (raising_threshold_adds_no_slice five_years 2 30).
  - reflexivity.
  - vm_compute. discriminate.
Defined.

Lemma keys_ascend_NoDup {K R : Type} `{KeyOrd K} (gs : list (K * list R)) :
  keys_ascend gs -> NoDup (map fst gs).
Proof.
  unfold keys_ascend. induction 1 as [|k ks Hks IH Hk]; constructor; [|exact IH].
  intros Hin. rewrite Forall_forall in Hk. specialize (Hk k Hin).
  rewrite (proj2 (cmp_eq k k) eq_refl) in Hk. discriminate Hk.
Qed.

Lemma genre_counts_labels_NoDup (rows : list Rating) :
  NoDup (map share_genres (genre_counts rows)).
Proof.
  unfold genre_counts, genre_sizes. rewrite !map_map. cbn [share_genres fst].
  apply (keys_ascend_NoDup (groupby genres rows)), groupby_ascend.
Qed.

(** In a list without two elements of the same label, the elements with
    the label of [x] are [x] alone. *)
Lemma filter_label_NoDup {A : Type} (f : A -> string) (l : list A) (x : A) :
  NoDup (map f l) -> In x l ->
  filter (fun y => String.eqb (f y) (f x)) l = [x].
Proof.
  induction l as [|y l IH]; cbn [map filter]; intros Hnd Hin; [destruct Hin|].
  inversion Hnd as [|? ? Hy Hl]; subst.
  destruct Hin as [->|Hin].
  - rewrite String.eqb_refl. f_equal.
    apply filter_none, Forall_forall. intros z Hz.
    apply String.eqb_neq. intros E. apply Hy. rewrite <- E.
    apply in_map, Hz.
  - destruct (String.eqb (f y) (f x)) eqn:E; [|apply IH; assumption].
    apply String.eqb_eq in E. exfalso. apply Hy. rewrite E. apply in_map, Hin.
Qed.

Lemma filter_filter_comm {A : Type} (p q : A -> bool) (l : list A) :
  filter p (filter q l) = filter q (filter p l).
Proof.
  induction l as [|x l IH]; cbn [filter]; [reflexivity|].
  destruct (q x) eqn:Eq; destruct (p x) eqn:Ep; cbn [filter];
    rewrite ?Eq, ?Ep, IH; reflexivity.
Qed.

(** X4.  The label "Other" is not reserved.  When the frame has a genre
    called "Other" whose share reaches the threshold while another genre
    falls below it, the table has two rows labelled "Other": the genre and
    the merged row. *)
Theorem other_genre_and_other_row (df : DataFrame) (min_pct : Q)
    (g small : GenreShare) :
  has_column df "genres" = true ->
  In g (genre_counts (records df)) ->
  share_genres g = "Other" ->
  (min_pct <= share_pct g)%Q ->
  In small (genre_counts (records df)) ->
  (share_pct small < min_pct)%Q ->
  exists out merged,
    genre_distribution df min_pct = Ok out
    /\ filter (fun x => String.eqb (share_genres x) "Other") out = [g; merged]
    /\ share_count merged
       = Zsum (map share_count (minor min_pct (genre_counts (records df)))).
Proof.
  intros Hcol Hg Hlabel Hpct Hsmall Hlt.
  set (gc := genre_counts (records df)) in *.
  exists (display_df min_pct (records df)), (other_row (minor min_pct gc)).
  split; [apply genre_distribution_runs, Hcol|].
  assert (Hmn : minor min_pct gc <> []).
  { intros Hnil.
    assert (Hin : In small (minor min_pct gc)).
    { apply filter_In. split; [exact Hsmall | apply Qlt_bool_iff, Hlt]. }
    rewrite Hnil in Hin. destruct Hin. }
  destruct (display_df_cases min_pct (records df)) as [[_ ->]|[Hnil _]];
    [|contradiction].
  fold gc. rewrite filter_app. cbn [filter other_row share_genres].
  rewrite String.eqb_refl. split; [|reflexivity].
  unfold major. rewrite filter_filter_comm.
  rewrite <- Hlabel.
  rewrite (filter_label_NoDup share_genres gc g (genre_counts_labels_NoDup _) Hg).
  cbn [filter]. rewrite (proj2 (Qle_bool_iff _ _) Hpct). reflexivity.
Qed.

Lemma other_genre_and_other_row_witness :
  exists out merged,
    genre_distribution other_genre 20 = Ok out
    /\ filter (fun x => String.eqb (share_genres x) "Other") out
       = [mkGenreShare "Other" 6 (inject_Z (100 * 6) / inject_Z 10)%Q; merged]
    /\ share_count merged
       = Zsum (map share_count (minor 20 (genre_counts (records other_genre)))).
Proof.
  apply (other_genre_and_other_row other_genre 20
           (mkGenreShare "Other" 6 (inject_Z (100 * 6) / inject_Z 10)%Q)
           (mkGenreShare "Western" 1 (inject_Z (100 * 1) / inject_Z 10)%Q)).
  - reflexivity.
  - vm_compute. tauto.
  - reflexivity.
  - vm_compute. discriminate.
  - vm_compute. tauto.
  - reflexivity.
Defined.

(** ** Means stay within the ratings *)




(** ** Q2: what the bars show *)

(** X5.  The bars are exactly the genres with at least [min_ratings]
    ratings: each returned row is the row of a different genre, carries the
    number and the mean of the ratings of that genre in the frame, and has
    at least [min_ratings] of them; and every genre of the frame with that
    many ratings is returned.  The sort loses and invents nothing. *)
Theorem genre_rating_rows (argsort : list Q -> list nat) (df : DataFrame)
    (min_ratings : Z) (sort_order : SortOrder) :
  argsort_permutes argsort ->
  has_column df "genres" = true ->
  has_column df "rating" = true ->
  exists out,
    genre_rating argsort df min_ratings sort_order = Ok out
    /\ NoDup (map stat_genres out)
    /\ (forall s, In s out ->
          let rs := filter (fun r => key_eqb (genres r) (stat_genres s)) (records df) in
          stat_num_ratings s = Zlen rs
          /\ stat_avg_rating s = mean (map rating rs)
          /\ min_ratings <= Zlen rs)
    /\ (forall r, In r (records df) ->
          min_ratings
          <= Zlen (filter (fun r' => key_eqb (genres r') (genres r)) (records df)) ->
          In (genres r) (map stat_genres out)).
Proof.
  intros Hperm Hg Hr. eexists. split; [apply genre_rating_runs; assumption|].
  set (rows := records df).
  pose proof (sort_values_perm argsort Hperm stat_avg_rating
                (ascending sort_order) (filtered min_ratings rows)) as Hp.
  split; [|split].
  - apply (Permutation_NoDup (Permutation_map stat_genres (Permutation_sym Hp))).
    unfold filtered.
    assert (Hnd : NoDup (map stat_genres (genre_stats rows))).
    { unfold genre_stats. rewrite map_map. cbn [stat_genres].
      apply (keys_ascend_NoDup (groupby genres rows)), groupby_ascend. }
    revert Hnd. generalize (genre_stats rows). intros l.
    induction l as [|s l IH]; cbn [map filter]; intros Hnd; [constructor|].
    inversion Hnd as [|? ? Hs Hl]; subst.
    destruct (min_ratings <=? stat_num_ratings s); [|apply IH, Hl].
    cbn [map]. constructor; [|apply IH, Hl].
    intros Hin. apply Hs. apply in_map_iff in Hin. destruct Hin as [s' [E Hin]].
    apply filter_In in Hin. rewrite <- E. apply in_map, Hin.
  - intros s Hs. apply (Permutation_in _ Hp) in Hs.
    apply filter_In in Hs. destruct Hs as [Hs Hfloor].
    destruct (genre_stats_In rows s Hs) as (_ & Hn & Hm). cbv zeta.
    rewrite <- Hn. split; [reflexivity|]. split; [exact Hm|].
    apply Z.leb_le, Hfloor.
  - intros r Hin Hfloor.
    pose proof (groupby_complete genres rows r Hin) as Hk.
    apply in_map_iff in Hk. destruct Hk as [[k rs] [Ek Hgrp]]. cbn [fst] in Ek. subst k.
    destruct (groupby_In genres rows _ rs Hgrp) as [E _].
    apply in_map_iff.
    exists (mkGenreStat (genres r) (mean (map rating rs)) (Zlen rs)).
    split; [reflexivity|].
    apply (Permutation_in _ (Permutation_sym Hp)), filter_In. split.
    + unfold genre_stats. apply in_map_iff. exists (genres r, rs).
      split; [reflexivity | exact Hgrp].
    + cbn [stat_num_ratings]. apply Z.leb_le. rewrite E. exact Hfloor.
Qed.

Lemma genre_rating_rows_witness :
  exists out,
    genre_rating insertion_argsort five_years 3 HighToLow = Ok out
    /\ NoDup (map stat_genres out)
    /\ (forall s, In s out ->
          let rs := filter (fun r => key_eqb (genres r) (stat_genres s))
                      (records five_years) in
          stat_num_ratings s = Zlen rs
          /\ stat_avg_rating s = mean (map rating rs)
          /\ 3 <= Zlen rs)
    /\ (forall r, In r (records five_years) ->
          3 <= Zlen (filter (fun r' => key_eqb (genres r') (genres r))
                       (records five_years)) ->
          In (genres r) (map stat_genres out)).
Proof.
  apply (genre_rating_rows insertion_argsort five_years 3 HighToLow).
  - apply insertion_argsort_permutes.
  - reflexivity.
  - reflexivity.
Defined.



(** X7.  The two ends of the count floor.  With a floor of 1 or less every
    genre of the frame is returned; with a floor above the number of rows
    of the frame nothing is returned. *)
Theorem genre_rating_floor_ends (argsort : list Q -> list nat)
    (df : DataFrame) (min_ratings : Z) (sort_order : SortOrder) :
  argsort_permutes argsort ->
  has_column df "genres" = true ->
  has_column df "rating" = true ->
  exists out,
    genre_rating argsort df min_ratings sort_order = Ok out
    /\ (min_ratings <= 1 -> Permutation out (genre_stats (records df)))
    /\ (Zlen (records df) < min_ratings -> out = []).
Proof.
  intros Hperm Hg Hr. eexists. split; [apply genre_rating_runs; assumption|].
  pose proof (sort_values_perm argsort Hperm stat_avg_rating
                (ascending sort_order) (filtered min_ratings (records df))) as Hp.
  assert (Hcount : Forall (fun s => 1 <= stat_num_ratings s <= Zlen (records df))
                     (genre_stats (records df))).
  { apply Forall_forall. intros s Hs.
    destruct (genre_stats_In _ s Hs) as (Hne & -> & _).
    set (p := fun r => key_eqb (genres r) (stat_genres s)) in *.
    pose proof (filter_length_le p (fun _ => true) (records df) (fun _ _ => eq_refl)) as Hle.
    rewrite filter_true in Hle. unfold Zlen.
    destruct (filter p (records df)); [congruence|]. cbn [length] in *. lia. }
  split.
  - intros Hlow. rewrite Hp. unfold filtered. rewrite filter_all; [reflexivity|].
    eapply Forall_impl; [|exact Hcount]. intros s Hs. apply Z.leb_le. cbn beta in Hs. lia.
  - intros Hhigh.
    assert (E : filtered min_ratings (records df) = []).
    { unfold filtered. apply filter_none.
      eapply Forall_impl; [|exact Hcount]. intros s Hs. apply Z.leb_gt.
      cbn beta in Hs. lia. }
    rewrite E. reflexivity.
Qed.

Lemma genre_rating_floor_ends_witness :
  (exists out,
     genre_rating insertion_argsort five_years 1 HighToLow = Ok out
     /\ Permutation out (genre_stats (records five_years)))
  /\ genre_rating insertion_argsort five_years 12 HighToLow = Ok [].
Proof.
  split.
  - destruct (genre_rating_floor_ends insertion_argsort five_years 1 HighToLow
                insertion_argsort_permutes eq_refl eq_refl) as (out & E & Hlow & _).
    exists out. split; [exact E | apply Hlow; lia].
  - destruct (genre_rating_floor_ends insertion_argsort five_years 12 HighToLow
                insertion_argsort_permutes eq_refl eq_refl) as (out & E & _ & Hhigh).
    rewrite E. f_equal. apply Hhigh. vm_compute. reflexivity.
Defined.

(** ** Q3: what the line shows *)

Lemma year_stats_In (rows : list Rating) (s : YearStat) :
  In s (year_stats rows) ->
  let rs := filter (fun r => key_eqb (year r) (ystat_year s)) rows in
  rs <> []
  /\ ystat_n_ratings s = Zlen rs
  /\ ystat_avg_rating s = mean (map rating rs).
Proof.
  unfold year_stats. intros Hin. apply in_map_iff in Hin.
  destruct Hin as [[y rs] [<- Hin]]. cbn [ystat_year ystat_n_ratings ystat_avg_rating fst snd].
  destruct (groupby_In year rows y rs Hin) as [E Hne].
  rewrite <- E. repeat split. exact Hne.
Qed.

Lemma StronglySorted_filter {A : Type} (R : A -> A -> Prop) (p : A -> bool)
    (l : list A) :
  StronglySorted R l -> StronglySorted R (filter p l).
Proof.
  induction 1 as [|x l Hl IH Hx]; cbn [filter]; [constructor|].
  destruct (p x); [|exact IH]. constructor; [exact IH|].
  rewrite Forall_forall in *. intros y Hy. apply Hx. apply filter_In in Hy. apply Hy.
Qed.

(** Smoothing adds a column and touches nothing else. *)
Lemma smoothed_drop (smooth_window : Z) (yf : list YearStat) :
  map drop_smoothed (smoothed smooth_window yf) = yf.
Proof.
  assert (Hid : forall l : list YearStat,
            map (fun s => mkYearStat (ystat_year s) (ystat_avg_rating s) (ystat_n_ratings s)) l = l).
  { intros l. rewrite <- (map_id l) at 2. apply map_ext. intros [y a n]. reflexivity. }
  unfold smoothed. destruct ((1 <? smooth_window) && negb (is_empty yf)).
  - rewrite map_map. unfold drop_smoothed, with_smoothed. cbn [point_year point_avg_rating point_n_ratings].
    rewrite <- (map_map fst (fun s => mkYearStat (ystat_year s) (ystat_avg_rating s) (ystat_n_ratings s))).
    rewrite map_fst_combine; [apply Hid|].
    rewrite rolling_mean_length, length_map. reflexivity.
  - rewrite map_map. unfold drop_smoothed, with_smoothed. cbn [point_year point_avg_rating point_n_ratings].
    apply Hid.
Qed.

(** X8.  The points of the line are exactly the years of the frame inside
    the range that have at least [min_count_year] ratings: whatever the
    smoothing window, the returned rows are in strictly ascending year
    order, each carries the number and the mean of the ratings of its year,
    lies within the range and reaches the floor; and every year of the
    frame that does so is returned. *)
Theorem year_trend_rows (df : DataFrame) (year_range : Z * Z)
    (min_count_year smooth_window : Z) :
  has_column df "year" = true ->
  has_column df "rating" = true ->
  exists out,
    year_trend df year_range min_count_year smooth_window = Ok out
    /\ StronglySorted Z.lt (map point_year out)
    /\ (forall p, In p out ->
          let rs := filter (fun r => key_eqb (year r) (point_year p)) (records df) in
          fst year_range <= point_year p <= snd year_range
          /\ point_n_ratings p = Zlen rs
          /\ point_avg_rating p = mean (map rating rs)
          /\ min_count_year <= Zlen rs)
    /\ (forall r, In r (records df) ->
          fst year_range <= year r <= snd year_range ->
          min_count_year
          <= Zlen (filter (fun r' => key_eqb (year r') (year r)) (records df)) ->
          In (year r) (map point_year out)).
Proof.
  intros Hy Hr. eexists. split; [apply year_trend_runs; assumption|].
  set (rows := records df).
  set (yf := year_filtered year_range min_count_year rows).
  pose proof (smoothed_drop smooth_window yf) as Hdrop.
  assert (Hyears : map point_year (smoothed smooth_window yf) = map ystat_year yf).
  { rewrite <- Hdrop at 2. rewrite map_map. reflexivity. }
  split; [|split].
  - rewrite Hyears. unfold yf, year_filtered.
    apply (proj1 (StronglySorted_map ystat_year Z.lt _)).
    apply StronglySorted_filter.
    apply (proj2 (StronglySorted_map ystat_year Z.lt _)).
    apply year_stats_ascend.
  - intros p Hp.
    assert (Hs : In (drop_smoothed p) yf).
    { rewrite <- Hdrop. apply in_map, Hp. }
    unfold yf, year_filtered in Hs. apply filter_In in Hs.
    destruct Hs as [Hs Hkeep].
    destruct (year_stats_In rows _ Hs) as (_ & Hn & Hm).
    cbn [drop_smoothed ystat_year ystat_n_ratings ystat_avg_rating] in *.
    apply andb_true_iff in Hkeep. destruct Hkeep as [Hrange Hfloor].
    apply andb_true_iff in Hrange. destruct Hrange as [Hlo Hhi].
    apply Z.leb_le in Hlo, Hhi, Hfloor. cbv zeta.
    rewrite <- Hn. repeat split; try assumption.
  - intros r Hin Hrange Hfloor. rewrite Hyears.
    pose proof (groupby_complete year rows r Hin) as Hk.
    apply in_map_iff in Hk. destruct Hk as [[y rs] [Ek Hgrp]]. cbn [fst] in Ek. subst y.
    destruct (groupby_In year rows _ rs Hgrp) as [E _].
    apply in_map_iff.
    exists (mkYearStat (year r) (mean (map rating rs)) (Zlen rs)).
    split; [reflexivity|].
    unfold yf, year_filtered. apply filter_In. split.
    + unfold year_stats. apply in_map_iff. exists (year r, rs).
      split; [reflexivity | exact Hgrp].
    + cbn [ystat_year ystat_n_ratings]. rewrite E.
      rewrite !andb_true_iff, !Z.leb_le. lia.
Qed.

Lemma year_trend_rows_witness :
  exists out,
    year_trend five_years (2001, 2004) 3 3 = Ok out
    /\ StronglySorted Z.lt (map point_year out)
    /\ (forall p, In p out ->
          let rs := filter (fun r => key_eqb (year r) (point_year p))
                      (records five_years) in
          fst (2001, 2004) <= point_year p <= snd (2001, 2004)
          /\ point_n_ratings p = Zlen rs
          /\ point_avg_rating p = mean (map rating rs)
          /\ 3 <= Zlen rs)
    /\ (forall r, In r (records five_years) ->
          fst (2001, 2004) <= year r <= snd (2001, 2004) ->
          3 <= Zlen (filter (fun r' => key_eqb (year r') (year r))
                       (records five_years)) ->
          In (year r) (map point_year out)).
Proof.
  apply (year_trend_rows five_years (2001, 2004) 3 3); reflexivity.
Defined.

Lemma filter_by_position {A : Type} (p : A -> bool) (l : list A) :
  length (filter p l)
  = length (filter (fun i => match nth_error l i with
                             | Some x => p x
                             | None => false
                             end) (seq 0 (length l))).
Proof.
  induction l as [|x l IH]; [reflexivity|].
  cbn [length seq filter nth_error]. rewrite <- seq_shift, filter_map_swap.
  cbn [nth_error]. destruct (p x); cbn [length]; rewrite length_map, <- IH; reflexivity.
Qed.

(** The positions from [a] up to [b], counted among the first [m]. *)
Lemma count_between (a b : Z) (m : nat) :
  0 <= a ->
  Z.of_nat (length (filter (fun i => negb ((Z.of_nat i <? a) || (b <=? Z.of_nat i)))
                      (seq 0 m)))
  = Z.max 0 (Z.min b (Z.of_nat m) - a).
Proof.
  intros Ha. induction m as [|m IH].
  - cbn [seq filter length]. lia.
  - rewrite seq_S, filter_app, length_app, Nat2Z.inj_add, IH.
    cbn [Nat.add filter].
    destruct (Z.ltb_spec (Z.of_nat m) a); destruct (Z.leb_spec b (Z.of_nat m));
      cbn [orb negb length]; lia.
Qed.

(** X9.  With a window [w > 1] over [n] filtered years the line has
    [n - w + 1] points, and none when the window is wider than the
    sequence: the other years are returned with a missing smoothed value. *)
Theorem year_trend_plotted_points (df : DataFrame) (year_range : Z * Z)
    (min_count_year w : Z) :
  has_column df "year" = true ->
  has_column df "rating" = true ->
  1 < w ->
  exists out,
    year_trend df year_range min_count_year w = Ok out
    /\ Zlen out = Zlen (year_filtered year_range min_count_year (records df))
    /\ Zlen (filter is_plotted out) = Z.max 0 (Zlen out - w + 1)
    /\ (Zlen out < w -> Forall (fun p => avg_smoothed p = None) out).
Proof.
  intros Hy Hr Hw. eexists. split; [apply year_trend_runs; assumption|].
  set (yf := year_filtered year_range min_count_year (records df)).
  set (out := smoothed w yf).
  pose proof (window_halves w) as Hh.
  assert (Hback : 0 <= w / 2) by (apply Z.div_pos; lia).
  assert (Hfwd : 0 <= (w - 1) / 2) by (apply Z.div_pos; lia).
  assert (Hat : forall i p, nth_error out i = Some p ->
            is_plotted p
            = negb ((Z.of_nat i <? w / 2) || (Zlen out - (w - 1) / 2 <=? Z.of_nat i))).
  { intros i p Hp. unfold is_plotted, out.
    rewrite (smoothed_at _ _ _ _ Hw Hp), smoothed_Zlen.
    destruct ((Z.of_nat i <? w / 2) || (Zlen yf - (w - 1) / 2 <=? Z.of_nat i));
      reflexivity. }
  split; [apply smoothed_Zlen|]. split.
  - unfold Zlen at 1. rewrite filter_by_position.
    rewrite (filter_ext_in _
               (fun i => negb ((Z.of_nat i <? w / 2)
                               || (Zlen out - (w - 1) / 2 <=? Z.of_nat i)))).
    + rewrite count_between by exact Hback. fold (Zlen out). lia.
    + intros i Hi. apply in_seq in Hi.
      destruct (nth_error out i) as [p|] eqn:E.
      * apply Hat, E.
      * apply nth_error_None in E. lia.
  - intros Hshort. apply Forall_forall. intros p Hp.
    apply In_nth_error in Hp. destruct Hp as [i Hi].
    pose proof (Hat i p Hi) as Hpl.
    assert (Hlt : (i < length out)%nat) by (apply nth_error_Some; congruence).
    unfold Zlen in Hshort, Hpl.
    destruct (Z.ltb_spec (Z.of_nat i) (w / 2));
      destruct (Z.leb_spec (Z.of_nat (length out) - (w - 1) / 2) (Z.of_nat i));
      cbn [orb negb] in Hpl; try lia;
      unfold is_plotted in Hpl; destruct (avg_smoothed p); congruence.
Qed.

Lemma year_trend_plotted_points_witness :
  (exists out,
     year_trend five_years (2000, 2004) 2 4 = Ok out
     /\ Zlen out = Zlen (year_filtered (2000, 2004) 2 (records five_years))
     /\ Zlen (filter is_plotted out) = Z.max 0 (Zlen out - 4 + 1)
     /\ (Zlen out < 4 -> Forall (fun p => avg_smoothed p = None) out))
  /\ (exists out,
        year_trend five_years (2000, 2002) 2 9 = Ok out
        /\ Zlen out = 3
        /\ Forall (fun p => avg_smoothed p = None) out).
Proof.
  split.
  - apply (year_trend_plotted_points five_years (2000, 2004) 2 4);
      [reflexivity | reflexivity | lia].
  - destruct (year_trend_plotted_points five_years (2000, 2002) 2 9
                eq_refl eq_refl ltac:(lia)) as (out & E & Hn & _ & Hnone).
    exists out. split; [exact E|]. split; [exact Hn|].
    apply Hnone. rewrite Hn. reflexivity.
Defined.



(** ** Q4: what the ranking shows *)

Lemma head_prefix {A : Type} (n : Z) (l : list A) :
  exists rest, l = head n l ++ rest.
Proof.
  unfold head. destruct (n <? 0).
  - exists (skipn (length l - Z.to_nat (- n)) l). symmetry. apply firstn_skipn.
  - exists (skipn (Z.to_nat n) l). symmetry. apply firstn_skipn.
Qed.

Lemma StronglySorted_app_inv {A : Type} (R : A -> A -> Prop) (l1 l2 : list A) :
  StronglySorted R (l1 ++ l2) ->
  StronglySorted R l1 /\ forall x y, In x l1 -> In y l2 -> R x y.
Proof.
  induction l1 as [|a l1 IH]; cbn [app]; intros Hs.
  - split; [constructor | intros x y []].
  - inversion Hs as [|? ? Hl Ha]; subst. destruct (IH Hl) as [H1 H12].
    apply Forall_app in Ha. destruct Ha as [Ha1 Ha2].
    split; [constructor; assumption|].
    intros x y [<-|Hx] Hy; [|apply H12; assumption].
    rewrite Forall_forall in Ha2. apply Ha2, Hy.
Qed.

Lemma movie_stats_keys_NoDup (rows : list Rating) :
  NoDup (map movie_key (movie_stats rows)).
Proof.
  unfold movie_stats. rewrite map_map.
  rewrite (map_ext _ fst) by (intros [[m t] rs]; reflexivity).
  apply (keys_ascend_NoDup (groupby (fun r => (movie_id r, title r)) rows)).
  apply groupby_ascend.
Qed.

Lemma filter_keeps_distinct_keys {R K : Type} (keep : R -> bool) (key : R -> K)
    (rows : list R) (Hnd : NoDup (map key rows)) :
  NoDup (map key (filter keep rows)).
Proof.
  induction rows as [|x rows IH]; cbn [map filter] in *; [constructor|].
  inversion Hnd as [|? ? Hx Hl]; subst.
  destruct (keep x); [|apply IH, Hl]. cbn [map]. constructor; [|apply IH, Hl].
  intros Hin. apply Hx. apply in_map_iff in Hin. destruct Hin as [y [E Hy]].
  apply filter_In in Hy. rewrite <- E. apply in_map, Hy.
Qed.

Lemma sorted_movies_ordered (min_movie_ratings : Z) (rows : list Rating) :
  StronglySorted rating_then_count_desc
    (lexsort by_rating_then_count (filtered_movies min_movie_ratings rows)).
Proof.
  apply (lexsort_sorted by_rating_then_count).
  - intros a b. apply by_rating_then_count_iff.
  - intros a b Hab. apply by_rating_then_count_iff.
    destruct (by_rating_then_count_total a b); congruence.
  - intros a b c Hab Hbc. rewrite <- by_rating_then_count_iff in *.
    eapply by_rating_then_count_trans; eassumption.
Qed.

(** X11.  Every row of the ranking is the row of a different
    (movie_id, title) pair of the frame, carries the number and the mean of
    the ratings of that pair, and has at least [min_movie_ratings] of
    them. *)
Theorem top_rated_rows (df : DataFrame) (min_movie_ratings top_n : Z) :
  has_column df "movie_id" = true ->
  has_column df "title" = true ->
  has_column df "rating" = true ->
  exists out,
    top_rated df min_movie_ratings top_n = Ok out
    /\ NoDup (map movie_key out)
    /\ (forall s, In s out ->
          let rs := filter (fun r => key_eqb (movie_id r, title r) (movie_key s))
                      (records df) in
          mstat_n_ratings s = Zlen rs
          /\ mstat_avg_rating s = mean (map rating rs)
          /\ min_movie_ratings <= Zlen rs).
Proof.
  intros Hm Ht Hr. eexists. split; [apply top_rated_runs; assumption|].
  unfold top_movies.
  set (fm := filtered_movies min_movie_ratings (records df)).
  destruct (head_prefix top_n (lexsort by_rating_then_count fm)) as [rest Hrest].
  pose proof (lexsort_perm by_rating_then_count fm) as Hp.
  split.
  - assert (Hnd : NoDup (map movie_key (lexsort by_rating_then_count fm))).
    { apply (Permutation_NoDup (Permutation_map movie_key (Permutation_sym Hp))).
      unfold fm, filtered_movies. apply filter_keeps_distinct_keys, movie_stats_keys_NoDup. }
    rewrite Hrest, map_app in Hnd. apply NoDup_app_remove_r in Hnd. exact Hnd.
  - intros s Hs.
    assert (Hin : In s fm).
    { apply (Permutation_in _ Hp). rewrite Hrest. apply in_or_app. left. exact Hs. }
    unfold fm, filtered_movies in Hin. apply filter_In in Hin.
    destruct Hin as [Hin Hfloor].
    destruct (movie_stats_In _ s Hin) as (_ & Hn & Hmean). cbv zeta.
    unfold movie_key. rewrite <- Hn. split; [reflexivity|]. split; [exact Hmean|].
    apply Z.leb_le, Hfloor.
Qed.

Lemma top_rated_rows_witness :
  exists out,
    top_rated five_years 2 3 = Ok out
    /\ NoDup (map movie_key out)
    /\ (forall s, In s out ->
          let rs := filter (fun r => key_eqb (movie_id r, title r) (movie_key s))
                      (records five_years) in
          mstat_n_ratings s = Zlen rs
          /\ mstat_avg_rating s = mean (map rating rs)
          /\ 2 <= Zlen rs).
Proof. apply (top_rated_rows five_years 2 3); reflexivity. Defined.

(** X12.  The ranking keeps the best.  No movie with enough ratings that is
    left out of the ranking comes before a listed movie in the order of the
    sort: every listed movie has a higher mean, or the same mean and at
    least as many ratings. *)
Theorem top_rated_keeps_the_best (df : DataFrame) (min_movie_ratings top_n : Z) :
  has_column df "movie_id" = true ->
  has_column df "title" = true ->
  has_column df "rating" = true ->
  exists out,
    top_rated df min_movie_ratings top_n = Ok out
    /\ forall listed left_out,
         In listed out ->
         In left_out (movie_stats (records df)) ->
         min_movie_ratings <= mstat_n_ratings left_out ->
         ~ In left_out out ->
         rating_then_count_desc listed left_out.
Proof.
  intros Hm Ht Hr. eexists. split; [apply top_rated_runs; assumption|].
  unfold top_movies.
  set (fm := filtered_movies min_movie_ratings (records df)).
  destruct (head_prefix top_n (lexsort by_rating_then_count fm)) as [rest Hrest].
  pose proof (sorted_movies_ordered min_movie_ratings (records df)) as Hs.
  fold fm in Hs. rewrite Hrest in Hs.
  apply StronglySorted_app_inv in Hs. destruct Hs as [_ Hbefore].
  intros listed left_out Hl Hin Hfloor Hout. apply Hbefore; [exact Hl|].
  assert (Hfm : In left_out (lexsort by_rating_then_count fm)).
  { apply (Permutation_in _ (Permutation_sym (lexsort_perm _ fm))).
    unfold fm, filtered_movies. apply filter_In. split; [exact Hin|].
    apply Z.leb_le, Hfloor. }
  rewrite Hrest in Hfm. apply in_app_or in Hfm.
  destruct Hfm as [Hfm|Hfm]; [contradiction | exact Hfm].
Qed.

Lemma top_rated_keeps_the_best_witness :
  exists out,
    top_rated five_years 2 3 = Ok out
    /\ forall listed left_out,
         In listed out ->
         In left_out (movie_stats (records five_years)) ->
         2 <= mstat_n_ratings left_out ->
         ~ In left_out out ->
         rating_then_count_desc listed left_out.
Proof. apply (top_rated_keeps_the_best five_years 2 3); reflexivity. Defined.

(** X13.  Raising [top_n] only appends: for [0 <= a <= b] the ranking for
    [a] is the beginning of the ranking for [b]. *)
Theorem raising_top_n_appends (df : DataFrame) (min_movie_ratings a b : Z) :
  has_column df "movie_id" = true ->
  has_column df "title" = true ->
  has_column df "rating" = true ->
  0 <= a <= b ->
  exists out_a more,
    top_rated df min_movie_ratings a = Ok out_a
    /\ top_rated df min_movie_ratings b = Ok (out_a ++ more).
Proof.
  intros Hm Ht Hr Hab.
  rewrite !top_rated_runs by assumption. unfold top_movies, head.
  destruct (Z.ltb_spec a 0); [lia|]. destruct (Z.ltb_spec b 0); [lia|].
  set (l := lexsort by_rating_then_count
              (filtered_movies min_movie_ratings (records df))).
  exists (firstn (Z.to_nat a) l), (skipn (Z.to_nat a) (firstn (Z.to_nat b) l)).
  split; [reflexivity|]. f_equal.
  rewrite <- (firstn_skipn (Z.to_nat a) (firstn (Z.to_nat b) l)) at 1.
  f_equal. rewrite firstn_firstn. f_equal. lia.
Qed.

Lemma raising_top_n_appends_witness :
  exists out_a more,
    top_rated five_years 2 3 = Ok out_a
    /\ top_rated five_years 2 5 = Ok (out_a ++ more).
Proof.
  apply (raising_top_n_appends five_years 2 3 5); [reflexivity .. | lia].
Defined.

(** The insertion sort keeps the order of rows that its test holds equal. *)
Lemma insert_by_filter_tied {A : Type} (le : A -> A -> bool) (q : A -> bool)
    (x : A) (l : list A) :
  (forall a b, q a = true -> q b = true -> le a b = true) ->
  filter q (insert_by le x l) = filter q (x :: l).
Proof.
  intros Hq. induction l as [|y l IH]; cbn [insert_by]; [reflexivity|].
  destruct (le x y) eqn:E; [reflexivity|].
  cbn [filter] in *. rewrite IH.
  destruct (q x) eqn:Ex; [|reflexivity].
  destruct (q y) eqn:Ey; [|reflexivity].
  rewrite (Hq x y Ex Ey) in E. discriminate E.
Qed.

Lemma lexsort_filter_tied {A : Type} (le : A -> A -> bool) (q : A -> bool)
    (l : list A) :
  (forall a b, q a = true -> q b = true -> le a b = true) ->
  filter q (lexsort le l) = filter q l.
Proof.
  intros Hq. induction l as [|x l IH]; cbn [lexsort fold_right]; [reflexivity|].
  rewrite (insert_by_filter_tied le q x _ Hq). cbn [filter].
  fold (lexsort le l). rewrite IH. reflexivity.
Qed.

Lemma tied_at_before (v : Q) (c : Z) (a b : MovieStat) :
  tied_at v c a = true -> tied_at v c b = true -> by_rating_then_count a b = true.
Proof.
  unfold tied_at. rewrite !andb_true_iff, !Qeq_bool_iff, !Z.eqb_eq.
  intros [Ha Hna] [Hb Hnb]. apply by_rating_then_count_iff. right.
  split; [lra | lia].
Qed.

(** X14.  Ties in the ranking.  Listed movies with the same mean and the
    same number of ratings stand in ascending (movie_id, title) order, the
    order of the groups: the sort on the two columns does not move rows it
    holds equal. *)
Theorem top_rated_ties_in_key_order (df : DataFrame)
    (min_movie_ratings top_n : Z) (v : Q) (c : Z) :
  has_column df "movie_id" = true ->
  has_column df "title" = true ->
  has_column df "rating" = true ->
  exists out,
    top_rated df min_movie_ratings top_n = Ok out
    /\ StronglySorted (fun a b => compare_key a b = Lt)
         (map movie_key (filter (tied_at v c) out)).
Proof.
  intros Hm Ht Hr. eexists. split; [apply top_rated_runs; assumption|].
  unfold top_movies.
  set (fm := filtered_movies min_movie_ratings (records df)).
  destruct (head_prefix top_n (lexsort by_rating_then_count fm)) as [rest Hrest].
  assert (Hs : StronglySorted (fun a b => compare_key a b = Lt)
                 (map movie_key (filter (tied_at v c) (lexsort by_rating_then_count fm)))).
  { rewrite (lexsort_filter_tied _ _ fm (tied_at_before v c)).
    unfold fm, filtered_movies.
    apply (proj1 (StronglySorted_map movie_key (fun a b => compare_key a b = Lt) _)).
    do 2 apply StronglySorted_filter.
    apply (proj2 (StronglySorted_map movie_key (fun a b => compare_key a b = Lt) _)).
    apply movie_stats_keys. }
  rewrite Hrest, filter_app, map_app in Hs at 1.
  apply StronglySorted_app_inv in Hs. apply Hs.
Qed.

Lemma top_rated_ties_in_key_order_witness :
  exists out,
    top_rated five_years 2 3 = Ok out
    /\ StronglySorted (fun a b => compare_key a b = Lt)
         (map movie_key (filter (tied_at (9 # 2) 2) out)).
Proof.
  apply (top_rated_ties_in_key_order five_years 2 3 (9 # 2) 2); reflexivity.
Defined.

(** The two movies of [five_years] tied at mean 4.5 with 2 ratings are both
    listed, A before C. *)
Example five_years_tied_movies :
  exists out,
    top_rated five_years 2 3 = Ok out
    /\ map mstat_title (filter (tied_at (9 # 2) 2) out) = ["A"; "C"].
Proof. eexists. split; [reflexivity|]. vm_compute. reflexivity. Qed.



(* ===================================================================== *)
(** * The page *)
(* ===================================================================== *)

(** ** Where the data file is read *)

(** X16.  The data file is looked up two folders above the folder of the
    script, in [data/movie_ratings.csv], whatever the names of the script
    and of the two folders; a script with fewer than three components
    below the root has no such folder and the lookup raises
    [IndexError]. *)
Theorem data_path_two_folders_up (file : list string) :
  (forall week outer inner script,
      file = week ++ [outer; inner; script] ->
      data_path file = Value (week ++ ["data"; "movie_ratings.csv"]))
  /\ ((length file < 3)%nat -> data_path file = Raise IndexError).
Proof.
  unfold data_path, parents. rewrite nth_error_map, nth_error_seq. split.
  - intros week outer inner script ->. rewrite length_app. cbn [length].
    destruct (Nat.ltb_spec 2 (length week + 3)) as [_|H]; [|lia].
    cbn [option_map Nat.add]. do 2 f_equal.
    replace (length week + 3 - 3)%nat with (length week + 0)%nat by lia.
    rewrite firstn_app_2. cbn [firstn]. apply app_nil_r.
  - intros Hshort. destruct (Nat.ltb_spec 2 (length file)) as [H|_]; [lia|].
    reflexivity.
Qed.

Lemma data_path_two_folders_up_witness :
  data_path app_file
  = Value ["home"; "Week-03-EDA-and-Dashboards"; "data"; "movie_ratings.csv"]
  /\ data_path ["exercise"; "app.py"] = Raise IndexError.
Proof.
  split.
  - apply (proj1 (data_path_two_folders_up app_file)
             ["home"; "Week-03-EDA-and-Dashboards"] "exercise" "hamzah_dashboard" "app.py").
    reflexivity.
  - apply (proj2 (data_path_two_folders_up ["exercise"; "app.py"])).
    cbn [length]. lia.
Defined.

(** ** How [main] runs the tabs *)

(** What a run drew and how it ended, when the tabs are taken as they
    come: their charts follow one another until one raises. *)
Lemma main_with_data (argsort : list Q -> list nat)
    (fs : list string -> option DataFrame) (file : list string) (w : Widgets)
    (df : DataFrame) :
  load_data fs file = Value df ->
  let t1 := tab_genre_pie df w in
  let t2 := tab_genre_bars argsort df w in
  let t3 := tab_year_line df w in
  let t4 := tab_top_movies df w in
  charts (main argsort fs file w)
  = charts (_ <~ t1 ;; _ <~ t2 ;; _ <~ t3 ;; t4)
  /\ snd (main argsort fs file w)
     = snd (_ <~ t1 ;; _ <~ t2 ;; _ <~ t3 ;; t4).
Proof.
  intros Hload. cbv zeta. unfold main. rewrite Hload.
  destruct (tab_genre_pie df w) as [d1 [[]|e1]];
    destruct (tab_genre_bars argsort df w) as [d2 [[]|e2]];
    destruct (tab_year_line df w) as [d3 [[]|e3]];
    destruct (tab_top_movies df w) as [d4 [[]|e4]];
    destruct (show_raw w) eqn:Eraw;
    unfold charts, and_then, show_header, sidebar_controls, emit, ret;
    cbn [fst snd app dict_get String.eqb Ascii.eqb Bool.eqb];
    rewrite ?Eraw; cbn [fst snd app filter is_chart]; split; reflexivity.
Qed.

Lemma tab_genre_pie_run (df : DataFrame) (w : Widgets) :
  charts (tab_genre_pie df w)
  = match genre_distribution df (w_min_pct w) with
    | Ok t => [Pie "Genre Distribution of Movie Ratings" t]
    | Err _ => []
    end
  /\ snd (tab_genre_pie df w)
     = match genre_distribution df (w_min_pct w) with
       | Ok _ => Value tt
       | Err e => Raise (Pandas e)
       end.
Proof.
  unfold tab_genre_pie. destruct (genre_distribution df (w_min_pct w));
    split; reflexivity.
Qed.

Lemma tab_genre_bars_run (argsort : list Q -> list nat) (df : DataFrame)
    (w : Widgets) :
  charts (tab_genre_bars argsort df w)
  = match genre_rating argsort df (w_min_ratings w) (w_sort_order w) with
    | Ok t => [Bars "Average Ratings by Genre" t]
    | Err _ => []
    end
  /\ snd (tab_genre_bars argsort df w)
     = match genre_rating argsort df (w_min_ratings w) (w_sort_order w) with
       | Ok _ => Value tt
       | Err e => Raise (Pandas e)
       end.
Proof.
  unfold tab_genre_bars.
  destruct (genre_rating argsort df (w_min_ratings w) (w_sort_order w));
    split; reflexivity.
Qed.

Lemma tab_year_line_run (df : DataFrame) (w : Widgets) :
  charts (tab_year_line df w)
  = match line_table df w with
    | Value t => [Line "Average Rating Trend by Year" t]
    | Raise _ => []
    end
  /\ snd (tab_year_line df w)
     = match line_table df w with
       | Value _ => Value tt
       | Raise e => Raise e
       end.
Proof.
  unfold tab_year_line, line_table, year_bounds.
  destruct (column df "year") as [[]|e]; [|split; reflexivity].
  destruct (map year (records df)) as [|y ys]; [split; reflexivity|].
  unfold charts, and_then, pandas, eval, emit, ret. cbn [fst snd app].
  destruct (w_year_range w (fold_left Z.min ys y) (fold_left Z.max ys y)) as [r|e];
    [|split; reflexivity].
  cbn [fst snd app].
  destruct (year_trend df r (w_min_count_year w) (w_smooth_window w));
    split; reflexivity.
Qed.

Lemma tab_top_movies_run (df : DataFrame) (w : Widgets) :
  charts (tab_top_movies df w)
  = match top_rated df (w_min_movie_ratings w) (w_top_n w) with
    | Ok t => [Ranking ("Top " ++ str_int (w_top_n w) ++ " Movies (Min "
                        ++ str_int (w_min_movie_ratings w) ++ " Ratings)")%string t]
    | Err _ => []
    end
  /\ snd (tab_top_movies df w)
     = match top_rated df (w_min_movie_ratings w) (w_top_n w) with
       | Ok _ => Value tt
       | Err e => Raise (Pandas e)
       end.
Proof.
  unfold tab_top_movies.
  destruct (top_rated df (w_min_movie_ratings w) (w_top_n w));
    split; reflexivity.
Qed.

Lemma charts_and_then {A : Type} (m : Page A) (k : A -> Page unit) :
  charts (x <~ m ;; k x)
  = filter is_chart (fst m)
    ++ match snd m with
       | Value a => charts (k a)
       | Raise _ => []
       end.
Proof.
  unfold charts, and_then. destruct m as [d [a|e]]; cbn [fst snd].
  - apply filter_app.
  - symmetry. apply app_nil_r.
Qed.

Lemma snd_and_then {A B : Type} (m : Page A) (k : A -> Page B) :
  snd (x <~ m ;; k x)
  = match snd m with
    | Value a => snd (k a)
    | Raise e => Raise e
    end.
Proof. unfold and_then. destruct m as [d [a|e]]; reflexivity. Qed.

(** How far a run got: the charts and the end of the four tabs in a row,
    from what each tab plots or raises. *)
Lemma main_tabs (argsort : list Q -> list nat)
    (fs : list string -> option DataFrame) (file : list string) (w : Widgets)
    (df : DataFrame) :
  load_data fs file = Value df ->
  match genre_distribution df (w_min_pct w) with
  | Err e =>
      charts (main argsort fs file w) = []
      /\ snd (main argsort fs file w) = Raise (Pandas e)
  | Ok t1 =>
      match genre_rating argsort df (w_min_ratings w) (w_sort_order w) with
      | Err e =>
          charts (main argsort fs file w)
          = [Pie "Genre Distribution of Movie Ratings" t1]
          /\ snd (main argsort fs file w) = Raise (Pandas e)
      | Ok t2 =>
          match line_table df w with
          | Raise e =>
              charts (main argsort fs file w)
              = [Pie "Genre Distribution of Movie Ratings" t1;
                 Bars "Average Ratings by Genre" t2]
              /\ snd (main argsort fs file w) = Raise e
          | Value t3 =>
              match top_rated df (w_min_movie_ratings w) (w_top_n w) with
              | Err e =>
                  charts (main argsort fs file w)
                  = [Pie "Genre Distribution of Movie Ratings" t1;
                     Bars "Average Ratings by Genre" t2;
                     Line "Average Rating Trend by Year" t3]
                  /\ snd (main argsort fs file w) = Raise (Pandas e)
              | Ok t4 =>
                  charts (main argsort fs file w)
                  = [Pie "Genre Distribution of Movie Ratings" t1;
                     Bars "Average Ratings by Genre" t2;
                     Line "Average Rating Trend by Year" t3;
                     Ranking ("Top " ++ str_int (w_top_n w) ++ " Movies (Min "
                              ++ str_int (w_min_movie_ratings w)
                              ++ " Ratings)")%string t4]
                  /\ snd (main argsort fs file w) = Value tt
              end
          end
      end
  end.
Proof.
  intros Hload.
  destruct (main_with_data argsort fs file w df Hload) as [Hc Hs].
  rewrite Hc, Hs. clear Hc Hs.
  rewrite !charts_and_then, !snd_and_then.
  destruct (tab_genre_pie_run df w) as [C1 S1].
  destruct (tab_genre_bars_run argsort df w) as [C2 S2].
  destruct (tab_year_line_run df w) as [C3 S3].
  destruct (tab_top_movies_run df w) as [C4 S4].
  fold (charts (tab_genre_pie df w)). rewrite C1, S1.
  destruct (genre_distribution df (w_min_pct w)) as [t1|e1]; [|split; reflexivity].
  rewrite ?charts_and_then, ?snd_and_then. cbn [snd].
  fold (charts (tab_genre_bars argsort df w)). rewrite C2, S2.
  destruct (genre_rating argsort df (w_min_ratings w) (w_sort_order w)) as [t2|e2];
    [|split; reflexivity].
  rewrite ?charts_and_then, ?snd_and_then. cbn [snd].
  fold (charts (tab_year_line df w)). rewrite C3, S3.
  destruct (line_table df w) as [t3|e3]; [|split; reflexivity].
  cbn [snd]. rewrite ?C4, ?S4.
  destruct (top_rated df (w_min_movie_ratings w) (w_top_n w)) as [t4|e4];
    split; reflexivity.
Qed.

(** X17.  The charts are drawn in the order pie, bars, line, ranking, and a
    chart is drawn only when every chart before it was: whatever the disk,
    the frame and the widgets, the charts of a run are a beginning of that
    list, and a run that read the file and ends without an exception has
    drawn all four. *)
Theorem charts_in_tab_order (argsort : list Q -> list nat)
    (fs : list string -> option DataFrame) (file : list string) (w : Widgets) :
  exists k,
    map chart_name (charts (main argsort fs file w))
    = firstn k ["pie"; "bars"; "line"; "ranking"]
    /\ (forall df, load_data fs file = Value df ->
        snd (main argsort fs file w) = Value tt -> k = 4%nat).
Proof.
  destruct (load_data fs file) as [df|e] eqn:Hload.
  - pose proof (main_tabs argsort fs file w df Hload) as H.
    destruct (genre_distribution df (w_min_pct w)) as [t1|e1].
    2:{ exists 0%nat. destruct H as [-> ->]. split; [reflexivity | discriminate]. }
    destruct (genre_rating argsort df (w_min_ratings w) (w_sort_order w)) as [t2|e2].
    2:{ exists 1%nat. destruct H as [-> ->]. split; [reflexivity | discriminate]. }
    destruct (line_table df w) as [t3|e3].
    2:{ exists 2%nat. destruct H as [-> ->]. split; [reflexivity | discriminate]. }
    destruct (top_rated df (w_min_movie_ratings w) (w_top_n w)) as [t4|e4].
    2:{ exists 3%nat. destruct H as [-> ->]. split; [reflexivity | discriminate]. }
    exists 4%nat. destruct H as [-> ->]. split; reflexivity.
  - exists 0%nat. split; [|discriminate].
    unfold main. rewrite Hload. destruct e; reflexivity.
Qed.

Lemma charts_in_tab_order_witness :
  exists k,
    map chart_name
      (charts (main insertion_argsort (disk_with five_years) app_file preview_on))
    = firstn k ["pie"; "bars"; "line"; "ranking"]
    /\ k = 4%nat.
Proof.
  destruct (charts_in_tab_order insertion_argsort (disk_with five_years)
              app_file preview_on) as (k & Hk & Hall).
  exists k. split; [exact Hk|].
  apply (Hall five_years); reflexivity.
Defined.

(** The first run of a session, with nothing in the cache, is [main]. *)
Lemma rerun_cold (argsort : list Q -> list nat)
    (fs : list string -> option DataFrame) (file : list string) (w : Widgets) :
  rerun None argsort fs file w = main argsort fs file w.
Proof.
  unfold rerun, main, cached_load_data.
  destruct (load_data fs file) as [df|e]; reflexivity.
Qed.

(** A run that finds a frame in the cache is the run that reads this frame
    from the disk, whatever the disk holds by now. *)
Lemma rerun_warm (argsort : list Q -> list nat)
    (fs fs0 : list string -> option DataFrame) (file file0 : list string)
    (w : Widgets) (df : DataFrame) :
  load_data fs0 file0 = Value df ->
  rerun (Some df) argsort fs file w = main argsort fs0 file0 w.
Proof.
  intros Hload. unfold rerun, main, cached_load_data. rewrite Hload. reflexivity.
Qed.

Lemma tabs_draw_no_error_message (argsort : list Q -> list nat) (df : DataFrame)
    (w : Widgets) :
  existsb is_error_message
    (fst (_ <~ tab_genre_pie df w ;; _ <~ tab_genre_bars argsort df w ;;
          _ <~ tab_year_line df w ;; tab_top_movies df w)) = false.
Proof.
  assert (H1 : existsb is_error_message (fst (tab_genre_pie df w)) = false).
  { unfold tab_genre_pie. destruct (genre_distribution df (w_min_pct w)); reflexivity. }
  assert (H2 : existsb is_error_message (fst (tab_genre_bars argsort df w)) = false).
  { unfold tab_genre_bars.
    destruct (genre_rating argsort df (w_min_ratings w) (w_sort_order w)); reflexivity. }
  assert (H3 : existsb is_error_message (fst (tab_year_line df w)) = false).
  { unfold tab_year_line, year_bounds.
    destruct (column df "year") as [[]|e]; [|reflexivity].
    destruct (map year (records df)) as [|y ys]; [reflexivity|].
    unfold and_then, pandas, eval, emit, ret. cbn [fst snd app].
    destruct (w_year_range w (fold_left Z.min ys y) (fold_left Z.max ys y)) as [r|e];
      [|reflexivity].
    cbn [fst snd app].
    destruct (year_trend df r (w_min_count_year w) (w_smooth_window w)); reflexivity. }
  assert (H4 : existsb is_error_message (fst (tab_top_movies df w)) = false).
  { unfold tab_top_movies.
    destruct (top_rated df (w_min_movie_ratings w) (w_top_n w)); reflexivity. }
  unfold and_then.
  destruct (tab_genre_pie df w) as [d1 [[]|e1]];
    destruct (tab_genre_bars argsort df w) as [d2 [[]|e2]];
    destruct (tab_year_line df w) as [d3 [[]|e3]];
    destruct (tab_top_movies df w) as [d4 [[]|e4]];
    cbn [fst snd] in *; rewrite ?existsb_app, ?H1, ?H2, ?H3, ?H4; reflexivity.
Qed.

(** Once the frame is loaded the page starts with the header and the
    sidebar, and the message of the missing file is nowhere on it. *)
Lemma main_with_data_no_error_message (argsort : list Q -> list nat)
    (fs : list string -> option DataFrame) (file : list string) (w : Widgets)
    (df : DataFrame) :
  load_data fs file = Value df ->
  firstn 4 (fst (main argsort fs file w))
  = [Title "Hamzah's MovieLens Dashboard";
     Caption "Week 3 — EDA and Interactive Charts";
     Header "Options"; Input "Preview Raw Data"]
  /\ existsb is_error_message (fst (main argsort fs file w)) = false.
Proof.
  intros Hload.
  pose proof (tabs_draw_no_error_message argsort df w) as Htabs.
  unfold main. rewrite Hload.
  destruct (_ <~ tab_genre_pie df w ;; _ <~ tab_genre_bars argsort df w ;;
            _ <~ tab_year_line df w ;; tab_top_movies df w) as [d [[]|e]];
    destruct (show_raw w) eqn:Eraw;
    unfold and_then, show_header, sidebar_controls, emit, ret;
    cbn [fst snd app dict_get String.eqb Ascii.eqb Bool.eqb];
    rewrite ?Eraw; cbn [fst snd app firstn existsb is_error_message orb] in *;
    (split; [reflexivity | exact Htabs]).
Qed.

(** X18.  Only a missing file is reported on the page, and only by a run
    that finds the cache of [load_data] cold.  Such a run, when there is
    no file at the data path, draws the header and the message, no widget
    and no chart, ends without an exception and leaves the cache cold, so
    that the next run looks for the file again; when the data path itself
    cannot be formed, the exception leaves [main] after the header.  A run
    that finds a frame in the cache does not look at the disk: it draws
    the page of the run that loaded this frame, the sidebar after the
    header and no message, even though the file is gone by now, and the
    frame stays in the cache. *)
Theorem main_without_data (argsort : list Q -> list nat)
    (fs : list string -> option DataFrame) (file : list string) (w : Widgets) :
  (forall path, data_path file = Value path -> fs path = None ->
     rerun None argsort fs file w
     = ([Title "Hamzah's MovieLens Dashboard";
         Caption "Week 3 — EDA and Interactive Charts";
         ErrorMessage
           "Cannot find the data file. Check that movie_ratings.csv exists in the data folder."],
        Value tt)
     /\ snd (cached_load_data None fs file) = None)
  /\ ((length file < 3)%nat ->
      rerun None argsort fs file w
      = ([Title "Hamzah's MovieLens Dashboard";
          Caption "Week 3 — EDA and Interactive Charts"],
         Raise IndexError))
  /\ (forall df fs0, load_data fs0 file = Value df ->
      snd (cached_load_data None fs0 file) = Some df
      /\ rerun (Some df) argsort fs file w = main argsort fs0 file w
      /\ firstn 4 (fst (rerun (Some df) argsort fs file w))
         = [Title "Hamzah's MovieLens Dashboard";
            Caption "Week 3 — EDA and Interactive Charts";
            Header "Options"; Input "Preview Raw Data"]
      /\ existsb is_error_message (fst (rerun (Some df) argsort fs file w)) = false
      /\ snd (cached_load_data (Some df) fs file) = Some df).
Proof.
  split; [|split].
  - intros path Hpath Hnone. unfold rerun, cached_load_data, load_data.
    rewrite Hpath, Hnone. split; reflexivity.
  - intros Hshort. unfold rerun, cached_load_data, load_data.
    rewrite (proj2 (data_path_two_folders_up file) Hshort). reflexivity.
  - intros df fs0 Hload.
    split; [unfold cached_load_data; rewrite Hload; reflexivity|].
    rewrite (rerun_warm argsort fs fs0 file file w df Hload).
    split; [reflexivity|].
    destruct (main_with_data_no_error_message argsort fs0 file w df Hload) as [Hhead Hnone].
    split; [exact Hhead|]. split; [exact Hnone | reflexivity].
Qed.

Lemma main_without_data_witness :
  (rerun None insertion_argsort empty_disk app_file untouched
   = ([Title "Hamzah's MovieLens Dashboard";
       Caption "Week 3 — EDA and Interactive Charts";
       ErrorMessage
         "Cannot find the data file. Check that movie_ratings.csv exists in the data folder."],
      Value tt)
   /\ snd (cached_load_data None empty_disk app_file) = None)
  /\ rerun None insertion_argsort empty_disk ["exercise"; "app.py"] untouched
     = ([Title "Hamzah's MovieLens Dashboard";
         Caption "Week 3 — EDA and Interactive Charts"],
        Raise IndexError)
  /\ (snd (cached_load_data None (disk_with five_years) app_file) = Some five_years
      /\ rerun (Some five_years) insertion_argsort empty_disk app_file untouched
         = main insertion_argsort (disk_with five_years) app_file untouched
      /\ firstn 4 (fst (rerun (Some five_years) insertion_argsort empty_disk
                          app_file untouched))
         = [Title "Hamzah's MovieLens Dashboard";
            Caption "Week 3 — EDA and Interactive Charts";
            Header "Options"; Input "Preview Raw Data"]
      /\ existsb is_error_message
           (fst (rerun (Some five_years) insertion_argsort empty_disk
                   app_file untouched)) = false
      /\ snd (cached_load_data (Some five_years) empty_disk app_file)
         = Some five_years).
Proof.
  split; [|split].
  - apply (proj1 (main_without_data insertion_argsort empty_disk app_file untouched)
             ["home"; "Week-03-EDA-and-Dashboards"; "data"; "movie_ratings.csv"]);
      reflexivity.
  - apply (proj1 (proj2 (main_without_data insertion_argsort empty_disk
                           ["exercise"; "app.py"] untouched))).
    cbn [length]. lia.
  - apply (proj2 (proj2 (main_without_data insertion_argsort empty_disk
                           app_file untouched)) five_years (disk_with five_years)).
    reflexivity.
Defined.

(** The file is removed between two runs of a session: the first run
    loads [five_years] and draws four charts, the second finds the disk
    empty and draws the same four charts from the cache; an hour later the
    cache is cold again and the run reports the missing file. *)
Example file_removed_within_the_hour :
  let first := cached_load_data None (disk_with five_years) app_file in
  map chart_name (charts (rerun None insertion_argsort (disk_with five_years)
                            app_file untouched))
  = ["pie"; "bars"; "line"; "ranking"]
  /\ map chart_name (charts (rerun (snd first) insertion_argsort empty_disk
                               app_file untouched))
     = ["pie"; "bars"; "line"; "ranking"]
  /\ map chart_name (charts (rerun None insertion_argsort empty_disk
                               app_file untouched))
     = [].
Proof. cbv zeta. repeat split; vm_compute; reflexivity. Qed.

Lemma fold_min_max_bounds (y : Z) (ys : list Z) :
  Forall (fun x => fold_left Z.min ys y <= x <= fold_left Z.max ys y) (y :: ys).
Proof.
  assert (G : forall ys lo hi, lo <= hi ->
            fold_left Z.min ys lo <= lo /\ hi <= fold_left Z.max ys hi
            /\ Forall (fun x => fold_left Z.min ys lo <= x <= fold_left Z.max ys hi) ys).
  { clear. induction ys as [|z ys IH]; intros lo hi Hle; cbn [fold_left].
    - repeat split; try lia. constructor.
    - destruct (IH (Z.min lo z) (Z.max hi z) ltac:(lia)) as (Hlo & Hhi & Hall).
      repeat split; try lia. constructor; [lia | exact Hall]. }
  destruct (G ys y y ltac:(lia)) as (Hlo & Hhi & Hall).
  constructor; [lia | exact Hall].
Qed.

(** What [year_bounds] has read when it returns: there is a [year] column
    and a first row, and the bounds are the least and the greatest year. *)
Lemma year_bounds_value (df : DataFrame) (lo hi : Z) :
  year_bounds df = ([], Value (lo, hi)) ->
  has_column df "year" = true
  /\ exists r0 rows,
       records df = r0 :: rows
       /\ lo = fold_left Z.min (map year rows) (year r0)
       /\ hi = fold_left Z.max (map year rows) (year r0).
Proof.
  unfold year_bounds, column.
  destruct (has_column df "year"); [|discriminate].
  destruct (records df) as [|r0 rows]; [discriminate|].
  cbn. intros H. injection H as <- <-.
  split; [reflexivity|]. exists r0, rows. repeat split.
Qed.

(** X19.  On a frame with the five columns and at least one row, when the
    year slider, called with the least and the greatest year of the frame,
    answers with a range, the run draws the four charts and ends without
    an exception; each chart is drawn from the table its pipeline returns
    for the values of the widgets, and the bounds handed to the year
    slider enclose the year of every row.  Nothing is asked of the slider
    at other bounds. *)
Theorem main_draws_four_charts (argsort : list Q -> list nat)
    (fs : list string -> option DataFrame) (file : list string) (w : Widgets)
    (df : DataFrame) (lo hi : Z) (year_range : Z * Z) :
  load_data fs file = Value df ->
  has_column df "movie_id" = true ->
  has_column df "title" = true ->
  has_column df "genres" = true ->
  has_column df "rating" = true ->
  year_bounds df = ([], Value (lo, hi)) ->
  w_year_range w lo hi = Value year_range ->
  exists t1 t2 t3 t4,
    genre_distribution df (w_min_pct w) = Ok t1
    /\ genre_rating argsort df (w_min_ratings w) (w_sort_order w) = Ok t2
    /\ Forall (fun r => lo <= year r <= hi) (records df)
    /\ year_trend df year_range (w_min_count_year w) (w_smooth_window w) = Ok t3
    /\ top_rated df (w_min_movie_ratings w) (w_top_n w) = Ok t4
    /\ charts (main argsort fs file w)
       = [Pie "Genre Distribution of Movie Ratings" t1;
          Bars "Average Ratings by Genre" t2;
          Line "Average Rating Trend by Year" t3;
          Ranking ("Top " ++ str_int (w_top_n w) ++ " Movies (Min "
                   ++ str_int (w_min_movie_ratings w) ++ " Ratings)")%string t4]
    /\ snd (main argsort fs file w) = Value tt.
Proof.
  intros Hload Hm Ht Hg Hr Hbounds Hslider.
  destruct (year_bounds_value df lo hi Hbounds) as (Hy & r0 & rows & Erows & Hlo & Hhi).
  pose proof (main_tabs argsort fs file w df Hload) as H.
  rewrite (genre_distribution_runs _ _ Hg) in H.
  rewrite (genre_rating_runs _ _ _ _ Hg Hr) in H.
  rewrite (top_rated_runs _ _ _ Hm Ht Hr) in H.
  unfold line_table in H. rewrite (column_present _ _ Hy) in H.
  rewrite Erows in H. cbn [map] in H. rewrite <- Hlo, <- Hhi, Hslider in H.
  rewrite <- Erows in H.
  rewrite (year_trend_runs _ _ _ _ Hy Hr) in H.
  do 4 eexists.
  split; [apply genre_distribution_runs, Hg|].
  split; [apply genre_rating_runs; assumption|].
  split.
  { rewrite Erows, Hlo, Hhi.
    apply (proj1 (Forall_map year
                    (fun x => fold_left Z.min (map year rows) (year r0) <= x
                              <= fold_left Z.max (map year rows) (year r0))
                    (r0 :: rows))).
    apply (fold_min_max_bounds (year r0) (map year rows)). }
  split; [apply year_trend_runs; assumption|].
  split; [apply top_rated_runs; assumption|].
  exact H.
Qed.

Lemma main_draws_four_charts_witness :
  exists t1 t2 t3 t4,
    genre_distribution five_years (w_min_pct preview_on) = Ok t1
    /\ genre_rating insertion_argsort five_years (w_min_ratings preview_on)
         (w_sort_order preview_on) = Ok t2
    /\ Forall (fun r => 2000 <= year r <= 2004) (records five_years)
    /\ year_trend five_years (2000, 2004) (w_min_count_year preview_on)
         (w_smooth_window preview_on) = Ok t3
    /\ top_rated five_years (w_min_movie_ratings preview_on) (w_top_n preview_on)
       = Ok t4
    /\ charts (main insertion_argsort (disk_with five_years) app_file preview_on)
       = [Pie "Genre Distribution of Movie Ratings" t1;
          Bars "Average Ratings by Genre" t2;
          Line "Average Rating Trend by Year" t3;
          Ranking ("Top " ++ str_int (w_top_n preview_on) ++ " Movies (Min "
                   ++ str_int (w_min_movie_ratings preview_on) ++ " Ratings)")%string t4]
    /\ snd (main insertion_argsort (disk_with five_years) app_file preview_on)
       = Value tt.
Proof.
  apply (main_draws_four_charts insertion_argsort (disk_with five_years) app_file
           preview_on five_years 2000 2004 (2000, 2004));
    reflexivity.
Defined.

(** A frame whose rows all have the same year gives the slider two equal
    bounds: the page stops after the bars, with the exception of the
    widget, and draws neither the line nor the ranking. *)
Example single_year_stops_at_slider :
  map chart_name
    (charts (main insertion_argsort (disk_with comedy_drama) app_file untouched))
  = ["pie"; "bars"]
  /\ snd (main insertion_argsort (disk_with comedy_drama) app_file untouched)
     = Raise (WidgetError "Select Year Range").
Proof. split; vm_compute; reflexivity. Qed.

(** The title of the ranking carries the two values of its widgets. *)
Example ranking_title :
  exists t,
    nth_error (charts (main insertion_argsort (disk_with five_years) app_file untouched)) 3
    = Some (Ranking "Top 5 Movies (Min 50 Ratings)" t).
Proof. eexists. vm_compute. reflexivity. Qed.

(** X20.  The first tab that fails stops the page.  On a frame without a
    [genres] column no chart is drawn, not even the line and the ranking,
    which do not read the genres; on a frame that has the genres and the
    ratings but no [year] column, the pie and the bars are drawn and the
    ranking is not.  The [KeyError] leaves [main] in both cases. *)
Theorem first_failing_tab_stops_the_page (argsort : list Q -> list nat)
    (fs : list string -> option DataFrame) (file : list string) (w : Widgets)
    (df : DataFrame) :
  load_data fs file = Value df ->
  (has_column df "genres" = false ->
   charts (main argsort fs file w) = []
   /\ snd (main argsort fs file w) = Raise (Pandas (KeyError "genres")))
  /\ (has_column df "genres" = true ->
      has_column df "rating" = true ->
      has_column df "year" = false ->
      exists t1 t2,
        charts (main argsort fs file w)
        = [Pie "Genre Distribution of Movie Ratings" t1;
           Bars "Average Ratings by Genre" t2]
        /\ snd (main argsort fs file w) = Raise (Pandas (KeyError "year"))).
Proof.
  intros Hload. pose proof (main_tabs argsort fs file w df Hload) as H. split.
  - intros Hg. unfold genre_distribution in H.
    rewrite (column_absent _ _ Hg) in H. exact H.
  - intros Hg Hr Hy.
    rewrite (genre_distribution_runs _ _ Hg) in H.
    rewrite (genre_rating_runs _ _ _ _ Hg Hr) in H.
    unfold line_table in H. rewrite (column_absent _ _ Hy) in H.
    do 2 eexists. exact H.
Qed.

Lemma first_failing_tab_stops_the_page_witness :
  (charts (main insertion_argsort (disk_with ratings_only) app_file untouched) = []
   /\ snd (main insertion_argsort (disk_with ratings_only) app_file untouched)
      = Raise (Pandas (KeyError "genres")))
  /\ (exists t1 t2,
        charts (main insertion_argsort (disk_with no_year) app_file untouched)
        = [Pie "Genre Distribution of Movie Ratings" t1;
           Bars "Average Ratings by Genre" t2]
        /\ snd (main insertion_argsort (disk_with no_year) app_file untouched)
           = Raise (Pandas (KeyError "year"))).
Proof.
  split.
  - apply (proj1 (first_failing_tab_stops_the_page insertion_argsort
                    (disk_with ratings_only) app_file untouched ratings_only eq_refl)).
    reflexivity.
  - apply (proj2 (first_failing_tab_stops_the_page insertion_argsort
                    (disk_with no_year) app_file untouched no_year eq_refl));
      reflexivity.
Defined.

(** ** The raw preview and the year slider *)

Lemma fst_and_then {A B : Type} (m : Page A) (k : A -> Page B) :
  fst (x <~ m ;; k x)
  = fst m ++ match snd m with
             | Value a => fst (k a)
             | Raise _ => []
             end.
Proof.
  unfold and_then. destruct m as [d [a|e]]; cbn [fst snd]; [reflexivity|].
  symmetry. apply app_nil_r.
Qed.

Lemma tabs_draw_no_raw_data (argsort : list Q -> list nat) (df : DataFrame)
    (w : Widgets) :
  existsb is_raw_data
    (fst (_ <~ tab_genre_pie df w ;; _ <~ tab_genre_bars argsort df w ;;
          _ <~ tab_year_line df w ;; tab_top_movies df w)) = false.
Proof.
  assert (H1 : existsb is_raw_data (fst (tab_genre_pie df w)) = false).
  { unfold tab_genre_pie. destruct (genre_distribution df (w_min_pct w)); reflexivity. }
  assert (H2 : existsb is_raw_data (fst (tab_genre_bars argsort df w)) = false).
  { unfold tab_genre_bars.
    destruct (genre_rating argsort df (w_min_ratings w) (w_sort_order w)); reflexivity. }
  assert (H3 : existsb is_raw_data (fst (tab_year_line df w)) = false).
  { unfold tab_year_line, year_bounds.
    destruct (column df "year") as [[]|e]; [|reflexivity].
    destruct (map year (records df)) as [|y ys]; [reflexivity|].
    unfold and_then, pandas, eval, emit, ret. cbn [fst snd app].
    destruct (w_year_range w (fold_left Z.min ys y) (fold_left Z.max ys y));
      [|reflexivity].
    cbn [fst snd app].
    destruct (year_trend df a (w_min_count_year w) (w_smooth_window w)); reflexivity. }
  assert (H4 : existsb is_raw_data (fst (tab_top_movies df w)) = false).
  { unfold tab_top_movies.
    destruct (top_rated df (w_min_movie_ratings w) (w_top_n w)); reflexivity. }
  rewrite !fst_and_then, !existsb_app, H1.
  destruct (snd (tab_genre_pie df w)); [|reflexivity].
  rewrite ?fst_and_then, ?existsb_app, H2.
  destruct (snd (tab_genre_bars argsort df w)); [|reflexivity].
  rewrite ?fst_and_then, ?existsb_app, H3.
  destruct (snd (tab_year_line df w)); [|reflexivity].
  rewrite H4. reflexivity.
Qed.

(** X21.  The raw preview is drawn exactly when the toggle is on.  It then
    shows, under the columns of the frame, its first 50 rows, or all of
    them when the frame has fewer. *)
Theorem raw_preview_on_toggle (argsort : list Q -> list nat)
    (fs : list string -> option DataFrame) (file : list string) (w : Widgets)
    (df : DataFrame) :
  load_data fs file = Value df ->
  existsb is_raw_data (fst (main argsort fs file w)) = show_raw w
  /\ (show_raw w = true ->
      exists preview skipped,
        In (RawData (mkDataFrame (columns df) preview)) (fst (main argsort fs file w))
        /\ records df = preview ++ skipped
        /\ Zlen preview = Z.min 50 (Zlen (records df))).
Proof.
  intros Hload.
  assert (Hfst : fst (main argsort fs file w)
                 = [Title "Hamzah's MovieLens Dashboard";
                    Caption "Week 3 — EDA and Interactive Charts";
                    Header "Options"; Input "Preview Raw Data"]
                   ++ (if show_raw w
                       then [Expander "Raw Data Preview (first 50 rows)";
                             RawData (mkDataFrame (columns df) (head 50 (records df)))]
                       else [])
                   ++ Tabs ["Q1: Genre Pie Chart"; "Q2: Average Rating by Genre";
                            "Q3: Rating Trend by Year"; "Q4: Top Rated Movies"]
                      :: fst (_ <~ tab_genre_pie df w ;;
                              _ <~ tab_genre_bars argsort df w ;;
                              _ <~ tab_year_line df w ;; tab_top_movies df w)).
  { unfold main. rewrite Hload.
    destruct (tab_genre_pie df w) as [d1 [[]|e1]];
      destruct (tab_genre_bars argsort df w) as [d2 [[]|e2]];
      destruct (tab_year_line df w) as [d3 [[]|e3]];
      destruct (tab_top_movies df w) as [d4 [[]|e4]];
      destruct (show_raw w) eqn:Eraw;
      unfold and_then, show_header, sidebar_controls, emit, ret;
      cbn [fst snd app dict_get String.eqb Ascii.eqb Bool.eqb];
      rewrite ?Eraw; cbn [fst snd app]; reflexivity. }
  split.
  - rewrite Hfst, !existsb_app. cbn [existsb is_raw_data orb].
    rewrite tabs_draw_no_raw_data.
    destruct (show_raw w); reflexivity.
  - intros Hon. rewrite Hfst, Hon.
    exists (head 50 (records df)), (skipn 50 (records df)).
    split; [|split].
    + apply in_or_app. right. apply in_or_app. left. right. left. reflexivity.
    + symmetry. apply (firstn_skipn 50).
    + apply head_length. lia.
Qed.

Lemma raw_preview_on_toggle_witness :
  existsb is_raw_data
    (fst (main insertion_argsort (disk_with five_years) app_file preview_on))
  = show_raw preview_on
  /\ (show_raw preview_on = true ->
      exists preview skipped,
        In (RawData (mkDataFrame (columns five_years) preview))
          (fst (main insertion_argsort (disk_with five_years) app_file preview_on))
        /\ records five_years = preview ++ skipped
        /\ Zlen preview = Z.min 50 (Zlen (records five_years))).
Proof.
  apply (raw_preview_on_toggle insertion_argsort (disk_with five_years) app_file
           preview_on five_years).
  reflexivity.
Defined.

(** X22.  The untouched year slider hides no year.  When the slider,
    called with the least and the greatest year of the frame, answers with
    these two bounds, its position before the user moves it, the rows
    behind the line are all the years of the frame that reach the count
    floor: the range filters nothing out.  Nothing is asked of the slider
    at other bounds. *)
Theorem untouched_year_slider_keeps_every_year (df : DataFrame) (w : Widgets)
    (lo hi : Z) :
  has_column df "rating" = true ->
  year_bounds df = ([], Value (lo, hi)) ->
  w_year_range w lo hi = Value (lo, hi) ->
  exists table,
    line_table df w = Value table
    /\ map drop_smoothed table
       = filter (fun s => w_min_count_year w <=? ystat_n_ratings s)
           (year_stats (records df)).
Proof.
  intros Hr Hbounds Hslider.
  destruct (year_bounds_value df lo hi Hbounds) as (Hy & r0 & rows & Erows & Hlo & Hhi).
  unfold line_table. rewrite (column_present _ _ Hy).
  rewrite Erows. cbn [map]. rewrite <- Hlo, <- Hhi, Hslider. rewrite <- Erows.
  rewrite (year_trend_runs _ _ _ _ Hy Hr). eexists. split; [reflexivity|].
  rewrite smoothed_drop. unfold year_filtered. cbn [fst snd].
  apply filter_ext_in. intros s Hs.
  assert (Hin : In (ystat_year s) (map year (records df))).
  { apply (groupby_keys year (records df)).
    unfold year_stats in Hs. apply in_map_iff in Hs.
    destruct Hs as [[y rs] [<- Hgrp]]. cbn [ystat_year fst].
    apply in_map_iff. exists (y, rs). split; [reflexivity | exact Hgrp]. }
  rewrite Erows in Hin. cbn [map] in Hin.
  pose proof (fold_min_max_bounds (year r0) (map year rows)) as Hb.
  rewrite Forall_forall in Hb. specialize (Hb _ Hin).
  rewrite <- Hlo, <- Hhi in Hb.
  destruct Hb as [Hlo' Hhi']. apply Z.leb_le in Hlo', Hhi'.
  rewrite Hlo', Hhi'. reflexivity.
Qed.

Lemma untouched_year_slider_keeps_every_year_witness :
  exists table,
    line_table five_years preview_on = Value table
    /\ map drop_smoothed table
       = filter (fun s => w_min_count_year preview_on <=? ystat_n_ratings s)
           (year_stats (records five_years)).
Proof.
  apply (untouched_year_slider_keeps_every_year five_years preview_on 2000 2004).
  - reflexivity.
  - reflexivity.
  - reflexivity.
Defined.

(** X23.  A frame with a [year] column and no row stops the third tab
    before its widgets: there is no least year to hand to the slider, and
    [int] raises [ValueError]. *)
Theorem no_row_no_year_slider (df : DataFrame) (w : Widgets) :
  has_column df "year" = true ->
  records df = [] ->
  tab_year_line df w
  = ([Subheader "Q3: How do ratings change over years?";
      Caption "Line chart of average rating per release year."],
     Raise ValueError).
Proof.
  intros Hy Hrows. unfold tab_year_line, year_bounds.
  rewrite (column_present _ _ Hy), Hrows. reflexivity.
Qed.

Lemma no_row_no_year_slider_witness :
  tab_year_line no_ratings untouched
  = ([Subheader "Q3: How do ratings change over years?";
      Caption "Line chart of average rating per release year."],
     Raise ValueError).
Proof. apply (no_row_no_year_slider no_ratings untouched); reflexivity. Defined.

(* ===================================================================== *)
(** * The length of the ranking, counted on the rows of the frame *)
(* ===================================================================== *)

Section EachOnce.
Context {K : Type} `{KeyOrd K}.

Lemma existsb_key_eqb (k : K) (ks : list K) :
  existsb (key_eqb k) ks = true <-> In k ks.
Proof.
  rewrite existsb_exists. split.
  - intros [k' [Hin E]]. apply key_eqb_eq in E. subst k'. exact Hin.
  - intros Hin. exists k. split; [exact Hin | apply key_eqb_refl].
Qed.

Lemma each_once_In (k : K) (ks : list K) : In k (each_once ks) <-> In k ks.
Proof.
  induction ks as [|k0 ks IH]; cbn [each_once]; [reflexivity|].
  destruct (existsb (key_eqb k0) ks) eqn:E.
  - rewrite IH. split; [right; assumption|].
    intros [<-|Hin]; [apply existsb_key_eqb, E | exact Hin].
  - cbn [In]. rewrite IH. reflexivity.
Qed.

Lemma each_once_NoDup (ks : list K) : NoDup (each_once ks).
Proof.
  induction ks as [|k0 ks IH]; cbn [each_once]; [constructor|].
  destruct (existsb (key_eqb k0) ks) eqn:E; [exact IH|].
  constructor; [|exact IH].
  intros Hin. apply (proj1 (each_once_In k0 ks)) in Hin.
  apply (proj2 (existsb_key_eqb k0 ks)) in Hin. congruence.
Qed.
End EachOnce.

Lemma filter_of_rearranged {A : Type} (keep : A -> bool) (l l' : list A)
    (Hp : Permutation l l') :
  Permutation (filter keep l) (filter keep l').
Proof.
  induction Hp as [|x l l' Hp IH|x y l|l l' l'' Hp1 IH1 Hp2 IH2]; cbn [filter].
  - constructor.
  - destruct (keep x); [constructor|]; exact IH.
  - destruct (keep x); destruct (keep y); try reflexivity. apply perm_swap.
  - eapply Permutation_trans; eassumption.
Qed.

(** The groups of [movie_stats] that pass the floor are as many as the
    pairs of the frame with that many ratings. *)
Lemma filtered_movies_count (min_movie_ratings : Z) (rows : list Rating) :
  length (filtered_movies min_movie_ratings rows)
  = length (movies_meeting min_movie_ratings rows).
Proof.
  unfold filtered_movies, movies_meeting.
  set (key := fun r => (movie_id r, title r)).
  set (enough := fun k => min_movie_ratings <=? Zlen (ratings_of k rows)).
  assert (Hkeys : Permutation (map movie_key (movie_stats rows)) (each_once (map key rows))).
  { apply NoDup_Permutation.
    - apply movie_stats_keys_NoDup.
    - apply each_once_NoDup.
    - intros k. rewrite each_once_In. split.
      + intros Hin. apply (groupby_keys key rows).
        unfold movie_stats in Hin. rewrite map_map in Hin.
        rewrite (map_ext _ fst) in Hin by (intros [[m t] rs]; reflexivity).
        exact Hin.
      + intros Hin. apply in_map_iff in Hin. destruct Hin as [r [<- Hr]].
        pose proof (groupby_complete key rows r Hr) as Hk.
        unfold movie_stats. rewrite map_map.
        rewrite (map_ext _ fst) by (intros [[m t] rs]; reflexivity).
        exact Hk. }
  rewrite <- (Permutation_length (filter_of_rearranged enough _ _ Hkeys)).
  rewrite filter_map_swap, length_map. f_equal.
  apply filter_ext_in. intros s Hs.
  destruct (movie_stats_In rows s Hs) as (_ & Hn & _).
  unfold enough, ratings_of, movie_key. rewrite <- Hn. reflexivity.
Qed.

(** C3.  On a frame with the [movie_id], [title] and [rating] columns, for
    every count floor and every [top_n >= 0] (so for every [top_n] of the
    slider, 3 to 25): the returned sequence has length
    [min(top_n, number of (movie_id, title) pairs of the frame with at
    least the floor of ratings)], the pairs and their ratings counted on
    the rows of the frame, and it is sorted by mean rating descending,
    then count descending. *)
Theorem top_rated_length_and_order (df : DataFrame)
    (min_movie_ratings top_n : Z) :
  has_column df "movie_id" = true ->
  has_column df "title" = true ->
  has_column df "rating" = true ->
  0 <= top_n ->
  exists out,
    top_rated df min_movie_ratings top_n = Ok out
    /\ Zlen out
       = Z.min top_n (Zlen (movies_meeting min_movie_ratings (records df)))
    /\ StronglySorted rating_then_count_desc out.
Proof.
  intros Hm Ht Hr Hn. eexists. split; [apply top_rated_runs; assumption|].
  unfold top_movies. split.
  - rewrite head_length by exact Hn.
    unfold Zlen. rewrite lexsort_length, filtered_movies_count. reflexivity.
  - unfold head. destruct (Z.ltb_spec top_n 0); [lia|].
    apply StronglySorted_firstn, sorted_movies_ordered.
Qed.

Lemma top_rated_length_and_order_witness :
  exists out,
    top_rated five_years 2 3 = Ok out
    /\ Zlen out = Z.min 3 (Zlen (movies_meeting 2 (records five_years)))
    /\ StronglySorted rating_then_count_desc out.
Proof.
  apply (top_rated_length_and_order five_years 2 3).
  - reflexivity.
  - reflexivity.
  - reflexivity.
  - lia.
Defined.

(** All five movies of [five_years] have two ratings or more, three of
    them are listed; one has three ratings, and it alone is listed when the
    floor is 3. *)
Example five_years_movies_meeting :
  movies_meeting 2 (records five_years)
  = [(1, "A"); (2, "B"); (3, "C"); (4, "D"); (5, "E")]
  /\ movies_meeting 3 (records five_years) = [(5, "E")].
Proof. split; vm_compute; reflexivity. Qed.

(* ===================================================================== *)
(** * The first tab as the program rounds it *)
(* ===================================================================== *)

(** ** Rounding to binary64 *)

Lemma round_half_even_error (y : Q) :
  (Qabs (inject_Z (round_half_even y) - y) <= 1 # 2)%Q.
Proof.
  unfold round_half_even.
  pose proof (Qfloor_le y) as Hlo. pose proof (Qlt_floor y) as Hhi.
  rewrite inject_Z_plus in Hhi. change (inject_Z 1) with 1%Q in Hhi.
  apply Qabs_Qle_condition.
  destruct (y - inject_Z (Qfloor y) ?= 1 # 2)%Q eqn:E.
  - apply Qeq_alt in E. destruct (Z.even (Qfloor y));
      rewrite ?inject_Z_plus; change (inject_Z 1) with 1%Q; lra.
  - apply Qlt_alt in E. lra.
  - apply Qgt_alt in E. rewrite inject_Z_plus. change (inject_Z 1) with 1%Q. lra.
Qed.

Lemma pow2_pos (k : Z) : (0 < 2 ^ k)%Q.
Proof. apply Qpower_0_lt. reflexivity. Qed.

Lemma pow2_add (a b : Z) : (2 ^ (a + b) == 2 ^ a * 2 ^ b)%Q.
Proof. apply Qpower_plus. discriminate. Qed.

Lemma pow2_Z (k : Z) : 0 <= k -> (2 ^ k == inject_Z (2 ^ k))%Q.
Proof. intros Hk. symmetry. apply (Zpower_Qpower 2 k Hk). Qed.

Lemma Qdiv_Z_le (a b c d : Z) :
  0 < b -> 0 < d -> a * d <= c * b ->
  (inject_Z a / inject_Z b <= inject_Z c / inject_Z d)%Q.
Proof.
  intros Hb Hd H.
  assert (Hb' : (0 < inject_Z b)%Q) by (change 0%Q with (inject_Z 0); rewrite <- Zlt_Qlt; exact Hb).
  assert (Hd' : (0 < inject_Z d)%Q) by (change 0%Q with (inject_Z 0); rewrite <- Zlt_Qlt; exact Hd).
  apply Qle_shift_div_l; [exact Hd'|].
  setoid_replace (inject_Z a / inject_Z b * inject_Z d)%Q
    with (inject_Z (a * d) / inject_Z b)%Q
    by (rewrite inject_Z_mult; field; lra).
  apply Qle_shift_div_r; [exact Hb'|].
  rewrite <- inject_Z_mult, <- Zle_Qle. exact H.
Qed.

Lemma Qdiv_Z_lt (a b c d : Z) :
  0 < b -> 0 < d -> a * d < c * b ->
  (inject_Z a / inject_Z b < inject_Z c / inject_Z d)%Q.
Proof.
  intros Hb Hd H.
  assert (Hb' : (0 < inject_Z b)%Q) by (change 0%Q with (inject_Z 0); rewrite <- Zlt_Qlt; exact Hb).
  assert (Hd' : (0 < inject_Z d)%Q) by (change 0%Q with (inject_Z 0); rewrite <- Zlt_Qlt; exact Hd).
  apply Qlt_shift_div_l; [exact Hd'|].
  setoid_replace (inject_Z a / inject_Z b * inject_Z d)%Q
    with (inject_Z (a * d) / inject_Z b)%Q
    by (rewrite inject_Z_mult; field; lra).
  apply Qlt_shift_div_r; [exact Hb'|].
  rewrite <- inject_Z_mult, <- Zlt_Qlt. exact H.
Qed.

(** The quotient of the two logarithms is one off at most. *)
Lemma log2_quotient (x : Q) :
  (0 < x)%Q ->
  let e := Z.log2 (Qnum x) - Z.log2 (QDen x) in
  (2 ^ (e - 1) <= x /\ x < 2 ^ (e + 1))%Q.
Proof.
  intros Hx. destruct x as [p q]. cbn [Qnum Qden].
  assert (Hp : 0 < p) by (unfold Qlt in Hx; cbn in Hx; lia).
  destruct (Z.log2_spec p Hp) as [Hp1 Hp2].
  destruct (Z.log2_spec (Z.pos q) (Pos2Z.is_pos q)) as [Hq1 Hq2].
  pose proof (Z.log2_nonneg p) as Hlp. pose proof (Z.log2_nonneg (Z.pos q)) as Hlq.
  set (lp := Z.log2 p) in *. set (lq := Z.log2 (Z.pos q)) in *.
  assert (Hpq : (p # q == inject_Z p / inject_Z (Z.pos q))%Q) by apply Qmake_Qdiv.
  split.
  - replace (lp - lq - 1) with (lp - (lq + 1)) by lia.
    rewrite Qpower_minus by discriminate.
    rewrite (pow2_Z lp), (pow2_Z (lq + 1)), Hpq by lia.
    apply Qdiv_Z_le; [apply Z.pow_pos_nonneg; lia | lia | nia].
  - replace (lp - lq + 1) with ((lp + 1) - lq) by lia.
    rewrite Qpower_minus by discriminate.
    rewrite (pow2_Z (lp + 1)), (pow2_Z lq), Hpq by lia.
    apply Qdiv_Z_lt; [lia | apply Z.pow_pos_nonneg; lia | nia].
Qed.

Lemma exponent_spec (x : Q) :
  (0 < x)%Q -> (2 ^ exponent x <= x /\ x < 2 ^ (exponent x + 1))%Q.
Proof.
  intros Hx. destruct (log2_quotient x Hx) as [Hlo Hhi].
  unfold exponent.
  destruct (Qle_bool (2 ^ (Z.log2 (Qnum x) - Z.log2 (QDen x))) x) eqn:E.
  - apply Qle_bool_iff in E. split; [exact E | exact Hhi].
  - split; [exact Hlo|].
    replace (Z.log2 (Qnum x) - Z.log2 (QDen x) - 1 + 1)
      with (Z.log2 (Qnum x) - Z.log2 (QDen x)) by lia.
    apply Qnot_le_lt. intros Hc. apply Qle_bool_iff in Hc. congruence.
Qed.

Lemma round64_pos_error (x : Q) :
  (0 < x)%Q -> (Qabs (round64_pos x - x) <= u64 * x)%Q.
Proof.
  intros Hx. unfold round64_pos.
  destruct (exponent_spec x Hx) as [He _].
  set (e := exponent x) in *.
  pose proof (round_half_even_error (x * 2 ^ (52 - e))) as Hr.
  set (m := inject_Z (round_half_even (x * 2 ^ (52 - e)))) in *.
  pose proof (pow2_pos (e - 52)) as Hs.
  assert (Hone : (2 ^ (52 - e) * 2 ^ (e - 52) == 1)%Q).
  { rewrite <- pow2_add. replace (52 - e + (e - 52)) with 0 by lia. reflexivity. }
  assert (Hu : (2 ^ (e - 52) * (1 # 2) == u64 * 2 ^ e)%Q).
  { replace (e - 52) with (e + - 52) by lia. rewrite pow2_add.
    unfold u64. change (2 ^ (- 52))%Q with (1 # 4503599627370496)%Q. field. }
  setoid_replace (m * 2 ^ (e - 52) - x)%Q
    with ((m - x * 2 ^ (52 - e)) * 2 ^ (e - 52))%Q
    by (rewrite <- (Qmult_1_r x) at 1; rewrite <- Hone; ring).
  rewrite Qabs_Qmult, (Qabs_pos (2 ^ (e - 52))) by lra.
  apply Qle_trans with ((1 # 2) * 2 ^ (e - 52))%Q.
  - apply Qmult_le_compat_r; [exact Hr | lra].
  - rewrite Qmult_comm, Hu. apply Qmult_le_l; [reflexivity | exact He].
Qed.

Lemma round64_error (x : Q) :
  (0 <= x)%Q -> (Qabs (round64 x - x) <= u64 * x)%Q.
Proof.
  intros Hx. unfold round64. rewrite Qred_correct.
  destruct x as [p q]. cbn [Qnum]. destruct p as [|p|p].
  - vm_compute. discriminate.
  - apply round64_pos_error. reflexivity.
  - exfalso. apply Hx. reflexivity.
Qed.

Lemma round64_nonneg (x : Q) : (0 <= x)%Q -> (0 <= round64 x)%Q.
Proof.
  intros Hx. pose proof (round64_error x Hx) as H.
  apply Qabs_Qle_condition in H. unfold u64 in H. lra.
Qed.

#[export] Instance round_half_even_comp : Proper (Qeq ==> eq) round_half_even.
Proof.
  intros x y H. unfold round_half_even.
  rewrite (Qfloor_comp x y H).
  assert (E : (x - inject_Z (Qfloor y) ?= 1 # 2)%Q = (y - inject_Z (Qfloor y) ?= 1 # 2)%Q).
  { rewrite H. reflexivity. }
  rewrite E. reflexivity.
Qed.

Lemma round_half_even_Z (k : Z) : round_half_even (inject_Z k) = k.
Proof.
  unfold round_half_even. rewrite Qfloor_Z.
  assert (E : (inject_Z k - inject_Z k ?= 1 # 2)%Q = Lt).
  { rewrite <- Qlt_alt. lra. }
  rewrite E. reflexivity.
Qed.

Lemma Qred_Z (n : Z) : Qred (inject_Z n) = inject_Z n.
Proof.
  unfold Qred, inject_Z.
  pose proof (Z.ggcd_gcd n 1) as Hg. pose proof (Z.ggcd_correct_divisors n 1) as Hd.
  destruct (Z.ggcd n 1) as [g [a b]]. cbn [fst snd] in *.
  rewrite Z.gcd_1_r in Hg. subst g. destruct Hd as [Ha Hb].
  replace a with n by lia. replace b with 1 by lia. reflexivity.
Qed.

(** An integer below [2^53] is a binary64 number. *)
Lemma round64_Z (n : Z) :
  0 <= n < 9007199254740992 -> round64 (inject_Z n) = inject_Z n.
Proof.
  intros [Hn0 Hn]. rewrite <- (Qred_Z n) at 2. unfold round64.
  apply Qred_complete. cbn [inject_Z Qnum].
  destruct n as [|p|p]; [reflexivity| |lia].
  fold (inject_Z (Z.pos p)). unfold round64_pos.
  assert (Hx : (0 < inject_Z (Z.pos p))%Q) by reflexivity.
  destruct (exponent_spec _ Hx) as [He _].
  set (e := exponent (inject_Z (Z.pos p))) in *.
  assert (He52 : e < 53).
  { apply (Qpower_lt_compat_l_inv 2); [|reflexivity].
    eapply Qle_lt_trans; [exact He|].
    rewrite (pow2_Z 53) by lia. rewrite <- Zlt_Qlt. exact Hn. }
  assert (Hy : (inject_Z (Z.pos p) * 2 ^ (52 - e)
                == inject_Z (Z.pos p * 2 ^ (52 - e)))%Q).
  { rewrite inject_Z_mult, (pow2_Z (52 - e)) by lia. reflexivity. }
  rewrite Hy, round_half_even_Z, inject_Z_mult, <- (pow2_Z (52 - e)) by lia.
  rewrite <- Qmult_assoc, <- pow2_add.
  replace (52 - e + (e - 52)) with 0 by lia. change (2 ^ 0)%Q with 1%Q. ring.
Qed.

Lemma compound_ge_1 (n : nat) : (1 <= compound n)%Q.
Proof.
  induction n as [|n IH]; cbn [compound]; [lra|].
  unfold u64. nra.
Qed.

Lemma compound_S_le (n : nat) : (compound n <= compound (S n))%Q.
Proof.
  pose proof (compound_ge_1 n). cbn [compound]. unfold u64. nra.
Qed.

Lemma compound_mono (n m : nat) : (n <= m)%nat -> (compound n <= compound m)%Q.
Proof.
  induction 1 as [|m Hle IH]; [lra|].
  eapply Qle_trans; [exact IH | apply compound_S_le].
Qed.

Lemma compound_linear (n : nat) :
  (inject_Z (Z.of_nat n) * u64 <= 1 # 2)%Q ->
  (compound n <= 1 + 2 * inject_Z (Z.of_nat n) * u64)%Q.
Proof.
  induction n as [|n IH]; intros Hn.
  - cbn [compound Z.of_nat]. change (inject_Z 0) with 0%Q. lra.
  - rewrite Nat2Z.inj_succ in *. unfold Z.succ in *. rewrite inject_Z_plus in *.
    change (inject_Z 1) with 1%Q in *.
    assert (Hpos : (0 <= inject_Z (Z.of_nat n))%Q).
    { change 0%Q with (inject_Z 0). rewrite <- Zle_Qle. lia. }
    assert (Hu : (0 < u64)%Q) by reflexivity.
    set (k := inject_Z (Z.of_nat n)) in *. set (u := u64) in *.
    assert (Hk : (k * u <= 1 # 2)%Q) by nra.
    specialize (IH Hk). cbn [compound]. fold u.
    assert (Hkk : (k * u * u <= (1 # 2) * u)%Q) by (apply Qmult_le_compat_r; lra).
    nra.
Qed.

Lemma Qsum_nonneg (l : list Q) :
  Forall (fun x => (0 <= x)%Q) l -> (0 <= Qsum l)%Q.
Proof.
  induction 1 as [|x l Hx Hl IH]; cbn [Qsum fold_right]; [lra|].
  fold (Qsum l). lra.
Qed.

Lemma sum64_left_from (l : list Q) (acc s : Q) (k : nat) :
  Forall (fun x => (0 <= x)%Q) l ->
  (0 <= s)%Q ->
  (0 <= acc)%Q ->
  (Qabs (acc - s) <= (compound k - 1) * s)%Q ->
  (Qabs (fold_left (fun a x => round64 (a + x)) l acc - (s + Qsum l))
   <= (compound (k + length l) - 1) * (s + Qsum l))%Q.
Proof.
  intros Hl. revert acc s k.
  induction Hl as [|x l Hx Hl IH]; intros acc s k Hs Hacc0 Hacc.
  - cbn [fold_left Qsum fold_right length]. rewrite Nat.add_0_r.
    setoid_replace (s + 0)%Q with s by ring. exact Hacc.
  - cbn [fold_left Qsum fold_right length]. fold (Qsum l).
    replace (k + S (length l))%nat with (S k + length l)%nat by lia.
    setoid_replace (s + (x + Qsum l))%Q with ((s + x) + Qsum l)%Q by ring.
    apply IH; [lra | apply round64_nonneg; lra |].
    pose proof (compound_ge_1 k) as Hc.
    apply Qabs_Qle_condition in Hacc.
    pose proof (round64_error (acc + x) ltac:(lra)) as Hr.
    apply Qabs_Qle_condition in Hr. apply Qabs_Qle_condition.
    cbn [compound].
    assert (Hu : (0 < u64)%Q) by reflexivity.
    set (u := u64) in *. set (c := compound k) in *.
    set (r := round64 (acc + x)) in *.
    assert (H1 : (u * acc <= u * (c * s))%Q) by (apply Qmult_le_l; lra).
    assert (H2 : (0 <= (c - 1) * u * x)%Q).
    { apply Qmult_le_0_compat; [|exact Hx]. apply Qmult_le_0_compat; lra. }
    split; nra.
Qed.

Lemma sum64_left_accurate : sum64_accurate sum64_left.
Proof.
  intros l Hl. unfold sum64_left.
  pose proof (sum64_left_from l 0 0 0 Hl ltac:(lra) ltac:(lra)) as H.
  cbn [Nat.add] in H.
  setoid_replace (0 + Qsum l)%Q with (Qsum l) in H by ring.
  apply H. vm_compute. discriminate.
Qed.

Lemma rounded_sum_close (zs : list Q) :
  Forall (fun z => (0 <= z)%Q) zs ->
  (Qabs (Qsum (map round64 zs) - Qsum zs) <= u64 * Qsum zs)%Q.
Proof.
  induction 1 as [|z zs Hz Hzs IH]; cbn [map Qsum fold_right].
  - vm_compute. discriminate.
  - fold (Qsum zs). fold (Qsum (map round64 zs)).
    pose proof (round64_error z Hz) as Hr.
    apply Qabs_Qle_condition in Hr, IH. apply Qabs_Qle_condition.
    split; lra.
Qed.

(** ** Sums of binary64 numbers *)

Lemma approx_exact (x : Q) : (0 <= x)%Q -> approx 0 x x.
Proof.
  intros Hx. repeat split; try exact Hx.
  cbn [compound]. apply Qabs_Qle_condition. split; lra.
Qed.

Lemma approx_weaken (k k' : nat) (a s : Q) :
  (k <= k')%nat -> approx k a s -> approx k' a s.
Proof.
  intros Hk (Hs & Ha & H). repeat split; try assumption.
  eapply Qle_trans; [exact H|].
  pose proof (compound_mono k k' Hk).
  apply Qmult_le_compat_r; lra.
Qed.

Lemma approx_eq (k : nat) (a s s' : Q) : (s == s')%Q -> approx k a s -> approx k a s'.
Proof. intros E (Hs & Ha & H). unfold approx. rewrite <- E. repeat split; assumption. Qed.

Lemma approx_add (k : nat) (a b s t : Q) :
  approx k a s -> approx k b t -> approx (S k) (round64 (a + b)) (s + t).
Proof.
  intros (Hs & Ha & H1) (Ht & Hb & H2).
  pose proof (round64_error (a + b) ltac:(lra)) as Hr.
  pose proof (round64_nonneg (a + b) ltac:(lra)) as Hr0.
  pose proof (compound_ge_1 k) as Hc.
  assert (Hu : (0 < u64)%Q) by reflexivity.
  apply Qabs_Qle_condition in H1, H2, Hr.
  repeat split; [lra | exact Hr0 |].
  cbn [compound]. set (u := u64) in *. set (c := compound k) in *.
  set (r := round64 (a + b)) in *.
  assert (Hab : (u * (a + b) <= u * (c * (s + t)))%Q) by (apply Qmult_le_l; lra).
  apply Qabs_Qle_condition. split; lra.
Qed.

Lemma fold_left_approx (l : list Q) (acc s : Q) (k : nat) :
  Forall (fun x => (0 <= x)%Q) l ->
  approx k acc s ->
  approx (k + length l) (fold_left (fun a x => round64 (a + x)) l acc) (s + Qsum l).
Proof.
  intros Hl. revert acc s k.
  induction Hl as [|x l Hx Hl IH]; intros acc s k Hacc.
  - cbn [fold_left Qsum fold_right length]. rewrite Nat.add_0_r.
    apply (approx_eq k acc s); [ring | exact Hacc].
  - cbn [fold_left Qsum fold_right length]. fold (Qsum l).
    replace (k + S (length l))%nat with (S k + length l)%nat by lia.
    apply (approx_eq _ _ ((s + x) + Qsum l)); [ring|].
    apply IH. apply approx_add; [exact Hacc|].
    apply (approx_weaken 0); [lia | apply approx_exact, Hx].
Qed.

Lemma add_lanes_length (lanes block : list Q) :
  length (add_lanes lanes block) = length lanes.
Proof.
  revert block. induction lanes as [|r lanes IH]; intros [|x block];
    cbn [add_lanes length]; try reflexivity.
  rewrite IH. reflexivity.
Qed.

Lemma add_lanes_approx (k : nat) (lanes sums block : list Q) :
  Forall2 (approx k) lanes sums ->
  Forall (fun x => (0 <= x)%Q) block ->
  (length block <= length lanes)%nat ->
  exists sums',
    Forall2 (approx (S k)) (add_lanes lanes block) sums'
    /\ (Qsum sums' == Qsum sums + Qsum block)%Q.
Proof.
  intros Hl. revert block.
  induction Hl as [|r s lanes sums Hrs Hl IH]; intros block Hb Hlen.
  - destruct block; [|cbn [length] in Hlen; lia].
    exists []. split; [constructor | cbn; ring].
  - destruct block as [|x block].
    + exists (s :: sums). split; [|cbn [Qsum fold_right]; ring].
      cbn [add_lanes]. constructor.
      * apply (approx_weaken k); [lia | exact Hrs].
      * eapply Forall2_impl; [|exact Hl].
        intros a b Hab. apply (approx_weaken k); [lia | exact Hab].
    + inversion Hb as [|x' b' Hx Hb']; subst.
      destruct (IH block Hb' ltac:(cbn [length] in Hlen; lia)) as (sums' & Hf & Hs).
      exists ((s + x)%Q :: sums'). split.
      * cbn [add_lanes]. constructor; [|exact Hf].
        apply approx_add; [exact Hrs|].
        apply (approx_weaken 0); [lia | apply approx_exact, Hx].
      * cbn [Qsum fold_right]. fold (Qsum sums') (Qsum sums) (Qsum block).
        rewrite Hs. ring.
Qed.

Lemma Forall_firstn_skipn {A : Type} (P : A -> Prop) (n : nat) (l : list A) :
  Forall P l -> Forall P (firstn n l) /\ Forall P (skipn n l).
Proof.
  intros H. rewrite <- (firstn_skipn n l) in H.
  apply Forall_app in H. exact H.
Qed.

Lemma sum_blocks_approx (b : nat) :
  forall (k : nat) (lanes sums rest : list Q),
    Forall2 (approx k) lanes sums ->
    length lanes = 8%nat ->
    Forall (fun x => (0 <= x)%Q) rest ->
    exists sums',
      Forall2 (approx (k + b)) (fst (sum_blocks b lanes rest)) sums'
      /\ length (fst (sum_blocks b lanes rest)) = 8%nat
      /\ Forall (fun x => (0 <= x)%Q) (snd (sum_blocks b lanes rest))
      /\ (Qsum sums' + Qsum (snd (sum_blocks b lanes rest))
          == Qsum sums + Qsum rest)%Q
      /\ length (snd (sum_blocks b lanes rest)) = (length rest - 8 * b)%nat.
Proof.
  induction b as [|b IH]; intros k lanes sums rest Hl Hlen Hrest.
  - cbn [sum_blocks fst snd]. exists sums. rewrite Nat.add_0_r.
    split; [exact Hl|]. split; [exact Hlen|]. split; [exact Hrest|].
    split; [reflexivity | lia].
  - cbn [sum_blocks].
    destruct (Forall_firstn_skipn _ 8 rest Hrest) as [Hblock Hrest'].
    destruct (add_lanes_approx k lanes sums (firstn 8 rest) Hl Hblock) as (sums1 & Hl1 & Hs1).
    { rewrite Hlen. apply firstn_le_length. }
    destruct (IH (S k) _ sums1 (skipn 8 rest) Hl1) as (sums' & H1 & H2 & H3 & H4 & H5).
    { rewrite add_lanes_length. exact Hlen. }
    { exact Hrest'. }
    exists sums'. replace (k + S b)%nat with (S k + b)%nat by lia.
    split; [exact H1|]. split; [exact H2|]. split; [exact H3|]. split.
    + rewrite H4, Hs1. rewrite <- (firstn_skipn 8 rest) at 3.
      rewrite Qsum_app. ring.
    + rewrite H5, length_skipn. lia.
Qed.

Lemma sum64_pairwise_accurate : sum64_accurate sum64_pairwise.
Proof.
  intros l Hl. unfold sum64_pairwise.
  destruct (Nat.ltb_spec (length l) 8) as [Hshort|Hlong].
  - apply sum64_left_accurate, Hl.
  - destruct (Forall_firstn_skipn _ 8 l Hl) as [Hhead Htail].
    assert (Hexact : Forall2 (approx 0) (firstn 8 l) (firstn 8 l)).
    { clear -Hhead. induction Hhead as [|x l' Hx Hl' IH]; constructor;
        [apply approx_exact, Hx | exact IH]. }
    destruct (sum_blocks_approx (length l / 8 - 1) 0 _ _ (skipn 8 l) Hexact)
      as (sums & H1 & H2 & H3 & H4 & H5).
    { apply firstn_length_le, Hlong. }
    { exact Htail. }
    destruct (sum_blocks (length l / 8 - 1) (firstn 8 l) (skipn 8 l))
      as [lanes rest]. cbn [fst snd] in *.
    set (k := (0 + (length l / 8 - 1))%nat) in *.
    assert (Htotal : (Qsum sums + Qsum rest == Qsum l)%Q).
    { rewrite H4. rewrite <- (firstn_skipn 8 l) at 3. rewrite Qsum_app. reflexivity. }
    do 9 (destruct lanes as [|? lanes]; try discriminate H2).
    inversion H1 as [|? s0 ? ? A0 T0]; subst; clear H1.
    inversion T0 as [|? s1 ? ? A1 T1]; subst; clear T0.
    inversion T1 as [|? s2 ? ? A2 T2]; subst; clear T1.
    inversion T2 as [|? s3 ? ? A3 T3]; subst; clear T2.
    inversion T3 as [|? s4 ? ? A4 T4]; subst; clear T3.
    inversion T4 as [|? s5 ? ? A5 T5]; subst; clear T4.
    inversion T5 as [|? s6 ? ? A6 T6]; subst; clear T5.
    inversion T6 as [|? s7 ? ? A7 T7]; subst; clear T6.
    inversion T7; subst; clear T7.
    cbn [nth].
    pose proof (approx_add _ _ _ _ _
                  (approx_add _ _ _ _ _ (approx_add _ _ _ _ _ A0 A1)
                                        (approx_add _ _ _ _ _ A2 A3))
                  (approx_add _ _ _ _ _ (approx_add _ _ _ _ _ A4 A5)
                                        (approx_add _ _ _ _ _ A6 A7))) as Htree.
    pose proof (fold_left_approx rest _ _ _ H3 Htree) as Hall.
    assert (Hdepth : (S (S (S k)) + length rest <= length l)%nat).
    { rewrite H5, length_skipn. subst k.
      pose proof (Nat.Div0.mul_div_le (length l) 8).
      assert (1 <= length l / 8)%nat by (apply Nat.div_le_lower_bound; lia).
      lia. }
    apply (approx_weaken _ _ _ _ Hdepth) in Hall.
    apply (approx_eq _ _ _ (Qsum l)) in Hall.
    + destruct Hall as (_ & _ & Hall). exact Hall.
    + rewrite <- Htotal. cbn [Qsum fold_right]. ring.
Qed.

(** ** The shares of line 66 *)

Lemma int64_small (n : Z) : - 2 ^ 63 <= n < 2 ^ 63 -> int64 n = n.
Proof.
  intros Hn. unfold int64. rewrite Z.mod_small; lia.
Qed.

Lemma Zsum_member_le (l : list Z) (x : Z) :
  Forall (fun y => 0 <= y) l -> In x l -> x <= Zsum l.
Proof.
  induction 1 as [|y l Hy Hl IH]; intros Hin; [contradiction|].
  assert (Hsum : 0 <= Zsum l).
  { clear -Hl. induction Hl as [|z l Hz Hl IH]; cbn [Zsum fold_right]; [lia|].
    fold (Zsum l). lia. }
  cbn [Zsum fold_right]. fold (Zsum l).
  destruct Hin as [<-|Hin]; [lia|]. specialize (IH Hin). lia.
Qed.

Lemma Zlen_le_Zsum (l : list Z) :
  Forall (fun y => 0 < y) l -> Zlen l <= Zsum l.
Proof.
  unfold Zlen.
  induction 1 as [|y l Hy Hl IH]; cbn [Zsum fold_right length]; [lia|].
  fold (Zsum l). lia.
Qed.

(** Below [2^53] the conversions of line 66 are exact and the share is the
    exact quotient, rounded once. *)
Lemma share64_rounds (count total : Z) :
  0 <= count <= total ->
  100 * total < 2 ^ 53 ->
  share64 count total = round64 (inject_Z (100 * count) / inject_Z total).
Proof.
  intros Hc Ht. change (2 ^ 53) with 9007199254740992 in Ht.
  unfold share64. rewrite int64_small by lia.
  rewrite !round64_Z by lia. reflexivity.
Qed.

Lemma genre_sizes_positive (rows : list Rating) :
  Forall (fun c => 0 < c) (map snd (genre_sizes rows)).
Proof.
  unfold genre_sizes. rewrite map_map. apply Forall_map. cbn [snd].
  eapply Forall_impl; [|apply (groupby_nonempty_groups genres rows)].
  intros [k rs] Hne. cbn [snd] in *.
  destruct rs; [congruence|]. unfold Zlen. cbn [length]. lia.
Qed.

(** The table of line 66 is the exact table with every share rounded. *)
Lemma genre_counts64_rounds (rows : list Rating) :
  100 * Zlen rows < 2 ^ 53 ->
  genre_counts64 rows
  = map (fun g => mkGenreShare (share_genres g) (share_count g)
                    (round64 (share_pct g)))
      (genre_counts rows).
Proof.
  intros Hsize. unfold genre_counts64, genre_counts. cbv zeta.
  rewrite genre_sizes_total, map_map.
  assert (Hlen : 0 <= Zlen rows) by (unfold Zlen; lia).
  rewrite int64_small by (change (2 ^ 53) with 9007199254740992 in Hsize; lia).
  apply map_ext_in. intros g Hg. cbn [share_genres share_count share_pct].
  f_equal. apply share64_rounds; [|exact Hsize].
  pose proof (genre_sizes_positive rows) as Hpos.
  assert (Hin : In (snd g) (map snd (genre_sizes rows))) by (apply in_map, Hg).
  split.
  - rewrite Forall_forall in Hpos. specialize (Hpos _ Hin). lia.
  - rewrite <- (genre_sizes_total rows). apply Zsum_member_le; [|exact Hin].
    eapply Forall_impl; [|exact Hpos]. intros c Hc. cbv beta in Hc. lia.
Qed.

Lemma genre_counts_pct_nonneg (rows : list Rating) :
  Forall (fun p => (0 <= p)%Q) (map share_pct (genre_counts rows)).
Proof.
  unfold genre_counts. cbv zeta. rewrite map_map. cbn [share_pct].
  rewrite genre_sizes_total. apply Forall_map.
  pose proof (genre_sizes_positive rows) as Hpos.
  apply (proj1 (Forall_map snd (fun c => 0 < c) (genre_sizes rows))) in Hpos.
  eapply Forall_impl; [|exact Hpos]. intros g Hg. cbv beta in Hg.
  assert (Hlen : 0 <= Zlen rows) by (unfold Zlen; lia).
  apply Qmult_le_0_compat.
  - change 0%Q with (inject_Z 0). rewrite <- Zle_Qle. lia.
  - apply Qinv_le_0_compat. change 0%Q with (inject_Z 0). rewrite <- Zle_Qle. lia.
Qed.

(** The rounded shares of all the genres: none is negative and their
    total is 100 up to a relative error of [u64]. *)
Lemma genre_counts64_pct_total (rows : list Rating) :
  rows <> [] ->
  100 * Zlen rows < 2 ^ 53 ->
  (Qabs (Qsum (map share_pct (genre_counts64 rows)) - 100) <= 100 * u64)%Q
  /\ Forall (fun p => (0 <= p)%Q) (map share_pct (genre_counts64 rows)).
Proof.
  intros Hrows Hsize. rewrite (genre_counts64_rounds rows Hsize).
  rewrite map_map. cbn [share_pct].
  rewrite <- (map_map share_pct round64).
  pose proof (genre_counts_pct_nonneg rows) as Hnn.
  pose proof (rounded_sum_close _ Hnn) as Hclose.
  rewrite (genre_counts_pct_total rows Hrows) in Hclose.
  split.
  - rewrite (Qmult_comm 100). exact Hclose.
  - apply Forall_map. eapply Forall_impl; [|exact Hnn].
    intros p Hp. apply round64_nonneg, Hp.
Qed.

Lemma genre_counts64_count (rows : list Rating) :
  map share_count (genre_counts64 rows) = map snd (genre_sizes rows).
Proof. unfold genre_counts64. rewrite map_map. reflexivity. Qed.

Lemma genre_counts64_length (rows : list Rating) :
  length (genre_counts64 rows) = length (genre_sizes rows).
Proof. unfold genre_counts64. apply length_map. Qed.

Lemma genre_counts64_positive (rows : list Rating) :
  Forall (fun g => 0 < share_count g) (genre_counts64 rows).
Proof.
  apply (proj1 (Forall_map share_count (fun c => 0 < c) (genre_counts64 rows))).
  rewrite genre_counts64_count. apply genre_sizes_positive.
Qed.

Lemma genre_counts64_labels (rows : list Rating) :
  Forall (fun g => In (share_genres g) (map genres rows)) (genre_counts64 rows).
Proof.
  apply Forall_forall. intros g Hg.
  apply (groupby_keys genres rows).
  unfold genre_counts64, genre_sizes in Hg. rewrite map_map in Hg.
  apply in_map_iff in Hg. destruct Hg as [[k rs] [<- Hin]]. cbn [share_genres fst].
  apply in_map_iff. exists (k, rs). split; [reflexivity | exact Hin].
Qed.

Lemma genre_distribution64_runs (fsum : list Q -> Q) (df : DataFrame) (min_pct : Q) :
  has_column df "genres" = true ->
  genre_distribution64 fsum df min_pct = Ok (display_df64 fsum min_pct (records df)).
Proof.
  intros Hcol. unfold genre_distribution64.
  rewrite (column_present _ _ Hcol). reflexivity.
Qed.

Lemma Forall_filter_keeps {A : Type} (P : A -> Prop) (keep : A -> bool) (l : list A) :
  Forall P l -> Forall P (filter keep l).
Proof.
  intros H. apply Forall_forall. intros x Hx. apply filter_In in Hx.
  rewrite Forall_forall in H. apply H, Hx.
Qed.

(** ** The total of the returned percentages *)

(** The total of the returned percentages is 100 up to the roundings of
    the shares and of the sum behind the "Other" row. *)
Lemma display_df64_pct_total (fsum : list Q -> Q) (min_pct : Q)
    (rows : list Rating) :
  sum64_accurate fsum ->
  rows <> [] ->
  100 * Zlen rows < 2 ^ 53 ->
  (Qabs (Qsum (map share_pct (display_df64 fsum min_pct rows)) - 100)
   <= 100 * (compound (S (length (minor min_pct (genre_counts64 rows)))) - 1))%Q.
Proof.
  intros Hfsum Hrows Hsize.
  destruct (genre_counts64_pct_total rows Hrows Hsize) as [Htot Hnn].
  apply (proj1 (Forall_map share_pct (fun p => (0 <= p)%Q) _)) in Hnn.
  set (gc := genre_counts64 rows) in *.
  pose proof (Qsum_filter_split share_pct _ _ gc
                (minor_complements_major min_pct)) as Hsplit.
  fold (major min_pct gc) in Hsplit. fold (minor min_pct gc) in Hsplit.
  assert (Hmj : (0 <= Qsum (map share_pct (major min_pct gc)))%Q).
  { apply Qsum_nonneg, Forall_map, Forall_filter_keeps, Hnn. }
  assert (Hmn : Forall (fun p => (0 <= p)%Q) (map share_pct (minor min_pct gc))).
  { apply Forall_map, Forall_filter_keeps, Hnn. }
  pose proof (Qsum_nonneg _ Hmn) as Hmn0.
  pose proof (Hfsum _ Hmn) as Hsum. rewrite length_map in Hsum.
  pose proof (compound_ge_1 (length (minor min_pct gc))) as Hc.
  assert (Hu : (0 < u64)%Q) by reflexivity.
  apply Qabs_Qle_condition in Htot, Hsum.
  unfold display_df64. cbv zeta. fold gc.
  destruct (minor min_pct gc) as [|m mn] eqn:E; cbn [is_empty negb].
  - cbn [map Qsum fold_right length compound] in *.
    apply Qabs_Qle_condition. split; lra.
  - rewrite map_app, Qsum_app. cbn [map other_row64 share_pct].
    unfold Qsum at 2. cbn [fold_right].
    set (k := length (m :: mn)) in *. cbn [compound].
    set (c := compound k) in *. set (u := u64) in *.
    set (Smj := Qsum (map share_pct (major min_pct gc))) in *.
    set (Smn := Qsum (map share_pct (m :: mn))) in *.
    set (P := Qsum (map share_pct gc)) in *.
    set (f := fsum (map share_pct (m :: mn))) in *.
    assert (HSmn : (Smn <= 100 * (1 + u))%Q) by lra.
    assert (Hprod : ((c - 1) * Smn <= (c - 1) * (100 * (1 + u)))%Q).
    { rewrite !(Qmult_comm (c - 1)). apply Qmult_le_compat_r; lra. }
    change (fsum (share_pct m :: map share_pct mn)) with f.
    apply Qabs_Qle_condition. split; lra.
Qed.

Lemma genre_sizes_length (rows : list Rating) :
  Zlen (genre_sizes rows) <= Zlen rows.
Proof.
  rewrite <- (genre_sizes_total rows).
  replace (Zlen (genre_sizes rows)) with (Zlen (map snd (genre_sizes rows)))
    by (unfold Zlen; rewrite length_map; reflexivity).
  apply Zlen_le_Zsum, genre_sizes_positive.
Qed.

(** On a frame of fewer than [2^53 / 100] rows, the roundings of the
    shares of [k] genres and of their sum stay within the tolerance. *)
Lemma within_pct_tolerance (rows : list Rating) (k : nat) :
  (k <= length (genre_sizes rows))%nat ->
  100 * Zlen rows < 2 ^ 53 ->
  (100 * (compound (S k) - 1) <= pct_tolerance (length (genre_sizes rows)))%Q.
Proof.
  intros Hk Hsize. change (2 ^ 53) with 9007199254740992 in Hsize.
  pose proof (genre_sizes_length rows) as Hlen. unfold Zlen in Hlen.
  set (n := length (genre_sizes rows)) in *.
  pose proof (compound_mono (S k) (S n) ltac:(lia)) as Hmono.
  assert (Hn : (inject_Z (Z.of_nat (S n)) <= inject_Z 4503599627370496)%Q).
  { rewrite <- Zle_Qle. unfold Zlen in Hsize. lia. }
  change (inject_Z 4503599627370496) with (4503599627370496 # 1)%Q in Hn.
  assert (Hhalf : (inject_Z (Z.of_nat (S n)) * u64 <= 1 # 2)%Q).
  { unfold u64. lra. }
  pose proof (compound_linear (S n) Hhalf) as Hlin.
  unfold pct_tolerance. lra.
Qed.

Lemma compound_add (a b : nat) :
  (compound (a + b) == compound a * compound b)%Q.
Proof.
  induction b as [|b IH].
  - rewrite Nat.add_0_r. cbn [compound]. ring.
  - replace (a + S b)%nat with (S (a + b)) by lia. cbn [compound].
    rewrite IH. ring.
Qed.

(** The returned percentages: none is negative and they are no more than
    the genres. *)
Lemma display_df64_pcts (fsum : list Q -> Q) (min_pct : Q) (rows : list Rating) :
  sum64_accurate fsum ->
  rows <> [] ->
  100 * Zlen rows < 2 ^ 53 ->
  Forall (fun p => (0 <= p)%Q) (map share_pct (display_df64 fsum min_pct rows))
  /\ (length (display_df64 fsum min_pct rows) <= length (genre_sizes rows))%nat.
Proof.
  intros Hfsum Hrows Hsize.
  destruct (genre_counts64_pct_total rows Hrows Hsize) as [_ Hnn].
  apply (proj1 (Forall_map share_pct (fun p => (0 <= p)%Q) _)) in Hnn.
  pose proof (within_pct_tolerance rows
                (length (minor min_pct (genre_counts64 rows)))) as Htol.
  rewrite <- genre_counts64_length in *.
  pose proof (filter_length (fun g => Qle_bool min_pct (share_pct g))
                (genre_counts64 rows)) as Hlen.
  set (gc := genre_counts64 rows) in *.
  assert (Hcompl : filter (fun g => negb (Qle_bool min_pct (share_pct g))) gc
                   = minor min_pct gc).
  { apply filter_ext. intros g. symmetry. apply Qlt_bool_negb. }
  cbv beta in Hlen. rewrite Hcompl in Hlen. fold (major min_pct gc) in Hlen.
  assert (Hmj : Forall (fun p => (0 <= p)%Q) (map share_pct (major min_pct gc))).
  { apply Forall_map, Forall_filter_keeps, Hnn. }
  assert (Hmn : Forall (fun p => (0 <= p)%Q) (map share_pct (minor min_pct gc))).
  { apply Forall_map, Forall_filter_keeps, Hnn. }
  pose proof (Qsum_nonneg _ Hmn) as Hmn0.
  pose proof (Hfsum _ Hmn) as Hsum. rewrite length_map in Hsum.
  specialize (Htol (List.filter_length_le _ _) Hsize).
  unfold display_df64. cbv zeta. fold gc.
  destruct (minor min_pct gc) as [|m mn] eqn:E; cbn [is_empty negb].
  - split; [exact Hmj|]. cbn [length] in Hlen. lia.
  - split.
    + rewrite map_app. apply Forall_app. split; [exact Hmj|].
      constructor; [|constructor]. cbn [other_row64 share_pct].
      apply Qabs_Qle_condition in Hsum.
      pose proof (compound_S_le (length (m :: mn))) as Hstep.
      pose proof (compound_ge_1 (length (m :: mn))) as Hone.
      assert (Htwo : (compound (length (m :: mn)) <= 2)%Q).
      { assert (Hn : (pct_tolerance (length gc) <= 100)%Q).
        { unfold pct_tolerance. change (2 ^ 53) with 9007199254740992 in Hsize.
          pose proof (genre_sizes_length rows) as Hg. unfold Zlen in Hg.
          rewrite <- genre_counts64_length in Hg. fold gc in Hg.
          assert (Hk : (inject_Z (Z.of_nat (S (length gc)))
                        <= inject_Z 4503599627370496)%Q).
          { rewrite <- Zle_Qle. unfold Zlen in Hsize. lia. }
          change (inject_Z 4503599627370496) with (4503599627370496 # 1)%Q in Hk.
          unfold u64. lra. }
        lra. }
      set (c := compound (length (m :: mn))) in *.
      set (tot := Qsum (map share_pct (m :: mn))) in *.
      assert (Hprod : ((c - 1) * tot <= 1 * tot)%Q).
      { apply Qmult_le_compat_r; lra. }
      lra.
    + rewrite length_app. cbn [length] in *. lia.
Qed.

(** C1.  On a frame with a [genres] column, at least one row and fewer
    than [2^53 / 100] rows, whatever the threshold and whatever the order
    in which the sum of line 74 adds: the percentages of the returned
    table, the "Other" row included when there is one, add up to 100
    within the tolerance of the roundings.  The percentages are the
    binary64 numbers of the program.  Their exact total is within
    [2 * (n + 1) * 2^-53] of 100 for [n] genres, and their total as any
    accurate binary64 sum computes it is within [2 * (2 * n + 1) * 2^-53]
    of 100. *)
Theorem genre_distribution_pct_total (fsum : list Q -> Q) (df : DataFrame)
    (min_pct : Q) :
  sum64_accurate fsum ->
  has_column df "genres" = true ->
  records df <> [] ->
  100 * Zlen (records df) < 2 ^ 53 ->
  exists out,
    genre_distribution64 fsum df min_pct = Ok out
    /\ (Qabs (Qsum (map share_pct out) - 100)
        <= pct_tolerance (length (genre_sizes (records df))))%Q
    /\ (forall total : list Q -> Q,
          sum64_accurate total ->
          (Qabs (total (map share_pct out) - 100)
           <= pct_tolerance (2 * length (genre_sizes (records df))))%Q).
Proof.
  intros Hfsum Hcol Hrows Hsize. exists (display_df64 fsum min_pct (records df)).
  split; [apply genre_distribution64_runs, Hcol|].
  pose proof (display_df64_pct_total fsum min_pct (records df)
                Hfsum Hrows Hsize) as Hexact.
  assert (Hk : (length (minor min_pct (genre_counts64 (records df)))
                <= length (genre_sizes (records df)))%nat).
  { rewrite <- genre_counts64_length. apply List.filter_length_le. }
  split.
  - eapply Qle_trans; [exact Hexact|].
    apply within_pct_tolerance; [exact Hk | exact Hsize].
  - intros total Htotal.
    destruct (display_df64_pcts fsum min_pct (records df) Hfsum Hrows Hsize)
      as [Hnn Hlen].
    pose proof (Htotal _ Hnn) as Hsum. rewrite length_map in Hsum.
    set (n := length (genre_sizes (records df))) in *.
    set (out := display_df64 fsum min_pct (records df)) in *.
    pose proof (compound_mono _ _ Hlen) as Hcn.
    pose proof (compound_mono (S (length (minor min_pct (genre_counts64 (records df)))))
                  (S n) ltac:(lia)) as Hcn1.
    pose proof (compound_ge_1 (length out)) as Hone.
    pose proof (compound_ge_1 n) as Hone'.
    pose proof (compound_add n (S n)) as Hadd.
    assert (Hlin : (compound (n + S n) <= 1 + 2 * inject_Z (Z.of_nat (n + S n)) * u64)%Q).
    { apply compound_linear. change (2 ^ 53) with 9007199254740992 in Hsize.
      pose proof (genre_sizes_length (records df)) as Hg. unfold Zlen in Hg. fold n in Hg.
      assert (Hq : (inject_Z (Z.of_nat (n + S n)) <= inject_Z 4503599627370496)%Q).
      { rewrite <- Zle_Qle. unfold Zlen in Hsize. lia. }
      change (inject_Z 4503599627370496) with (4503599627370496 # 1)%Q in Hq.
      unfold u64. lra. }
    pose proof (Qsum_nonneg _ Hnn) as Hs0.
    apply Qabs_Qle_condition in Hexact, Hsum.
    unfold pct_tolerance. replace (S (2 * n)) with (n + S n)%nat by lia.
    set (c1 := compound (S (length (minor min_pct (genre_counts64 (records df)))))) in *.
    set (cm := compound (length out)) in *.
    set (cn := compound n) in *. set (cn1 := compound (S n)) in *.
    set (tot := Qsum (map share_pct out)) in *.
    set (f := total (map share_pct out)) in *.
    set (K := inject_Z (Z.of_nat (n + S n))) in *.
    assert (Hs : (tot <= 100 * cn1)%Q) by lra.
    assert (Hp1 : ((cm - 1) * tot <= (cn - 1) * tot)%Q).
    { apply Qmult_le_compat_r; lra. }
    assert (Hp2 : ((cn - 1) * tot <= (cn - 1) * (100 * cn1))%Q).
    { rewrite !(Qmult_comm (cn - 1)). apply Qmult_le_compat_r; lra. }
    apply Qabs_Qle_condition. split; lra.
Qed.

Lemma genre_distribution_pct_total_witness :
  exists out,
    genre_distribution64 sum64_pairwise comedy_drama 20 = Ok out
    /\ (Qabs (Qsum (map share_pct out) - 100)
        <= pct_tolerance (length (genre_sizes (records comedy_drama))))%Q
    /\ (forall total : list Q -> Q,
          sum64_accurate total ->
          (Qabs (total (map share_pct out) - 100)
           <= pct_tolerance (2 * length (genre_sizes (records comedy_drama))))%Q).
Proof.
  apply (genre_distribution_pct_total sum64_pairwise comedy_drama 20).
  - exact sum64_pairwise_accurate.
  - reflexivity.
  - vm_compute. discriminate.
  - vm_compute. reflexivity.
Defined.

(** The tolerance for the twenty genres of a MovieLens table. *)
Example tolerance_of_twenty_genres :
  (pct_tolerance 20 < 1 # 1000000000000)%Q.
Proof. vm_compute. reflexivity. Qed.

(** The total is not 100 itself: the eleven shares of [eleven_genres] are
    each the binary64 number next to 100/11, and eleven of them make
    [100 + 5 / 2^49]. *)
Example eleven_genres_total :
  exists out,
    genre_distribution64 sum64_left eleven_genres 0 = Ok out
    /\ map share_pct out = repeat (5117726849284655 # 562949953421312)%Q 11
    /\ (Qsum (map share_pct out) == 100 + (5 # 562949953421312))%Q
    /\ ~ (Qsum (map share_pct out) == 100)%Q.
Proof.
  eexists. split; [reflexivity|]. split; [vm_compute; reflexivity|].
  split; vm_compute; [reflexivity | discriminate].
Qed.

(** C2.  On a frame with a [genres] column and at least one row.  When
    the share of every group is below the threshold, the returned table is
    the single row "Other", which counts every row of the frame and whose
    percentage is 100 within the tolerance of the roundings (on a frame of
    fewer than [2^53 / 100] rows, whatever the order in which the sum of
    line 74 adds); it need not be 100 itself.  When no group's share is
    below the threshold the returned table is the table of the groups
    itself, nothing appended: every row has a positive count and carries
    the genre of some row of the frame. *)
Theorem genre_distribution_edge_cases (fsum : list Q -> Q) (df : DataFrame)
    (min_pct : Q) :
  has_column df "genres" = true ->
  records df <> [] ->
  (sum64_accurate fsum ->
   100 * Zlen (records df) < 2 ^ 53 ->
   Forall (fun g => (share_pct g < min_pct)%Q) (genre_counts64 (records df)) ->
   exists other,
     genre_distribution64 fsum df min_pct = Ok [other]
     /\ share_genres other = "Other"
     /\ share_count other = Zlen (records df)
     /\ (Qabs (share_pct other - 100)
         <= pct_tolerance (length (genre_sizes (records df))))%Q)
  /\ (Forall (fun g => ~ (share_pct g < min_pct)%Q) (genre_counts64 (records df)) ->
      genre_distribution64 fsum df min_pct = Ok (genre_counts64 (records df))
      /\ Forall (fun g => 0 < share_count g) (genre_counts64 (records df))
      /\ Forall (fun g => In (share_genres g) (map genres (records df)))
           (genre_counts64 (records df))).
Proof.
  intros Hcol Hrows. rewrite (genre_distribution64_runs _ _ _ Hcol).
  split.
  - intros Hfsum Hsize Hall.
    pose proof (display_df64_pct_total fsum min_pct (records df)
                  Hfsum Hrows Hsize) as Htot.
    pose proof (within_pct_tolerance (records df)
                  (length (minor min_pct (genre_counts64 (records df))))) as Htol.
    pose proof (genre_counts64_count (records df)) as Hcount.
    pose proof (genre_counts64_length (records df)) as Hlen.
    unfold display_df64 in *. cbv zeta in *.
    set (gc := genre_counts64 (records df)) in *.
    assert (Hmn : minor min_pct gc = gc).
    { apply filter_all. eapply Forall_impl; [|exact Hall].
      intros g Hg. apply Qlt_bool_iff, Hg. }
    assert (Hmj : major min_pct gc = []).
    { apply filter_none. eapply Forall_impl; [|exact Hall].
      intros g Hg. apply Qlt_bool_iff in Hg.
      rewrite Qlt_bool_negb in Hg. apply negb_true_iff, Hg. }
    rewrite Hmn, Hmj in *.
    destruct gc as [|g0 gc'] eqn:E.
    + exfalso. pose proof (genre_sizes_total (records df)) as Ht.
      destruct (genre_sizes (records df)); [|discriminate Hlen].
      cbn in Ht. destruct (records df); [congruence|].
      unfold Zlen in Ht. cbn [length] in Ht. lia.
    + cbn [is_empty negb app] in *.
      exists (other_row64 fsum (g0 :: gc')).
      split; [reflexivity|]. split; [reflexivity|]. split.
      * cbn [other_row64 share_count]. rewrite Hcount. apply genre_sizes_total.
      * cbn [map Qsum fold_right other_row64 share_pct] in Htot.
        rewrite Qplus_0_r in Htot. cbn [other_row64 share_pct map].
        eapply Qle_trans; [exact Htot|].
        apply Htol; [rewrite <- Hlen; apply Nat.le_refl | exact Hsize].
  - intros Hnone.
    set (gc := genre_counts64 (records df)) in *.
    assert (Hmn : minor min_pct gc = []).
    { apply filter_none. eapply Forall_impl; [|exact Hnone].
      intros g Hg. destruct (Qlt_bool (share_pct g) min_pct) eqn:E; [|reflexivity].
      exfalso. apply Hg, Qlt_bool_iff, E. }
    assert (Hmj : major min_pct gc = gc).
    { apply filter_all. eapply Forall_impl; [|exact Hnone].
      intros g Hg. apply Qle_bool_iff, Qnot_lt_le, Hg. }
    unfold display_df64. cbv zeta. fold gc. rewrite Hmn, Hmj. cbn [is_empty negb].
    split; [reflexivity|]. split.
    + apply genre_counts64_positive.
    + apply genre_counts64_labels.
Qed.

Lemma genre_distribution_edge_cases_witness :
  (exists other,
     genre_distribution64 sum64_pairwise eleven_genres 10 = Ok [other]
     /\ share_genres other = "Other"
     /\ share_count other = Zlen (records eleven_genres)
     /\ (Qabs (share_pct other - 100)
         <= pct_tolerance (length (genre_sizes (records eleven_genres))))%Q)
  /\ (genre_distribution64 sum64_pairwise comedy_drama 5
      = Ok (genre_counts64 (records comedy_drama))
      /\ Forall (fun g => 0 < share_count g) (genre_counts64 (records comedy_drama))
      /\ Forall (fun g => In (share_genres g) (map genres (records comedy_drama)))
           (genre_counts64 (records comedy_drama))).
Proof.
  split.
  - apply (genre_distribution_edge_cases sum64_pairwise eleven_genres 10).
    + reflexivity.
    + vm_compute. discriminate.
    + exact sum64_pairwise_accurate.
    + vm_compute. reflexivity.
    + vm_compute. repeat constructor.
  - apply (genre_distribution_edge_cases sum64_pairwise comedy_drama 5).
    + reflexivity.
    + vm_compute. discriminate.
    + vm_compute. repeat (constructor; [intro; discriminate|]). constructor.
Defined.

(** The "Other" row of C2 with a percentage of 100 is not what the program
    returns.  On [eleven_genres] with the threshold at 10 every share,
    9.090909090909092, is below the threshold; the row that merges them
    carries 100.00000000000001, the binary64 number after 100, whether the
    eleven shares are added from left to right or the way numpy adds
    them. *)
Lemma other_row_is_not_100 :
  Forall (fun g => (share_pct g < 10)%Q) (genre_counts64 (records eleven_genres))
  /\ genre_distribution64 sum64_left eleven_genres 10
     = Ok [mkGenreShare "Other" 11 (7036874417766401 # 70368744177664)]
  /\ genre_distribution64 sum64_pairwise eleven_genres 10
     = Ok [mkGenreShare "Other" 11 (7036874417766401 # 70368744177664)]
  /\ ~ (7036874417766401 # 70368744177664 == 100)%Q
  /\ (7036874417766401 # 70368744177664 == 100 + (1 # 70368744177664))%Q.
Proof.
  split; [vm_compute; repeat constructor|].
  split; [vm_compute; reflexivity|].
  split; [vm_compute; reflexivity|].
  split; vm_compute; [discriminate | reflexivity].
Qed.

(** The spec's example as the program rounds it: with a threshold of 5 both
    genres are major, 83.33333333333333 and 16.666666666666668. *)
Example comedy_drama_5_rounded :
  genre_distribution64 sum64_left comedy_drama 5
  = Ok [ mkGenreShare "Comedy" 10 (5864062014805333 # 70368744177664);
         mkGenreShare "Drama" 2 (4691249611844267 # 281474976710656) ].
Proof. vm_compute. reflexivity. Qed.

(** ** [round64] against the IEEE 754 specification of the library *)

(** The share of [count] rows among [total], by the division of the
    specification at precision 53. *)
Example shares_as_specified :
  forallb (fun total =>
     forallb (fun count =>
        Qeq_bool (share64 count total)
          (binary64_value
             (SpecFloat.SFdiv 53 1024 (binary64_of_Z (100 * count))
                (binary64_of_Z total))))
       (map Z.of_nat (seq 1 (Z.to_nat total))))
    (map Z.of_nat (seq 1 40))
  = true.
Proof. vm_compute. reflexivity. Qed.

(** The eleven shares of [eleven_genres] added from left to right, by the
    addition of the specification. *)
Example sum_as_specified :
  let share :=
    SpecFloat.SFdiv 53 1024 (binary64_of_Z 100) (binary64_of_Z 11) in
  (sum64_left (repeat (share64 1 11) 11)
   == binary64_value
        (fold_left (SpecFloat.SFadd 53 1024) (repeat share 11) (binary64_of_Z 0)))%Q.
Proof. vm_compute. reflexivity. Qed.
